(** * foto-pool: credential resolution, validated configuration and the
      iCloud client's download decisions

    A shallow embedding of

    - [src/icloud_photo_sync/src/icloud_photo_sync/config.py]
      (class [BaseConfig]: keyring-backed credential properties,
      [database_path], [validate]) and
    - [src/icloud_photo_sync/icloud_client.py]
      (class [iCloudClient]: [authenticate], [handle_2fa],
      [download_photo]).

    Python code that reads the keyring, touches the file system, talks to
    the remote service or raises is written in a state-and-exception monad
    over an explicit world; an exception keeps the side effects performed
    before it was raised, as in Python. *)

From Stdlib Require Import ZArith QArith String Ascii List Lia.
From stdpp Require Import base option gmap strings list.

Close Scope Q_scope.
Local Open Scope string_scope.
Local Open Scope list_scope.

(** ** Python prelude: exceptions and the effect monad *)

Module Py.

(** The subclasses of [OSError] that the modelled file-system calls raise. *)
Inductive oserror_kind :=
| FileNotFoundError
| FileExistsError
| NotADirectoryError
| IsADirectoryError
| PermissionError.

(** The subclasses of [Exception] that occur in the two modules.  Anything
    else a collaborator may raise is [OtherException].  ([BaseException]s
    that are not [Exception]s, such as [KeyboardInterrupt], are outside the
    model.) *)
Inductive exn :=
| ValueError (msg : string)
| KeyError (key : string)
| TypeError (msg : string)
| OSError (kind : oserror_kind) (filename : string)
| KeyringError (msg : string)
| PyiCloudFailedLoginException (msg : string)
| PyiCloudAPIResponseException (msg : string)
| OtherException (msg : string).

Definition is_ValueError (e : exn) : bool :=
  match e with ValueError _ => true | _ => false end.

Definition is_OSError (e : exn) : bool :=
  match e with OSError _ _ => true | _ => false end.

Definition strerror (k : oserror_kind) : string :=
  match k with
  | FileNotFoundError => "[Errno 2] No such file or directory"
  | FileExistsError => "[Errno 17] File exists"
  | NotADirectoryError => "[Errno 20] Not a directory"
  | IsADirectoryError => "[Errno 21] Is a directory"
  | PermissionError => "[Errno 13] Permission denied"
  end.

(** [str(e)], as interpolated by an f-string. *)
Definition str_exn (e : exn) : string :=
  match e with
  | ValueError m | TypeError m | KeyringError m
  | PyiCloudFailedLoginException m | PyiCloudAPIResponseException m
  | OtherException m => m
  | KeyError k => "'" +:+ k +:+ "'"
  | OSError k f => strerror k +:+ ": '" +:+ f +:+ "'"
  end.

(** A computation over a state [S]: it returns a value or raises, and in
    both cases leaves a state behind. *)
Definition M (S A : Type) : Type := S -> (exn + A) * S.

Definition ret {S A} (a : A) : M S A := fun s => (inr a, s).

Definition raise {S A} (e : exn) : M S A := fun s => (inl e, s).

Definition bind {S A B} (c : M S A) (k : A -> M S B) : M S B :=
  fun s =>
    match c s with
    | (inr a, s') => k a s'
    | (inl e, s') => (inl e, s')
    end.

(** [try: body except <classes selected by handles>: handler]; an exception
    outside the selected classes propagates. *)
Definition try_except {S A} (body : M S A) (handles : exn -> bool)
    (handler : exn -> M S A) : M S A :=
  fun s =>
    match body s with
    | (inr a, s') => (inr a, s')
    | (inl e, s') => if handles e then handler e s' else (inl e, s')
    end.

(** [except Exception]. *)
Definition any_Exception (e : exn) : bool := true.

Definition gets {S A} (f : S -> A) : M S A := fun s => (inr (f s), s).

Definition modify {S} (f : S -> S) : M S unit := fun s => (inr tt, f s).

(** Run a computation on a component of a larger state. *)
Definition zoom {S T A} (get : T -> S) (set : S -> T -> T) (c : M S A) : M T A :=
  fun t => let '(r, s') := c (get t) in (r, set s' t).

(** Truthiness of a [str | None] value: [None] and [''] are falsy. *)
Definition truthy (v : option string) : bool :=
  match v with
  | Some s => negb (String.eqb s "")
  | None => false
  end.

(** [v or ""]. *)
Definition or_empty (v : option string) : string :=
  match v with
  | Some s => s
  | None => ""
  end.

End Py.

Import Py.

Declare Scope py_scope.
Delimit Scope py_scope with py.
Notation "x <- c ;; k" := (bind c (fun x => k))
  (at level 100, c at next level, right associativity) : py_scope.
Notation "c ;; k" := (bind c (fun _ => k))
  (at level 100, right associativity) : py_scope.
Local Open Scope py_scope.

(** ** The keyring collaborator

    [keyring.get_password], [set_password] and [delete_password] over
    entries named by (service, key).  A backend that cannot be reached makes
    every call raise. *)

Module keyring.

Record Keyring := {
  entries : gmap (string * string) string;
  available : bool
}.

Definition get_password (service key : string) : M Keyring (option string) :=
  fun kr =>
    if available kr then (inr (entries kr !! (service, key)), kr)
    else (inl (KeyringError "no keyring backend"), kr).

Definition set_password (service key value : string) : M Keyring unit :=
  fun kr =>
    if available kr
    then (inr tt, {| entries := <[(service, key) := value]> (entries kr);
                     available := true |})
    else (inl (KeyringError "no keyring backend"), kr).

Definition delete_password (service key : string) : M Keyring unit :=
  fun kr =>
    if available kr then
      match entries kr !! (service, key) with
      | Some _ => (inr tt, {| entries := delete (service, key) (entries kr);
                              available := true |})
      | None => (inl (KeyringError "password not found"), kr)
      end
    else (inl (KeyringError "no keyring backend"), kr).

End keyring.

(** ** Python [str] methods used by the two modules *)

Module Str.

(** [sub in s]. *)
Fixpoint contains (sub s : string) : bool :=
  String.prefix sub s ||
  match s with
  | EmptyString => false
  | String _ s' => contains sub s'
  end.

(** [s.replace(old, new)] for a non-empty [old]: the occurrences are taken
    from the left and do not overlap.  [skip] counts the characters of an
    occurrence that are still to be dropped. *)
Fixpoint replace_from (old new : string) (skip : nat) (s : string) : string :=
  match s with
  | EmptyString => EmptyString
  | String c s' =>
      match skip with
      | S k => replace_from old new k s'
      | O =>
          if String.prefix old s
          then new +:+ replace_from old new (String.length old - 1) s'
          else String c (replace_from old new 0 s')
      end
  end.

Definition replace (old new s : string) : string := replace_from old new 0 s.

(** [s.split(sep)] for a one-character separator. *)
Fixpoint split (sep : ascii) (s : string) : list string :=
  match s with
  | EmptyString => [EmptyString]
  | String c s' =>
      if Ascii.eqb c sep then EmptyString :: split sep s'
      else match split sep s' with
           | [] => [String c EmptyString]
           | h :: t => String c h :: t
           end
  end.

(** [sep.join(l)]. *)
Definition join (sep : string) (l : list string) : string := String.concat sep l.

(** [s.rstrip(c)]. *)
Fixpoint rstrip (c : ascii) (s : string) : string :=
  match s with
  | EmptyString => EmptyString
  | String a s' =>
      match rstrip c s' with
      | EmptyString => if Ascii.eqb a c then EmptyString else String a EmptyString
      | r => String a r
      end
  end.

(** [x in l] for a list of strings. *)
Definition mem (x : string) (l : list string) : bool :=
  existsb (String.eqb x) l.

(** The ASCII characters for which [str.isspace] holds.  (Strings are byte
    strings here: the white space outside ASCII is not recognised.) *)
Definition is_space (c : ascii) : bool :=
  let n := nat_of_ascii c in
  (((9 <=? n) && (n <=? 13)) || ((28 <=? n) && (n <=? 32)))%nat.

(** [s.lstrip()]. *)
Fixpoint lstrip_space (s : string) : string :=
  match s with
  | EmptyString => EmptyString
  | String a s' => if is_space a then lstrip_space s' else s
  end.

(** [s.rstrip()]. *)
Fixpoint rstrip_space (s : string) : string :=
  match s with
  | EmptyString => EmptyString
  | String a s' =>
      match rstrip_space s' with
      | EmptyString => if is_space a then EmptyString else String a EmptyString
      | r => String a r
      end
  end.

(** [s.strip()]. *)
Definition strip (s : string) : string := rstrip_space (lstrip_space s).

End Str.

(** ** The operating system: [pathlib] paths of the POSIX flavour, a file
       system and the process environment

    Paths are the POSIX flavour of [pathlib]; on a host whose [os.name] is
    ['nt'] the Windows flavour would apply, which is not modelled. *)

Module os.

(** A parsed [PurePosixPath]: [root] is [''], ['/'] or ['//']. *)
Record Path := { root : string; parts : list string }.

(** [posixpath.splitroot]. *)
Definition splitroot (p : string) : string * string :=
  match p with
  | String "/" (String "/" (String "/" r)) => ("/", String "/" (String "/" r))
  | String "/" (String "/" r) => ("//", r)
  | String "/" r => ("/", r)
  | _ => ("", p)
  end.

(** [Path(s)]: empty components and ['.'] components are dropped. *)
Definition Path_of (s : string) : Path :=
  let '(rt, rel) := splitroot s in
  {| root := rt;
     parts := List.filter (fun x => negb (String.eqb x "") && negb (String.eqb x "."))
                          (Str.split "/" rel) |}.

(** [str(p)]. *)
Definition str (p : Path) : string :=
  match root p, parts p with
  | EmptyString, [] => "."
  | rt, ps => rt +:+ Str.join "/" ps
  end.

Definition is_absolute (p : Path) : bool := negb (String.eqb (root p) "").

(** [p / q]. *)
Definition truediv (p q : Path) : Path :=
  if is_absolute q then q
  else {| root := root p; parts := parts p ++ parts q |}.

(** [p.parent]. *)
Definition parent (p : Path) : Path :=
  {| root := root p; parts := removelast (parts p) |}.

(** *** File system *)

Inductive node :=
| Dir (writable : bool)
| File (data : list Byte.byte).

(** The nodes are keyed by their absolute component lists ([[]] is the root
    directory); there are no symbolic links, and ['..'] is resolved
    lexically. *)
Record FS := {
  nodes : gmap (list string) node;
  cwd : list string
}.

Definition with_nodes (f : gmap (list string) node -> gmap (list string) node)
    (fs : FS) : FS :=
  {| nodes := f (nodes fs); cwd := cwd fs |}.

Definition resolve (fs : FS) (p : Path) : list string :=
  fold_left (fun acc x => if String.eqb x ".." then removelast acc else acc ++ [x])
            (parts p)
            (if is_absolute p then [] else cwd fs).

Definition is_dir (fs : FS) (p : Path) : bool :=
  match nodes fs !! resolve fs p with
  | Some (Dir _) => true
  | _ => false
  end.

(** [os.access(p, os.W_OK)]. *)
Definition access_W_OK (fs : FS) (p : Path) : bool :=
  match nodes fs !! resolve fs p with
  | Some (Dir w) => w
  | Some (File _) => true
  | None => false
  end.

(** What creating a new entry at the resolved location [k] meets. *)
Definition create_at (k : list string) (n : node) (name : string) : M FS unit :=
  fun fs =>
    match nodes fs !! removelast k with
    | Some (Dir true) => (inr tt, with_nodes (insert k n) fs)
    | Some (Dir false) => (inl (OSError PermissionError name), fs)
    | Some (File _) => (inl (OSError NotADirectoryError name), fs)
    | None => (inl (OSError FileNotFoundError name), fs)
    end.

(** [os.mkdir(p)]. *)
Definition mkdir (p : Path) : M FS unit :=
  fun fs =>
    match nodes fs !! resolve fs p with
    | Some _ => (inl (OSError FileExistsError (str p)), fs)
    | None => create_at (resolve fs p) (Dir true) (str p) fs
    end.

Definition is_FileNotFoundError (e : exn) : bool :=
  match e with OSError FileNotFoundError _ => true | _ => false end.

(** [Path.mkdir(parents=False, exist_ok=exist_ok)]. *)
Definition Path_mkdir_flat (p : Path) (exist_ok : bool) : M FS unit :=
  try_except (mkdir p) is_OSError (fun e =>
    if is_FileNotFoundError e then raise e
    else
      d <- gets (fun fs => is_dir fs p) ;;
      if negb exist_ok || negb d then raise e else ret tt).

(** [Path.mkdir(parents=True, exist_ok=True)], by recursion on the
    components from the last one: the path is [rt] with parts [rev rparts],
    its parent drops the head of [rparts], and a path without parts is its
    own parent. *)
Fixpoint Path_mkdir_rev (rt : string) (rparts : list string) : M FS unit :=
  let self := {| root := rt; parts := rev rparts |} in
  try_except (mkdir self) is_OSError (fun e =>
    if is_FileNotFoundError e then
      match rparts with
      | [] => raise e
      | _ :: rparent =>
          Path_mkdir_rev rt rparent ;;
          Path_mkdir_flat self true
      end
    else
      d <- gets (fun fs => is_dir fs self) ;;
      if negb d then raise e else ret tt).

Definition Path_mkdir_parents (p : Path) : M FS unit :=
  Path_mkdir_rev (root p) (rev (parts p)).

(** [open(path, 'wb')]: the file is created or truncated. *)
Definition open_wb (path : string) : M FS unit :=
  fun fs =>
    let k := resolve fs (Path_of path) in
    match nodes fs !! k with
    | Some (Dir _) => (inl (OSError IsADirectoryError path), fs)
    | Some (File _) => (inr tt, with_nodes (insert k (File [])) fs)
    | None => create_at k (File []) path fs
    end.

(** [f.write(data)] on the file opened at [path]. *)
Definition write (path : string) (data : list Byte.byte) : M FS unit :=
  modify (fun fs => with_nodes (insert (resolve fs (Path_of path)) (File data)) fs).

(** *** Process environment *)

Record Platform := {
  name : string;                      (* os.name *)
  environ : gmap string string;       (* os.environ *)
  pw_dir : option string              (* pwd.getpwuid(os.getuid()).pw_dir *)
}.

Definition is_word (c : ascii) : bool :=
  let n := nat_of_ascii c in
  (((48 <=? n) && (n <=? 57)) || ((65 <=? n) && (n <=? 90))
   || ((97 <=? n) && (n <=? 122)) || (n =? 95))%nat.

Fixpoint take_word (s : string) : string :=
  match s with
  | String c s' => if is_word c then String c (take_word s') else EmptyString
  | EmptyString => EmptyString
  end.

(** The characters before the first ['}'], if there is one. *)
Fixpoint take_brace (s : string) : option string :=
  match s with
  | String c s' =>
      if Ascii.eqb c "}" then Some EmptyString
      else match take_brace s' with
           | Some r => Some (String c r)
           | None => None
           end
  | EmptyString => None
  end.

(** A match of [\w+|\{[^}]*\}] at the start of [s]: the variable name and
    the matched text. *)
Definition match_name (s : string) : option (string * string) :=
  match s with
  | String c s' =>
      if is_word c then Some (take_word s, take_word s)
      else if Ascii.eqb c "{" then
        match take_brace s' with
        | Some n => Some (n, "{" +:+ n +:+ "}")
        | None => None
        end
      else None
  | EmptyString => None
  end.

(** [posixpath.expandvars]: one pass from the left; a substituted value is
    not scanned again, an unknown variable is left as it is. *)
Fixpoint expandvars_from (env : gmap string string) (skip : nat) (s : string) : string :=
  match s with
  | EmptyString => EmptyString
  | String c s' =>
      match skip with
      | S k => expandvars_from env k s'
      | O =>
          if Ascii.eqb c "$" then
            match match_name s' with
            | Some (n, text) =>
                match env !! n with
                | Some v => v
                | None => String c text
                end +:+ expandvars_from env (String.length text) s'
            | None => String c (expandvars_from env 0 s')
            end
          else String c (expandvars_from env 0 s')
      end
  end.

Definition expandvars (pl : Platform) (path : string) : string :=
  expandvars_from (environ pl) 0 path.

(** [posixpath.expanduser('~')]. *)
Definition expanduser_tilde (pl : Platform) : string :=
  let finish h :=
    match Str.rstrip "/" h with
    | EmptyString => "/"
    | r => r
    end in
  match environ pl !! "HOME" with
  | Some h => finish h
  | None =>
      match pw_dir pl with
      | Some d => finish d
      | None => "~"
      end
  end.

(** [p.exists()]. *)
Definition exists_ (fs : FS) (p : Path) : bool :=
  match nodes fs !! resolve fs p with
  | Some _ => true
  | None => false
  end.

(** [Path.home()]: [Path('~').expanduser()], which raises [RuntimeError]
    when the home directory cannot be determined. *)
Definition Path_home (pl : Platform) : exn + Path :=
  match expanduser_tilde pl with
  | String "~" _ => inl (OtherException "Could not determine home directory.")
  | homedir => inr (Path_of homedir)
  end.

End os.

(** ** The remote collaborator ([pyicloud]), as far as the client uses it

    What the remote answers is data of the world: a call either raises or
    returns. *)

Module pyicloud.

(** The response of [photo.download()]; [raw_read] is [download.raw.read()]. *)
Record Response := { raw_read : exn + list Byte.byte }.

Record PhotoAsset := {
  id : string;
  filename : string;
  size : Z;
  download : exn + Response
}.

Record PhotosService := { all : list PhotoAsset }.

(** A session object.  [photos] is the property read by [api.photos]: it may
    raise, or give [None], or give the photo library. *)
Record PyiCloudService := {
  photos : exn + option PhotosService;
  requires_2fa : bool;
  validate_2fa_code : string -> exn + bool
}.

End pyicloud.

(** ** The world the two modules act on *)

Record World := {
  kr : keyring.Keyring;
  fs : os.FS;
  platform : os.Platform;
  (** the constructor [PyiCloudService(username, password)] *)
  login : string -> string -> exn + pyicloud.PyiCloudService
}.

Definition in_keyring {A} (c : M keyring.Keyring A) : M World A :=
  zoom kr (fun k w => {| kr := k; fs := fs w; platform := platform w; login := login w |}) c.

Definition in_fs {A} (c : M os.FS A) : M World A :=
  zoom fs (fun f w => {| kr := kr w; fs := f; platform := platform w; login := login w |}) c.

(** ** config.py *)

Module Config.

(** The attributes that [BaseConfig.__init__] sets from the environment. *)
Record BaseConfig := {
  sync_directory : os.Path;
  dry_run : bool;
  log_level : string;
  max_downloads : Z;
  max_file_size_mb : Z;
  pushover_device : string;
  enable_pushover : bool;
  include_personal_albums : bool;
  include_shared_albums : bool;
  personal_album_names_to_include : list string;
  shared_album_names_to_include : list string;
  execution_mode : string;
  sync_interval_minutes : Q;          (* a float in the source *)
  maintenance_interval_hours : Q;     (* a float in the source *)
  database_parent_directory : string
}.

Definition ICLOUD_KEYRING_SERVICE_NAME : string := "icloud-photo-sync".
Definition PUSHOVER_KEYRING_SERVICE_NAME : string := "pushover-photo-sync".

Definition _icloud_get_username_from_store (self : BaseConfig) : M World (option string) :=
  try_except
    (in_keyring (keyring.get_password ICLOUD_KEYRING_SERVICE_NAME "username"))
    any_Exception (fun _ => ret None).

(** The property [icloud_username]. *)
Definition icloud_username (self : BaseConfig) : M World string :=
  v <- _icloud_get_username_from_store self ;;
  if negb (truthy v) && enable_pushover self
  then raise (ValueError "icloud_username is required (store in keyring)")
  else ret (or_empty v).

Definition _icloud_get_password_from_store (self : BaseConfig) : M World (option string) :=
  try_except
    (u <- icloud_username self ;;
     in_keyring (keyring.get_password ICLOUD_KEYRING_SERVICE_NAME u))
    any_Exception (fun _ => ret None).

(** The property [icloud_password]. *)
Definition icloud_password (self : BaseConfig) : M World string :=
  v <- _icloud_get_password_from_store self ;;
  if negb (truthy v) && enable_pushover self
  then raise (ValueError "icloud_password is required (store in keyring)")
  else ret (or_empty v).

Definition _pushover_get_user_key_from_store (self : BaseConfig) : M World (option string) :=
  try_except
    (in_keyring (keyring.get_password PUSHOVER_KEYRING_SERVICE_NAME "user_key"))
    any_Exception (fun _ => ret None).

(** The property [pushover_user_key]. *)
Definition pushover_user_key (self : BaseConfig) : M World string :=
  v <- _pushover_get_user_key_from_store self ;;
  if negb (truthy v) && enable_pushover self
  then raise (ValueError "pushover_user_key is required (store in keyring)")
  else ret (or_empty v).

Definition _pushover_get_api_token_from_store (self : BaseConfig) : M World (option string) :=
  try_except
    (k <- pushover_user_key self ;;
     in_keyring (keyring.get_password PUSHOVER_KEYRING_SERVICE_NAME k))
    any_Exception (fun _ => ret None).

(** The property [pushover_api_token]. *)
Definition pushover_api_token (self : BaseConfig) : M World string :=
  v <- _pushover_get_api_token_from_store self ;;
  if negb (truthy v) && enable_pushover self
  then raise (ValueError "pushover_api_token is required (store in keyring)")
  else ret (or_empty v).

Definition icloud_store_credentials (self : BaseConfig) (username password : string)
    : M World bool :=
  try_except
    (in_keyring (keyring.set_password ICLOUD_KEYRING_SERVICE_NAME "username" username) ;;
     in_keyring (keyring.set_password ICLOUD_KEYRING_SERVICE_NAME username password) ;;
     ret true)
    any_Exception (fun _ => ret false).

Definition icloud_delete_credentials (self : BaseConfig) : M World bool :=
  try_except
    (stored_username <-
       in_keyring (keyring.get_password ICLOUD_KEYRING_SERVICE_NAME "username") ;;
     (if truthy stored_username then
        in_keyring (keyring.delete_password ICLOUD_KEYRING_SERVICE_NAME
                      (or_empty stored_username)) ;;
        in_keyring (keyring.delete_password ICLOUD_KEYRING_SERVICE_NAME "username")
      else ret tt) ;;
     ret true)
    any_Exception (fun _ => ret false).

(** The property [database_path]. *)
Definition database_path (self : BaseConfig) : M World os.Path :=
  pl <- gets platform ;;
  let expanded_path := os.expandvars pl (database_parent_directory self) in
  let expanded_path :=
    if Str.contains "%LOCALAPPDATA%" expanded_path && negb (String.eqb (os.name pl) "nt")
    then
      let home := os.expanduser_tilde pl in
      Str.replace "%LOCALAPPDATA%" (home +:+ "/.local/share") expanded_path
    else expanded_path in
  let database_dir := os.Path_of expanded_path in
  let database_dir :=
    if negb (os.is_absolute database_dir)
    then os.truediv (sync_directory self) database_dir
    else database_dir in
  in_fs (os.Path_mkdir_parents database_dir) ;;
  ret (os.truediv database_dir (os.Path_of "deletion_tracker.db")).

(** [x not in l]. *)
Definition not_in (x : string) (l : list string) : bool := negb (Str.mem x l).

(** The body of [validate] up to its last statement: the list [errors] as it
    stands before [if errors: raise ...]; every step appends to the list it
    is given. *)
Definition validate_collect (self : BaseConfig) : M World (list string) :=
  let errors : list string := [] in
  errors <-
    try_except
      (username <- icloud_username self ;;
       ret (if String.eqb username ""
            then errors ++ ["icloud_username is required (store in keyring)"]
            else errors))
      is_ValueError
      (fun _ => ret (errors ++ ["icloud_username is required (store in keyring)"])) ;;
  errors <-
    try_except
      (password <- icloud_password self ;;
       ret (if String.eqb password ""
            then errors ++ ["icloud_password is required (store in keyring)"]
            else errors))
      is_ValueError
      (fun _ => ret (errors ++ ["icloud_password is required (store in keyring)"])) ;;
  let errors :=
    if not_in (log_level self) ["DEBUG"; "INFO"; "WARNING"; "ERROR"]
    then errors ++ ["Invalid LOG_LEVEL: " +:+ log_level self]
    else errors in
  errors <-
    (if enable_pushover self then
       errors <-
         try_except
           (api_token <- pushover_api_token self ;;
            ret (if String.eqb api_token ""
                 then errors ++ ["PUSHOVER_API_TOKEN is required when ENABLE_PUSHOVER=true"]
                 else errors))
           is_ValueError
           (fun _ => ret (errors ++ ["PUSHOVER_API_TOKEN is required when ENABLE_PUSHOVER=true"])) ;;
       try_except
         (user_key <- pushover_user_key self ;;
          ret (if String.eqb user_key ""
               then errors ++ ["PUSHOVER_USER_KEY is required when ENABLE_PUSHOVER=true"]
               else errors))
         is_ValueError
         (fun _ => ret (errors ++ ["PUSHOVER_USER_KEY is required when ENABLE_PUSHOVER=true"]))
     else ret errors) ;;
  let errors :=
    if negb (include_personal_albums self) && negb (include_shared_albums self)
    then errors ++ ["At least one of INCLUDE_PERSONAL_ALBUMS or INCLUDE_SHARED_ALBUMS must be true"]
    else errors in
  let errors :=
    if not_in (execution_mode self) ["single"; "continuous"]
    then errors ++ ["Invalid EXECUTION_MODE: " +:+ execution_mode self
                    +:+ ". Must be 'single' or 'continuous'"]
    else errors in
  let errors :=
    if Qle_bool (sync_interval_minutes self) 0
    then errors ++ ["SYNC_INTERVAL_MINUTES must be bigger than 0 minutes"]
    else errors in
  let errors :=
    if Qle_bool (maintenance_interval_hours self) 0
    then errors ++ ["MAINTENANCE_INTERVAL_HOURS must be bigger than 0 hours"]
    else errors in
  let errors :=
    if Qle_bool (maintenance_interval_hours self * 60) (sync_interval_minutes self)
    then errors ++ ["MAINTENANCE_INTERVAL_HOURS * 60 must be bigger than SYNC_INTERVAL_MINUTES"]
    else errors in
  try_except
    (database_path <- database_path self ;;
     in_fs (os.Path_mkdir_parents (os.parent database_path)) ;;
     w_ok <- gets (fun w => os.access_W_OK (fs w) (os.parent database_path)) ;;
     ret (if negb w_ok
          then errors ++ ["Database directory is not writable: "
                          +:+ os.str (os.parent database_path)]
          else errors))
    (fun e => is_OSError e || is_ValueError e)
    (fun e => ret (errors ++ ["Invalid database path configuration: " +:+ str_exn e])).

Definition validate (self : BaseConfig) : M World unit :=
  errors <- validate_collect self ;;
  match errors with
  | [] => ret tt
  | _ => raise (ValueError ("Configuration errors: " +:+ Str.join ", " errors))
  end.

(** *** The rest of [BaseConfig] *)

(** The comprehension of [__init__] that turns a comma-separated setting
    into a list of album names:
    [[name.strip() for name in s.split(',') if name.strip()] if s else []]. *)
Definition parse_album_names (s : string) : list string :=
  if String.eqb s "" then []
  else List.map Str.strip
         (List.filter (fun name => negb (String.eqb (Str.strip name) ""))
                      (Str.split "," s)).

Definition ensure_sync_directory (self : BaseConfig) : M World unit :=
  in_fs (os.Path_mkdir_parents (sync_directory self)).

(** [PushoverConfig] of [auth2fa.pushover_service], a module that is not
    part of the sources at hand: the three fields the constructor is given. *)
Record PushoverConfig := {
  api_token : string;
  user_key : string;
  device : string
}.

Definition get_pushover_config (self : BaseConfig) : M World (option PushoverConfig) :=
  if negb (enable_pushover self) then ret None
  else
    token <- pushover_api_token self ;;
    unset <-
      (if String.eqb token "" then ret true
       else key <- pushover_user_key self ;; ret (String.eqb key "")) ;;
    if (unset : bool) then ret None
    else
      token <- pushover_api_token self ;;
      key <- pushover_user_key self ;;
      ret (Some {| api_token := token; user_key := key;
                   device := pushover_device self |}).

Definition icloud_has_stored_credentials (self : BaseConfig) : M World bool :=
  stored_username <-
    in_keyring (keyring.get_password ICLOUD_KEYRING_SERVICE_NAME "username") ;;
  if truthy stored_username then
    stored_password <-
      in_keyring (keyring.get_password ICLOUD_KEYRING_SERVICE_NAME
                    (or_empty stored_username)) ;;
    ret (match stored_password with Some _ => true | None => false end)
  else ret false.

Definition pushover_store_credentials (self : BaseConfig) (user_key api_token : string)
    : M World bool :=
  try_except
    (in_keyring (keyring.set_password PUSHOVER_KEYRING_SERVICE_NAME "user_key" user_key) ;;
     in_keyring (keyring.set_password PUSHOVER_KEYRING_SERVICE_NAME user_key api_token) ;;
     ret true)
    any_Exception (fun _ => ret false).

Definition pushover_delete_credentials (self : BaseConfig) : M World bool :=
  try_except
    (stored_user_key <-
       in_keyring (keyring.get_password PUSHOVER_KEYRING_SERVICE_NAME "user_key") ;;
     (if truthy stored_user_key then
        in_keyring (keyring.delete_password PUSHOVER_KEYRING_SERVICE_NAME
                      (or_empty stored_user_key)) ;;
        in_keyring (keyring.delete_password PUSHOVER_KEYRING_SERVICE_NAME "user_key")
      else ret tt) ;;
     ret true)
    any_Exception (fun _ => ret false).

Definition pushover_has_stored_credentials (self : BaseConfig) : M World bool :=
  stored_user_key <-
    in_keyring (keyring.get_password PUSHOVER_KEYRING_SERVICE_NAME "user_key") ;;
  if truthy stored_user_key then
    stored_api_token <-
      in_keyring (keyring.get_password PUSHOVER_KEYRING_SERVICE_NAME
                    (or_empty stored_user_key)) ;;
    ret (match stored_api_token with Some _ => true | None => false end)
  else ret false.

(** ['***' if v else None], as an f-string shows it. *)
Definition masked (v : string) : string :=
  if String.eqb v "" then "None" else "***".

(** [str(b)] for a boolean. *)
Definition str_bool (b : bool) : string := if b then "True" else "False".

Definition __str__ (self : BaseConfig) : M World string :=
  pushover_user_key_display <-
    try_except (v <- pushover_user_key self ;; ret (masked v))
               is_ValueError (fun _ => ret "None") ;;
  pushover_api_token_display <-
    try_except (v <- pushover_api_token self ;; ret (masked v))
               is_ValueError (fun _ => ret "None") ;;
  let credential_store := "keyring" in
  username <- icloud_username self ;;
  password <- icloud_password self ;;
  ret ("Config("
       +:+ "icloud_username=" +:+ masked username +:+ ", "
       +:+ "icloud_password=" +:+ masked password +:+ ", "
       +:+ "pushover is " +:+ (if enable_pushover self then "enabled" else "disabled") +:+ ", "
       +:+ "pushover_device=" +:+ pushover_device self +:+ ", "
       +:+ "pushover_user_key=" +:+ pushover_user_key_display +:+ ", "
       +:+ "pushover_api_token=" +:+ pushover_api_token_display +:+ ", "
       +:+ "sync_dir=" +:+ os.str (sync_directory self) +:+ ", "
       +:+ "dry_run=" +:+ str_bool (dry_run self) +:+ ", "
       +:+ "log_level=" +:+ log_level self +:+ ", "
       +:+ "credential_store=" +:+ credential_store
       +:+ ")").

(** [validate_albums_exist].  The method [verify_albums_exist] of the client
    is defined in a module that is not part of the sources at hand; it is
    taken as given: a call on a list of names may raise, or returns the
    existing albums, a second component that is not used, and the names that
    are missing. *)
Definition validate_albums_exist {S X} (self : BaseConfig)
    (verify_albums_exist : list string -> M S (list string * X * list string))
    : M S unit :=
  let missing_albums : list string := [] in
  missing_albums <-
    (match personal_album_names_to_include self with
     | [] => ret missing_albums
     | _ =>
         r <- verify_albums_exist (personal_album_names_to_include self) ;;
         let '(available_albums, _, missing_personal) := r in
         ret (match missing_personal with
              | [] => missing_albums
              | _ =>
                  (missing_albums
                   ++ List.map (fun name => "Personal: " +:+ name) missing_personal)
                  ++ ["(Note: existing personal albums: "
                      +:+ Str.join ", " available_albums +:+ ")"]
              end)
     end) ;;
  missing_albums <-
    (match shared_album_names_to_include self with
     | [] => ret missing_albums
     | _ =>
         r <- verify_albums_exist (shared_album_names_to_include self) ;;
         let '(available_albums, _, missing_shared) := r in
         ret (match missing_shared with
              | [] => missing_albums
              | _ =>
                  (missing_albums
                   ++ List.map (fun name => "Shared: " +:+ name) missing_shared)
                  ++ ["(Note: existing shared albums: "
                      +:+ Str.join ", " available_albums +:+ ")"]
              end)
     end) ;;
  match missing_albums with
  | [] => ret tt
  | _ => raise (ValueError ("The following specified albums do not exist: "
                            +:+ Str.join ", " missing_albums))
  end.

(** *** Module level: the settings file *)

(** The loop of [get_settings_env_file_path] over the candidate files: a
    candidate that is a directory raises, the first one that exists is
    taken. *)
Fixpoint first_settings_file (fs : os.FS) (options : list os.Path) : exn + option os.Path :=
  match options with
  | [] => inr None
  | loop_file_p :: rest =>
      if os.is_dir fs loop_file_p
      then inl (OtherException ("Expected file but found directory: "
                                +:+ os.str loop_file_p))
      else if os.exists_ fs loop_file_p then inr (Some loop_file_p)
      else first_settings_file fs rest
  end.

(** [get_settings_env_file_path].  [EnvironmentError] is raised with a bare
    message; it is the [OtherException] of the embedding.  On Windows the
    base directory comes from [%LOCALAPPDATA%] or the Windows form of
    [expanduser], which is not modelled: what that branch computes is the
    argument [windows_base]. *)
Definition get_settings_env_file_path (windows_base : os.Path) : M World os.Path :=
  pl <- gets platform ;;
  let settings_ini_file_p_options := [os.Path_of ".env"] in
  user_settings_base <-
    (if String.eqb (os.name pl) "nt" then ret windows_base
     else if String.eqb (os.name pl) "posix" then
       if truthy (os.environ pl !! "XDG_CONFIG_HOME")
       then ret (os.Path_of (or_empty (os.environ pl !! "XDG_CONFIG_HOME")))
       else
         match os.Path_home pl with
         | inr home => ret (os.truediv home (os.Path_of ".config"))
         | inl e => raise e
         end
     else raise (OtherException ("Unsupported OS: " +:+ os.name pl))) ;;
  let foto_pool_settings_dir := os.truediv user_settings_base (os.Path_of "foto_pool") in
  let settings_ini_file_p := os.truediv foto_pool_settings_dir (os.Path_of "settings.ini") in
  let settings_ini_file_p_options := settings_ini_file_p_options ++ [settings_ini_file_p] in
  found <- gets (fun w => first_settings_file (fs w) settings_ini_file_p_options) ;;
  match found with
  | inl e => raise e
  | inr (Some settings_ini_file_p) => ret settings_ini_file_p
  | inr None =>
      raise (OtherException
               ("Warning: No configuration file found. Options are: "
                +:+ Str.join ", " (List.map os.str settings_ini_file_p_options)))
  end.

(** The directory that [database_path] computes before it creates it: the
    part of the property up to [database_dir.mkdir], as a function of the
    platform. *)
Definition database_dir (self : BaseConfig) (pl : os.Platform) : os.Path :=
  let expanded_path := os.expandvars pl (database_parent_directory self) in
  let expanded_path :=
    if Str.contains "%LOCALAPPDATA%" expanded_path && negb (String.eqb (os.name pl) "nt")
    then
      let home := os.expanduser_tilde pl in
      Str.replace "%LOCALAPPDATA%" (home +:+ "/.local/share") expanded_path
    else expanded_path in
  let database_dir := os.Path_of expanded_path in
  if negb (os.is_absolute database_dir)
  then os.truediv (sync_directory self) database_dir
  else database_dir.

End Config.

(** ** icloud_client.py *)

Module ICloudClient.

(** Values held by a [photo_info] dictionary ([Dict[str, Any]]). *)
Inductive value :=
| VNone
| VInt (z : Z)
| VFloat (q : Q)
| VStr (s : string)
| VPhoto (p : pyicloud.PhotoAsset).

Inductive level := DEBUG | INFO | WARNING | ERROR.

(** What a call makes observable outside the process: the records handed to
    [logger] (the message as its template and the interpolated values; the
    pictograph that starts a message in the source is left out), the requests
    made to the remote, and the files opened. *)
Inductive Event :=
| Log (lvl : level) (template : string) (args : list value)
| Remote (call : string) (args : list string)
| Open (path : string).

Definition is_io (e : Event) : bool :=
  match e with
  | Log _ _ _ => false
  | Remote _ _ | Open _ => true
  end.

(** The [Config] object handed to the client.  Its class is defined in a
    module that is not part of the sources at hand, so the four attributes
    the client reads are taken as given: the two credentials are attribute
    reads that may run code and raise (in [config.py] they are properties
    over the keyring), the two settings are plain attributes. *)
Record Config := {
  icloud_username : M World (option string);
  icloud_password : M World (option string);
  max_file_size_mb : Z;
  dry_run : bool
}.

(** A [BaseConfig] of [config.py] seen as the client's configuration. *)
Definition of_BaseConfig (c : Config.BaseConfig) : Config :=
  {| icloud_username := (v <- Config.icloud_username c ;; ret (Some v));
     icloud_password := (v <- Config.icloud_password c ;; ret (Some v));
     max_file_size_mb := Config.max_file_size_mb c;
     dry_run := Config.dry_run c |}.

Record iCloudClient := { config : Config }.

(** The state a method runs in: the attribute [self._api] (it is assigned
    inside [try], so it must survive an exception), the world, and the
    events so far, oldest first. *)
Record State := {
  _api : option pyicloud.PyiCloudService;
  world : World;
  trace : list Event
}.

Definition in_world {A} (c : M World A) : M State A :=
  zoom world (fun w s => {| _api := _api s; world := w; trace := trace s |}) c.

Definition emit (e : Event) : M State unit :=
  modify (fun s => {| _api := _api s; world := world s; trace := trace s ++ [e] |}).

Definition logger (lvl : level) (template : string) (args : list value) : M State unit :=
  emit (Log lvl template args).

(** A request to the remote: it is recorded, then it returns or raises. *)
Definition remote {A} (call : string) (args : list string) (answer : exn + A) : M State A :=
  emit (Remote call args) ;;
  match answer with
  | inr a => ret a
  | inl e => raise e
  end.

Definition set_api (api : pyicloud.PyiCloudService) : M State unit :=
  modify (fun s => {| _api := Some api; world := world s; trace := trace s |}).

Definition vstr (v : option string) : value :=
  match v with
  | Some s => VStr s
  | None => VNone
  end.

Definition authenticate (self : iCloudClient) : M State bool :=
  try_except
    (u <- in_world (icloud_username (config self)) ;;
     unconfigured <-
       (if negb (truthy u) then ret true
        else p <- in_world (icloud_password (config self)) ;; ret (negb (truthy p))) ;;
     if (unconfigured : bool) then
       logger ERROR "iCloud username or password not configured" [] ;;
       ret false
     else
       u <- in_world (icloud_username (config self)) ;;
       logger INFO "Authenticating with iCloud as {}" [vstr u] ;;
       u <- in_world (icloud_username (config self)) ;;
       p <- in_world (icloud_password (config self)) ;;
       ctor <- gets (fun s => login (world s)) ;;
       api <- remote "PyiCloudService" [or_empty u; or_empty p]
                     (ctor (or_empty u) (or_empty p)) ;;
       set_api api ;;
       ph <- remote "photos" [] (pyicloud.photos api) ;;
       match ph with
       | Some _ =>
           logger INFO "Successfully authenticated with iCloud" [] ;;
           ret true
       | None =>
           logger ERROR "Failed to access iCloud Photos" [] ;;
           ret false
       end)
    any_Exception
    (fun e =>
       match e with
       | PyiCloudFailedLoginException _ =>
           logger ERROR "iCloud login failed: {}" [VStr (str_exn e)] ;;
           ret false
       | PyiCloudAPIResponseException _ =>
           logger ERROR "iCloud API error: {}" [VStr (str_exn e)] ;;
           ret false
       | _ =>
           logger ERROR "Unexpected error during authentication: {}" [VStr (str_exn e)] ;;
           ret false
       end).

Definition requires_2fa (self : iCloudClient) : M State bool :=
  api <- gets _api ;;
  match api with
  | None => ret false
  | Some a => ret (pyicloud.requires_2fa a)
  end.

Definition handle_2fa (self : iCloudClient) (code : string) : M State bool :=
  api <- gets _api ;;
  match api with
  | None => ret false
  | Some a =>
      try_except
        (result <- remote "validate_2fa_code" [code] (pyicloud.validate_2fa_code a code) ;;
         (if (result : bool)
          then logger INFO "2FA verification successful" []
          else logger ERROR "2FA verification failed" []) ;;
         ret result)
        any_Exception
        (fun e =>
           logger ERROR "Error during 2FA verification: {}" [VStr (str_exn e)] ;;
           ret false)
  end.

(** The dictionary that [list_photos] yields for one photo. *)
Definition photo_info (photo : pyicloud.PhotoAsset) : gmap string value :=
  <["id" := VStr (pyicloud.id photo)]>
  (<["filename" := VStr (pyicloud.filename photo)]>
  (<["size" := VInt (pyicloud.size photo)]>
  (<["created" := VNone]>
  (<["modified" := VNone]>
  (<["photo_obj" := VPhoto photo]> ∅))))).

(** [d[key]]. *)
Definition getitem (d : gmap string value) (key : string) : M State value :=
  match d !! key with
  | Some v => ret v
  | None => raise (KeyError key)
  end.

(** [d.get(key, dflt)]. *)
Definition get (d : gmap string value) (key : string) (dflt : value) : value :=
  match d !! key with
  | Some v => v
  | None => dflt
  end.

(** The integer [z] rounded to 53 significant bits, ties to even: the
    nearest integer that a binary64 float can hold. *)
Definition round_53 (z : Z) : Z :=
  let a := Z.abs z in
  let shift := (Z.log2 a - 52)%Z in
  if (shift <=? 0)%Z then z
  else
    let q := Z.shiftr a shift in
    let r := Z.land a (Z.ones shift) in
    let half := Z.shiftl 1 (shift - 1) in
    let q' := if (half <? r)%Z || ((r =? half)%Z && Z.odd q) then (q + 1)%Z else q in
    (Z.sgn z * Z.shiftl q' shift)%Z.

(** [v / (1024 * 1024)].  The true division of two [int]s gives the float
    nearest to the quotient, and raises [OverflowError] (kept here as an
    [OtherException] with its message) when that is beyond the range of a
    float.  The divisor being 2^20, the float is the integer rounded to 53
    bits over 2^20, a rational that the float holds exactly; it is out of
    range from 2^1024, so the rounded integer from 2^1044.  A [float] in the
    dictionary is divided as a rational, which is exact but for an
    underflow. *)
Definition div_MiB (v : value) : M State Q :=
  match v with
  | VInt z =>
      if (2 ^ 1044 <=? Z.abs (round_53 z))%Z
      then raise (OtherException "integer division result too large for a float")
      else ret (inject_Z (round_53 z) / inject_Z (1024 * 1024))%Q
  | VFloat q => ret (q / inject_Z (1024 * 1024))%Q
  | _ => raise (TypeError "unsupported operand type(s) for /")
  end.

(** [photo.download()] followed by [open(local_path, 'wb')] and
    [f.write(download.raw.read())]. *)
Definition fetch_and_write (photo : value) (local_path : string) : M State unit :=
  match photo with
  | VPhoto ph =>
      download <- remote "download" [pyicloud.id ph] (pyicloud.download ph) ;;
      emit (Open local_path) ;;
      in_world (in_fs (os.open_wb local_path)) ;;
      data <- remote "read" [pyicloud.id ph] (pyicloud.raw_read download) ;;
      in_world (in_fs (os.write local_path data))
  | _ => raise (OtherException "object has no attribute 'download'")
  end.

Definition download_photo (self : iCloudClient) (photo_info : gmap string value)
    (local_path : string) : M State bool :=
  try_except
    (photo <- getitem photo_info "photo_obj" ;;
     filename <- getitem photo_info "filename" ;;
     logger DEBUG "Downloading {} to {}" [filename; VStr local_path] ;;
     let proceed : M State bool :=
       if dry_run (config self) then
         logger INFO "DRY RUN: Would download {} to {}" [filename; VStr local_path] ;;
         ret true
       else
         fetch_and_write photo local_path ;;
         logger DEBUG "Downloaded {}" [filename] ;;
         ret true in
     if (0 <? max_file_size_mb (config self))%Z then
       size_mb <- div_MiB (get photo_info "size" (VInt 0)) ;;
       if negb (Qle_bool size_mb (inject_Z (max_file_size_mb (config self)))) then
         logger INFO "Skipping {} (size: {:.1f}MB > limit: {}MB)"
                [filename; VFloat size_mb; VInt (max_file_size_mb (config self))] ;;
         ret false
       else proceed
     else proceed)
    any_Exception
    (fun e =>
       logger ERROR "Error downloading photo {}: {}"
              [get photo_info "filename" (VStr "unknown"); VStr (str_exn e)] ;;
       ret false).

(** The property [is_authenticated]; [api.photos] is read again on each
    call. *)
Definition is_authenticated (self : iCloudClient) : M State bool :=
  api <- gets _api ;;
  match api with
  | None => ret false
  | Some a =>
      ph <- remote "photos" [] (pyicloud.photos a) ;;
      ret (match ph with Some _ => true | None => false end)
  end.

(** *** [list_photos]

    The generator is modelled by the list of what it yields when it is read
    to its end.  Reading the attributes of a photo ([photo.id],
    [photo.filename]) may raise in the remote library; the record of a photo
    cannot say so, so this is taken as given: [unreadable photo] is the
    exception that reading [photo] raises, if any.  Fetching the contents of
    the library ([photos.all] and its length) is one recorded request. *)

Fixpoint list_photos_loop (unreadable : pyicloud.PhotoAsset -> option exn)
    (total_count : Z) (i : Z) (photos : list pyicloud.PhotoAsset)
    : M State (list (gmap string value)) :=
  match photos with
  | [] => ret []
  | photo :: rest =>
      (if (i mod 100 =? 0)%Z
       then logger INFO "Processing photo {}/{}" [VInt i; VInt total_count]
       else ret tt) ;;
      yielded <-
        try_except
          (match unreadable photo with
           | Some e => raise e
           | None => ret [photo_info photo]
           end)
          any_Exception
          (fun e =>
             logger WARNING "Error processing photo {}: {}" [VInt i; VStr (str_exn e)] ;;
             ret []) ;;
      more <- list_photos_loop unreadable total_count (i + 1) rest ;;
      ret (yielded ++ more)
  end.

Definition list_photos (self : iCloudClient)
    (unreadable : pyicloud.PhotoAsset -> option exn)
    : M State (list (gmap string value)) :=
  api <- gets _api ;;
  match api with
  | None =>
      logger ERROR "Not authenticated or photos service unavailable" [] ;;
      ret []
  | Some a =>
      ph <- remote "photos" [] (pyicloud.photos a) ;;
      match ph with
      | None =>
          logger ERROR "Not authenticated or photos service unavailable" [] ;;
          ret []
      | Some _ =>
          try_except
            (logger INFO "Fetching photo list from iCloud..." [] ;;
             ph <- remote "photos" [] (pyicloud.photos a) ;;
             match ph with
             | None => raise (OtherException "'NoneType' object has no attribute 'all'")
             | Some library =>
                 photos <- remote "all" [] (inr (pyicloud.all library)) ;;
                 let total_count := Z.of_nat (length photos) in
                 logger INFO "Found {} photos in iCloud" [VInt total_count] ;;
                 list_photos_loop unreadable total_count 1 photos
             end)
            any_Exception
            (fun e =>
               logger ERROR "Error fetching photos from iCloud: {}" [VStr (str_exn e)] ;;
               ret [])
      end
  end.

End ICloudClient.

(** ** Sample worlds and configurations *)

Module Samples.

Definition kr_empty : keyring.Keyring :=
  {| keyring.entries := ∅; keyring.available := true |}.

Definition posix : os.Platform :=
  {| os.name := "posix";
     os.environ := {[ "HOME" := "/home/u" ]};
     os.pw_dir := None |}.

(** [/home/u/photos] exists and is writable; the process runs in [/home/u]. *)
Definition fs0 : os.FS :=
  {| os.nodes :=
       <[ ["home"; "u"; "photos"] := os.Dir true ]>
       (<[ ["home"; "u"] := os.Dir true ]>
       (<[ ["home"] := os.Dir true ]>
       {[ [] := os.Dir true ]}));
     os.cwd := ["home"; "u"] |}.

Definition bad_login (u p : string) : exn + pyicloud.PyiCloudService :=
  inl (PyiCloudFailedLoginException "Invalid email/password combination.").

Definition w0 : World :=
  {| kr := kr_empty; fs := fs0; platform := posix; login := bad_login |}.

(** The defaults of [__init__] but for the sync directory [/home/u/photos]
    and the settings given. *)
Definition cfg_with (notifications : bool) (level mode parent : string)
    : Config.BaseConfig :=
  {| Config.sync_directory := os.Path_of "/home/u/photos";
     Config.dry_run := false;
     Config.log_level := level;
     Config.max_downloads := 0;
     Config.max_file_size_mb := 0;
     Config.pushover_device := "";
     Config.enable_pushover := notifications;
     Config.include_personal_albums := true;
     Config.include_shared_albums := true;
     Config.personal_album_names_to_include := [];
     Config.shared_album_names_to_include := [];
     Config.execution_mode := mode;
     Config.sync_interval_minutes := 2;
     Config.maintenance_interval_hours := 1;
     Config.database_parent_directory := parent |}.

Definition cfg (notifications : bool) : Config.BaseConfig :=
  cfg_with notifications "INFO" "single" ".data".

(** Only the identity ['alice'] is stored, not the secret paired with it. *)
Definition w_identity_only : World :=
  {| kr := {| keyring.entries :=
                {[ (Config.ICLOUD_KEYRING_SERVICE_NAME, "username") := "alice" ]};
              keyring.available := true |};
     fs := fs0; platform := posix; login := bad_login |}.

(** A session whose photo library is reachable and which accepts the code
    [123456]. *)
Definition api_ok : pyicloud.PyiCloudService :=
  {| pyicloud.photos := inr (Some {| pyicloud.all := [] |});
     pyicloud.requires_2fa := true;
     pyicloud.validate_2fa_code := fun code => inr (String.eqb code "123456") |}.

Definition good_login (u p : string) : exn + pyicloud.PyiCloudService :=
  if String.eqb u "alice" && String.eqb p "s3cret" then inr api_ok
  else inl (PyiCloudFailedLoginException "Invalid email/password combination.").

Definition w_remote : World :=
  {| kr := kr_empty; fs := fs0; platform := posix; login := good_login |}.

Definition client_cfg (user : option string) (limit : Z) (dry : bool) : ICloudClient.Config :=
  {| ICloudClient.icloud_username := ret user;
     ICloudClient.icloud_password := ret (Some "s3cret");
     ICloudClient.max_file_size_mb := limit;
     ICloudClient.dry_run := dry |}.

Definition client (limit : Z) (dry : bool) : ICloudClient.iCloudClient :=
  {| ICloudClient.config := client_cfg (Some "alice") limit dry |}.

(** No session yet. *)
Definition s0 : ICloudClient.State :=
  {| ICloudClient._api := None; ICloudClient.world := w_remote; ICloudClient.trace := [] |}.

(** No session, and a remote that rejects every login. *)
Definition s_rejected : ICloudClient.State :=
  {| ICloudClient._api := None; ICloudClient.world := w0; ICloudClient.trace := [] |}.

Definition s_session : ICloudClient.State :=
  {| ICloudClient._api := Some api_ok; ICloudClient.world := w_remote;
     ICloudClient.trace := [] |}.

(** A photo of 15 MiB whose download succeeds, and one whose download fails. *)
Definition photo_15MB : pyicloud.PhotoAsset :=
  {| pyicloud.id := "A1"; pyicloud.filename := "IMG_0001.JPG";
     pyicloud.size := 15 * 1024 * 1024;
     pyicloud.download := inr {| pyicloud.raw_read := inr [Byte.x01; Byte.x02] |} |}.

Definition photo_broken : pyicloud.PhotoAsset :=
  {| pyicloud.id := "A2"; pyicloud.filename := "IMG_0002.JPG";
     pyicloud.size := 1024;
     pyicloud.download := inl (PyiCloudAPIResponseException "Gone (410)") |}.

Definition dest : string := "/home/u/photos/IMG_0001.JPG".

(** The default configuration with the two intervals given. *)
Definition cfg_intervals (sync_minutes maintenance_hours : Q) : Config.BaseConfig :=
  {| Config.sync_directory := os.Path_of "/home/u/photos";
     Config.dry_run := false;
     Config.log_level := "INFO";
     Config.max_downloads := 0;
     Config.max_file_size_mb := 0;
     Config.pushover_device := "";
     Config.enable_pushover := false;
     Config.include_personal_albums := true;
     Config.include_shared_albums := true;
     Config.personal_album_names_to_include := [];
     Config.shared_album_names_to_include := [];
     Config.execution_mode := "single";
     Config.sync_interval_minutes := sync_minutes;
     Config.maintenance_interval_hours := maintenance_hours;
     Config.database_parent_directory := ".data" |}.

(** The default configuration with the two album filters given. *)
Definition cfg_albums (personal shared : list string) : Config.BaseConfig :=
  {| Config.sync_directory := os.Path_of "/home/u/photos";
     Config.dry_run := false;
     Config.log_level := "INFO";
     Config.max_downloads := 0;
     Config.max_file_size_mb := 0;
     Config.pushover_device := "";
     Config.enable_pushover := false;
     Config.include_personal_albums := true;
     Config.include_shared_albums := true;
     Config.personal_album_names_to_include := personal;
     Config.shared_album_names_to_include := shared;
     Config.execution_mode := "single";
     Config.sync_interval_minutes := 2;
     Config.maintenance_interval_hours := 1;
     Config.database_parent_directory := ".data" |}.

(** A client whose only album is [Trip]; a call is counted in the state. *)
Definition verify_trip (names : list string) : M nat (list string * unit * list string) :=
  fun calls =>
    (inr (["Trip"], tt, List.filter (fun n => negb (String.eqb n "Trip")) names),
     Datatypes.S calls).

(** The world [w0] with a file [.env] in the working directory. *)
Definition w_dotenv : World :=
  {| kr := kr_empty;
     fs := os.with_nodes (insert ["home"; "u"; ".env"] (os.File [])) fs0;
     platform := posix; login := bad_login |}.

(** The world [w0] on the platform [pl]. *)
Definition w_on (pl : os.Platform) : World :=
  {| kr := kr_empty;
     fs := os.with_nodes (insert ["home"; "u"; ".env"] (os.File [])) fs0;
     platform := pl; login := bad_login |}.

(** A session whose library holds the two sample photos; the attributes of
    the second cannot be read. *)
Definition api_library : pyicloud.PyiCloudService :=
  {| pyicloud.photos := inr (Some {| pyicloud.all := [photo_15MB; photo_broken] |});
     pyicloud.requires_2fa := false;
     pyicloud.validate_2fa_code := fun code => inr false |}.

Definition s_library : ICloudClient.State :=
  {| ICloudClient._api := Some api_library; ICloudClient.world := w_remote;
     ICloudClient.trace := [] |}.

Definition unreadable_A2 (photo : pyicloud.PhotoAsset) : option exn :=
  if String.eqb (pyicloud.id photo) "A2" then Some (KeyError "filename") else None.

(** A session whose photo library raises when it is read. *)
Definition api_expired : pyicloud.PyiCloudService :=
  {| pyicloud.photos := inl (PyiCloudAPIResponseException "Authentication required");
     pyicloud.requires_2fa := false;
     pyicloud.validate_2fa_code := fun code => inr false |}.

(** A session from an earlier login, and a remote that now rejects every
    login. *)
Definition s_stale : ICloudClient.State :=
  {| ICloudClient._api := Some api_ok; ICloudClient.world := w0; ICloudClient.trace := [] |}.

(** A remote that accepts the login but whose photo library cannot be read. *)
Definition s_expired : ICloudClient.State :=
  {| ICloudClient._api := None;
     ICloudClient.world :=
       {| kr := kr_empty; fs := fs0; platform := posix;
          login := fun u p => inr api_expired |};
     ICloudClient.trace := [] |}.

(** A photo whose download starts but whose body cannot be read, and a state
    in which the destination already holds an earlier copy. *)
Definition photo_stalled : pyicloud.PhotoAsset :=
  {| pyicloud.id := "A3"; pyicloud.filename := "IMG_0001.JPG";
     pyicloud.size := 1024;
     pyicloud.download :=
       inr {| pyicloud.raw_read := inl (OtherException "Connection reset by peer") |} |}.

Definition s_earlier_copy : ICloudClient.State :=
  {| ICloudClient._api := Some api_ok;
     ICloudClient.world :=
       {| kr := kr_empty;
          fs := os.with_nodes
                  (insert ["home"; "u"; "photos"; "IMG_0001.JPG"] (os.File [Byte.x07])) fs0;
          platform := posix; login := good_login |};
     ICloudClient.trace := [] |}.

End Samples.

(** ** The behaviour in the words of the specification

    Definitions that state what the specification describes (which checks
    [validate] makes, where the database directory lies, what a call may
    touch); the properties below compare the code with them. *)

Module Spec.

(** *** Reading the credential store *)

(** What [keyring.get_password(service, key)] yields in [w] once a failure
    of the backend is turned into [None], as the [_..._from_store] helpers
    do. *)
Definition stored (w : World) (service key : string) : option string :=
  if keyring.available (kr w) then keyring.entries (kr w) !! (service, key) else None.

(** A property read returns the stored value, or raises [ValueError] when
    the value is falsy and the flag [required] is set. *)
Definition read_property (required : bool) (attr : string) (v : option string)
    : exn + string :=
  if negb (truthy v) && required
  then inl (ValueError (attr +:+ " is required (store in keyring)"))
  else inr (or_empty v).

(** The second stage of a lookup: the secret is looked up under the identity
    that the first stage returned; a first stage that raised gives [None]. *)
Definition second_stage (w : World) (service : string) (identity : exn + string)
    : option string :=
  match identity with
  | inr u => stored w service u
  | inl _ => None
  end.

(** *** The checks of [validate], one by one *)

(** One check: whether it fails on the configuration, and the message it
    then reports. *)
Record check := { failing : bool; message : string }.

(** A credential check fails when the property raises or reads as empty. *)
Definition credential_missing (r : exn + string) : bool :=
  match r with
  | inr s => String.eqb s ""
  | inl _ => true
  end.

(** The database check: resolve the database path, make sure its directory
    exists, and test that it is writable.  The result is the message of the
    check, if it fails, and the world the check leaves behind (it may have
    created directories). *)
Definition database_check (c : Config.BaseConfig) (w : World) : option string * World :=
  match Config.database_path c w with
  | (inl e, w1) => (Some ("Invalid database path configuration: " +:+ str_exn e), w1)
  | (inr p, w1) =>
      match in_fs (os.Path_mkdir_parents (os.parent p)) w1 with
      | (inl e, w2) => (Some ("Invalid database path configuration: " +:+ str_exn e), w2)
      | (inr _, w2) =>
          if os.access_W_OK (fs w2) (os.parent p) then (None, w2)
          else (Some ("Database directory is not writable: " +:+ os.str (os.parent p)), w2)
      end
  end.

(** All the checks, in the order of the source. *)
Definition checks (c : Config.BaseConfig) (w : World) : list check :=
  [ {| failing := credential_missing (fst (Config.icloud_username c w));
       message := "icloud_username is required (store in keyring)" |};
    {| failing := credential_missing (fst (Config.icloud_password c w));
       message := "icloud_password is required (store in keyring)" |};
    {| failing := Config.not_in (Config.log_level c) ["DEBUG"; "INFO"; "WARNING"; "ERROR"];
       message := "Invalid LOG_LEVEL: " +:+ Config.log_level c |};
    {| failing := Config.enable_pushover c
                  && credential_missing (fst (Config.pushover_api_token c w));
       message := "PUSHOVER_API_TOKEN is required when ENABLE_PUSHOVER=true" |};
    {| failing := Config.enable_pushover c
                  && credential_missing (fst (Config.pushover_user_key c w));
       message := "PUSHOVER_USER_KEY is required when ENABLE_PUSHOVER=true" |};
    {| failing := negb (Config.include_personal_albums c)
                  && negb (Config.include_shared_albums c);
       message := "At least one of INCLUDE_PERSONAL_ALBUMS or INCLUDE_SHARED_ALBUMS must be true" |};
    {| failing := Config.not_in (Config.execution_mode c) ["single"; "continuous"];
       message := "Invalid EXECUTION_MODE: " +:+ Config.execution_mode c
                  +:+ ". Must be 'single' or 'continuous'" |};
    {| failing := Qle_bool (Config.sync_interval_minutes c) 0;
       message := "SYNC_INTERVAL_MINUTES must be bigger than 0 minutes" |};
    {| failing := Qle_bool (Config.maintenance_interval_hours c) 0;
       message := "MAINTENANCE_INTERVAL_HOURS must be bigger than 0 hours" |};
    {| failing := Qle_bool (Config.maintenance_interval_hours c * 60)
                           (Config.sync_interval_minutes c);
       message := "MAINTENANCE_INTERVAL_HOURS * 60 must be bigger than SYNC_INTERVAL_MINUTES" |};
    {| failing := match fst (database_check c w) with Some _ => true | None => false end;
       message := match fst (database_check c w) with Some m => m | None => "" end |} ].

(** The messages of the failing checks. *)
Definition failing_messages (c : Config.BaseConfig) (w : World) : list string :=
  List.map message (List.filter failing (checks c w)).

(** [m] occurs in [s]. *)
Definition occurs_in (m s : string) : Prop :=
  exists pre post : string, s = pre +:+ m +:+ post.

(** *** The database directory *)

(** The directory that holds the database: the environment variables of
    [database_parent_directory] are expanded; on a platform other than
    Windows the Windows token [%LOCALAPPDATA%] stands for [.local/share]
    under the user's home; and a relative result is taken relative to the
    sync directory. *)
Definition database_dir (c : Config.BaseConfig) (pl : os.Platform) : os.Path :=
  let expanded := os.expandvars pl (Config.database_parent_directory c) in
  let mapped :=
    if String.eqb (os.name pl) "nt" then expanded
    else Str.replace "%LOCALAPPDATA%" (os.expanduser_tilde pl +:+ "/.local/share")
                     expanded in
  let d := os.Path_of mapped in
  if os.is_absolute d then d else os.truediv (Config.sync_directory c) d.

Definition with_fs (f : os.FS) (w : World) : World :=
  {| kr := kr w; fs := f; platform := platform w; login := login w |}.

(** *** The client's effects *)

(** From [s] to [s'] nothing happened but logging: the session and the world
    (file system included) are the same, and the events added are log
    records, so no request went to the remote and no file was opened. *)
Definition only_logged (s s' : ICloudClient.State) : Prop :=
  ICloudClient._api s' = ICloudClient._api s
  /\ ICloudClient.world s' = ICloudClient.world s
  /\ exists logs : list ICloudClient.Event,
       ICloudClient.trace s' = ICloudClient.trace s ++ logs
       /\ forallb (fun e => negb (ICloudClient.is_io e)) logs = true.

(** The record that [download_photo] logs in a dry run. *)
Definition is_dry_run_record (e : ICloudClient.Event) : bool :=
  match e with
  | ICloudClient.Log ICloudClient.INFO template _ =>
      String.eqb template "DRY RUN: Would download {} to {}"
  | _ => false
  end.

(** The message that [authenticate] logs for an exception. *)
Definition authenticate_error_template (e : exn) : string :=
  match e with
  | PyiCloudFailedLoginException _ => "iCloud login failed: {}"
  | PyiCloudAPIResponseException _ => "iCloud API error: {}"
  | _ => "Unexpected error during authentication: {}"
  end.

(** The size check lets the photo through: no limit is configured, or the
    size (0 when the dictionary has none) is a number of bytes below 2^53,
    which a float holds exactly, and is within the limit, 1 MB being
    1024 * 1024 bytes. *)
Definition within_limit (limit : Z) (info : gmap string ICloudClient.value) : Prop :=
  (limit <= 0)%Z
  \/ exists z : Z,
       ICloudClient.get info "size" (ICloudClient.VInt 0) = ICloudClient.VInt z
       /\ (0 <= z < 2 ^ 53)%Z
       /\ (z <= limit * 1048576)%Z.

(** *** The keyring after an update *)

(** The world [w] with the entries of its keyring replaced; the backend is
    the reachable one that made the update. *)
Definition with_entries (e : gmap (string * string) string) (w : World) : World :=
  {| kr := {| keyring.entries := e; keyring.available := true |};
     fs := fs w; platform := platform w; login := login w |}.

(** A property read is safe: it leaves the world as it is and raises
    nothing but the [ValueError] of a missing credential, and that only
    with notifications enabled. *)
Definition safe_read (c : Config.BaseConfig) (w : World)
    (property : Config.BaseConfig -> M World string) : Prop :=
  exists r : exn + string,
    property c w = (r, w)
    /\ match r with
       | inl e => is_ValueError e = true /\ Config.enable_pushover c = true
       | inr _ => True
       end.

(** Whether a pair of credentials is stored under [service]: the identity
    under the key [fixed] is truthy and there is an entry under it. *)
Definition pair_stored (e : gmap (string * string) string) (service fixed : string) : bool :=
  match e !! (service, fixed) with
  | Some u => negb (String.eqb u "")
              && match e !! (service, u) with Some _ => true | None => false end
  | None => false
  end.

(** *** The text of [__str__] *)

(** ['***'] for a credential that is shown as present, [None] otherwise. *)
Definition mask (present : bool) : string := if present then "***" else "None".

(** The text [str(config)] for a configuration, given only which of the four
    credentials are shown as present. *)
Definition config_text (c : Config.BaseConfig)
    (username password user_key api_token : bool) : string :=
  "Config("
  +:+ "icloud_username=" +:+ mask username +:+ ", "
  +:+ "icloud_password=" +:+ mask password +:+ ", "
  +:+ "pushover is " +:+ (if Config.enable_pushover c then "enabled" else "disabled") +:+ ", "
  +:+ "pushover_device=" +:+ Config.pushover_device c +:+ ", "
  +:+ "pushover_user_key=" +:+ mask user_key +:+ ", "
  +:+ "pushover_api_token=" +:+ mask api_token +:+ ", "
  +:+ "sync_dir=" +:+ os.str (Config.sync_directory c) +:+ ", "
  +:+ "dry_run=" +:+ Config.str_bool (Config.dry_run c) +:+ ", "
  +:+ "log_level=" +:+ Config.log_level c +:+ ", "
  +:+ "credential_store=keyring"
  +:+ ")".

(** *** Missing albums *)

(** What [validate_albums_exist] adds to its list for one kind of album
    ([kind] is [Personal] or [Shared], [kind'] the same word in lower
    case): nothing when no name is missing, otherwise the missing names and
    a note that lists the existing albums. *)
Definition album_report (kind kind' : string) (available missing : list string)
    : list string :=
  match missing with
  | [] => []
  | _ =>
      List.map (fun name => kind +:+ ": " +:+ name) missing
      ++ ["(Note: existing " +:+ kind' +:+ " albums: " +:+ Str.join ", " available +:+ ")"]
  end.

(** The check of one list of configured names: an empty list is not checked
    (no call, nothing missing, the state stays), a non-empty list is handed
    to the client, which answers with the existing and the missing names. *)
Definition album_check {S X : Type}
    (verify_albums_exist : list string -> M S (list string * X * list string))
    (names : list string) (s : S) (available missing : list string) (s' : S) : Prop :=
  (names = [] /\ missing = [] /\ s' = s)
  \/ (names <> []
      /\ exists x : X, verify_albums_exist names s = (inr (available, x, missing), s')).

(** *** The settings file *)

(** On a POSIX platform, [base] is the directory of the user's settings:
    [$XDG_CONFIG_HOME] when that variable is set and not empty, otherwise
    [.config] under the home directory. *)
Definition posix_settings_base (pl : os.Platform) (base : os.Path) : Prop :=
  (exists x : string,
     os.environ pl !! "XDG_CONFIG_HOME" = Some x /\ x <> "" /\ base = os.Path_of x)
  \/ (truthy (os.environ pl !! "XDG_CONFIG_HOME") = false
      /\ exists home : os.Path,
           os.Path_home pl = inr home
           /\ base = os.truediv home (os.Path_of ".config")).

(** The settings file under [base]. *)
Definition settings_ini (base : os.Path) : os.Path :=
  os.truediv (os.truediv base (os.Path_of "foto_pool")) (os.Path_of "settings.ini").

(** *** Album names *)

(** A name as [parse_album_names] produces it: not empty, without white
    space at either end, and without a comma. *)
Definition clean_name (n : string) : Prop :=
  n <> "" /\ Str.strip n = n /\ Str.contains "," n = false.

(** *** Listing photos *)

(** The records that the loop of [list_photos] logs for the photos from
    position [i] on: a progress record at every position that is a multiple
    of 100, a warning for every photo that cannot be read. *)
Fixpoint listing_events (unreadable : pyicloud.PhotoAsset -> option exn)
    (total_count i : Z) (photos : list pyicloud.PhotoAsset) : list ICloudClient.Event :=
  match photos with
  | [] => []
  | photo :: rest =>
      (if (i mod 100 =? 0)%Z
       then [ICloudClient.Log ICloudClient.INFO "Processing photo {}/{}"
               [ICloudClient.VInt i; ICloudClient.VInt total_count]]
       else [])
      ++ match unreadable photo with
         | Some e => [ICloudClient.Log ICloudClient.WARNING "Error processing photo {}: {}"
                        [ICloudClient.VInt i; ICloudClient.VStr (str_exn e)]]
         | None => []
         end
      ++ listing_events unreadable total_count (i + 1) rest
  end.

Definition is_progress_record (e : ICloudClient.Event) : bool :=
  match e with
  | ICloudClient.Log ICloudClient.INFO template _ =>
      String.eqb template "Processing photo {}/{}"
  | _ => false
  end.

Definition is_warning_record (e : ICloudClient.Event) : bool :=
  match e with
  | ICloudClient.Log ICloudClient.WARNING _ _ => true
  | _ => false
  end.

Definition readable (unreadable : pyicloud.PhotoAsset -> option exn)
    (photo : pyicloud.PhotoAsset) : bool :=
  match unreadable photo with
  | Some _ => false
  | None => true
  end.

(** The size of the photo is above a positive limit of [limit] MB. *)
Definition oversized (limit : Z) (photo : pyicloud.PhotoAsset) : bool :=
  ((0 <? limit) && (limit * 1048576 <? pyicloud.size photo))%Z.

(** *** Directories on the way to a path *)



End Spec.

(** * Properties *)

#[local] Ltac unfold_monad :=
  unfold bind, ret, raise, try_except, gets, modify, zoom, any_Exception in *.

(** ** Credential properties *)

Section Credentials.

Import Config Spec.

Variable self : BaseConfig.

Lemma in_keyring_get_password (w : World) (service key : string) :
  try_except (in_keyring (keyring.get_password service key))
             any_Exception (fun _ => ret None) w
  = (inr (stored w service key), w).
Proof.
  destruct w as [[e a] f p l].
  unfold stored, in_keyring, keyring.get_password. unfold_monad. simpl.
  destruct a; reflexivity.
Qed.

Lemma username_from_store (w : World) :
  _icloud_get_username_from_store self w
  = (inr (stored w ICLOUD_KEYRING_SERVICE_NAME "username"), w).
Proof. apply in_keyring_get_password. Qed.

Lemma user_key_from_store (w : World) :
  _pushover_get_user_key_from_store self w
  = (inr (stored w PUSHOVER_KEYRING_SERVICE_NAME "user_key"), w).
Proof. apply in_keyring_get_password. Qed.

Lemma icloud_username_eq (w : World) :
  icloud_username self w
  = (read_property (enable_pushover self) "icloud_username"
       (stored w ICLOUD_KEYRING_SERVICE_NAME "username"), w).
Proof.
  unfold icloud_username, read_property, bind.
  rewrite username_from_store.
  destruct (negb _ && _); reflexivity.
Qed.

Lemma pushover_user_key_eq (w : World) :
  pushover_user_key self w
  = (read_property (enable_pushover self) "pushover_user_key"
       (stored w PUSHOVER_KEYRING_SERVICE_NAME "user_key"), w).
Proof.
  unfold pushover_user_key, read_property, bind.
  rewrite user_key_from_store.
  destruct (negb _ && _); reflexivity.
Qed.

Lemma keyed_get_password (w : World) (service : string) (first : M World string)
    (r : exn + string) :
  first w = (r, w) ->
  try_except (u <- first ;; in_keyring (keyring.get_password service u))
             any_Exception (fun _ => ret None) w
  = (inr (second_stage w service r), w).
Proof.
  intros Hfirst. unfold try_except, bind. rewrite Hfirst.
  destruct r as [e|u]; simpl; [reflexivity|].
  destruct w as [[e a] f p l].
  unfold stored, in_keyring, keyring.get_password. unfold_monad. simpl.
  destruct a; reflexivity.
Qed.

Lemma icloud_password_eq (w : World) :
  icloud_password self w
  = (read_property (enable_pushover self) "icloud_password"
       (second_stage w ICLOUD_KEYRING_SERVICE_NAME
          (read_property (enable_pushover self) "icloud_username"
             (stored w ICLOUD_KEYRING_SERVICE_NAME "username"))), w).
Proof.
  unfold icloud_password, _icloud_get_password_from_store, bind at 1.
  rewrite (keyed_get_password _ _ _ _ (icloud_username_eq w)).
  generalize (second_stage w ICLOUD_KEYRING_SERVICE_NAME
                (read_property (enable_pushover self) "icloud_username"
                   (stored w ICLOUD_KEYRING_SERVICE_NAME "username"))).
  intros v. unfold read_property.
  destruct (negb _ && _); reflexivity.
Qed.

Lemma pushover_api_token_eq (w : World) :
  pushover_api_token self w
  = (read_property (enable_pushover self) "pushover_api_token"
       (second_stage w PUSHOVER_KEYRING_SERVICE_NAME
          (read_property (enable_pushover self) "pushover_user_key"
             (stored w PUSHOVER_KEYRING_SERVICE_NAME "user_key"))), w).
Proof.
  unfold pushover_api_token, _pushover_get_api_token_from_store, bind at 1.
  rewrite (keyed_get_password _ _ _ _ (pushover_user_key_eq w)).
  generalize (second_stage w PUSHOVER_KEYRING_SERVICE_NAME
                (read_property (enable_pushover self) "pushover_user_key"
                   (stored w PUSHOVER_KEYRING_SERVICE_NAME "user_key"))).
  intros v. unfold read_property.
  destruct (negb _ && _); reflexivity.
Qed.

End Credentials.

(** C1 (the code departs from the claim).  When the service username is
    unset in the store, reading [icloud_username] raises [ValueError] only if
    notifications are enabled; with notifications disabled the read returns
    the empty string.  Likewise for [icloud_password] when the identity is
    stored but the secret paired with it is not.  So the service credentials
    are not required by the accessors regardless of the notification flag:
    the accessors of the service credentials carry the guard of the
    notification credentials. *)
Theorem service_credential_unset (c : Config.BaseConfig) (w : World) :
  (Spec.stored w Config.ICLOUD_KEYRING_SERVICE_NAME "username" = None ->
   Config.icloud_username c w
   = (if Config.enable_pushover c
      then inl (ValueError "icloud_username is required (store in keyring)")
      else inr "", w))
  /\
  (forall u : string,
     Spec.stored w Config.ICLOUD_KEYRING_SERVICE_NAME "username" = Some u ->
     u <> "" ->
     Spec.stored w Config.ICLOUD_KEYRING_SERVICE_NAME u = None ->
     Config.icloud_password c w
     = (if Config.enable_pushover c
        then inl (ValueError "icloud_password is required (store in keyring)")
        else inr "", w)).
Proof.
  split.
  - intros Hu. rewrite icloud_username_eq, Hu.
    unfold Spec.read_property. simpl. destruct (Config.enable_pushover c); reflexivity.
  - intros u Hu Hne Hp. rewrite icloud_password_eq, Hu.
    assert (Ht : truthy (Some u) = true).
    { simpl. destruct (String.eqb_spec u ""); [contradiction | reflexivity]. }
    unfold Spec.read_property at 2. rewrite Ht. simpl. rewrite Hp.
    unfold Spec.read_property. simpl. destruct (Config.enable_pushover c); reflexivity.
Qed.

Lemma service_credential_unset_witness :
  Config.icloud_username (Samples.cfg false) Samples.w0 = (inr "", Samples.w0)
  /\ Config.icloud_password (Samples.cfg false) Samples.w_identity_only
     = (inr "", Samples.w_identity_only).
Proof.
  split.
  - exact (proj1 (service_credential_unset (Samples.cfg false) Samples.w0) eq_refl).
  - refine (proj2 (service_credential_unset (Samples.cfg false) Samples.w_identity_only)
              "alice" _ _ _).
    + vm_compute. reflexivity.
    + discriminate.
    + vm_compute. reflexivity.
Defined.

(** ** Storing and revoking the service credentials *)

Section RoundTrip.

Import Config Spec.

Variable self : BaseConfig.

(** The world after [keyring.set_password(ICLOUD, "username", u)] and
    [keyring.set_password(ICLOUD, u, p)]. *)
Lemma icloud_store_credentials_ok (w : World) (u p : string) :
  keyring.available (kr w) = true ->
  icloud_store_credentials self u p w
  = (inr true,
     {| kr := {| keyring.entries :=
                   <[(ICLOUD_KEYRING_SERVICE_NAME, u) := p]>
                     (<[(ICLOUD_KEYRING_SERVICE_NAME, "username") := u]>
                        (keyring.entries (kr w)));
                 keyring.available := true |};
        fs := fs w; platform := platform w; login := login w |}).
Proof.
  destruct w as [[e a] f pl l]. simpl. intros ->.
  unfold icloud_store_credentials, in_keyring, keyring.set_password.
  unfold_monad. reflexivity.
Qed.

Lemma delete_identity_ok (w : World) (u : string) :
  stored w ICLOUD_KEYRING_SERVICE_NAME "username" = Some u ->
  in_keyring (keyring.delete_password ICLOUD_KEYRING_SERVICE_NAME "username") w
  = (inr tt,
     {| kr := {| keyring.entries :=
                   delete (ICLOUD_KEYRING_SERVICE_NAME, "username")
                          (keyring.entries (kr w));
                 keyring.available := true |};
        fs := fs w; platform := platform w; login := login w |}).
Proof.
  destruct w as [[e a] f pl l]. unfold stored. simpl.
  destruct a; [|discriminate]. intros Hu.
  unfold in_keyring, keyring.delete_password. unfold_monad. simpl.
  rewrite Hu. reflexivity.
Qed.

End RoundTrip.

(** C7 (the code departs from the claim in its revocation half).  With a
    reachable keyring, storing the identity ['alice'] and a secret makes the
    two-stage lookup return that secret: the identity is read under the fixed
    key ["username"], the secret under the key ['alice']; and the property
    [icloud_password] returns a non-empty secret.  After the identity entry is
    deleted, [icloud_password] raises [ValueError] when notifications are
    enabled, but with notifications disabled it does not fail: it returns
    whatever is stored under the empty key, the empty string if nothing is. *)
Theorem credential_round_trip_and_revocation
    (c : Config.BaseConfig) (w : World) (secret : string) :
  keyring.available (kr w) = true ->
  exists w1 w2 : World,
    Config.icloud_store_credentials c "alice" secret w = (inr true, w1)
    /\ Config._icloud_get_username_from_store c w1 = (inr (Some "alice"), w1)
    /\ Config._icloud_get_password_from_store c w1 = (inr (Some secret), w1)
    /\ (secret <> "" -> Config.icloud_password c w1 = (inr secret, w1))
    /\ in_keyring (keyring.delete_password Config.ICLOUD_KEYRING_SERVICE_NAME "username") w1
       = (inr tt, w2)
    /\ (Config.enable_pushover c = true ->
        Config.icloud_password c w2
        = (inl (ValueError "icloud_password is required (store in keyring)"), w2))
    /\ (Config.enable_pushover c = false ->
        Config.icloud_password c w2
        = (inr (or_empty (Spec.stored w Config.ICLOUD_KEYRING_SERVICE_NAME "")), w2)).
Proof.
  intros Hav.
  pose proof (icloud_store_credentials_ok c w "alice" secret Hav) as Hstore.
  set (w1 := {| kr := _; fs := fs w; platform := platform w; login := login w |}) in Hstore.
  assert (Hid : Spec.stored w1 Config.ICLOUD_KEYRING_SERVICE_NAME "username" = Some "alice").
  { unfold Spec.stored, w1. simpl.
    rewrite lookup_insert_ne by discriminate. apply lookup_insert_eq. }
  assert (Hsec : Spec.stored w1 Config.ICLOUD_KEYRING_SERVICE_NAME "alice" = Some secret).
  { unfold Spec.stored, w1. simpl. apply lookup_insert_eq. }
  pose proof (delete_identity_ok w1 "alice" Hid) as Hdel.
  set (w2 := {| kr := _; fs := fs w1; platform := platform w1; login := login w1 |}) in Hdel.
  assert (Hid2 : Spec.stored w2 Config.ICLOUD_KEYRING_SERVICE_NAME "username" = None).
  { unfold Spec.stored, w2. simpl. apply lookup_delete_eq. }
  assert (Hempty : Spec.stored w2 Config.ICLOUD_KEYRING_SERVICE_NAME ""
                   = Spec.stored w Config.ICLOUD_KEYRING_SERVICE_NAME "").
  { unfold Spec.stored, w2, w1. simpl. rewrite Hav.
    rewrite lookup_delete_ne by discriminate.
    rewrite !lookup_insert_ne by discriminate. reflexivity. }
  exists w1, w2. repeat split.
  - exact Hstore.
  - rewrite username_from_store, Hid. reflexivity.
  - unfold Config._icloud_get_password_from_store.
    rewrite (keyed_get_password _ _ _ _ (icloud_username_eq c w1)).
    rewrite Hid. simpl. rewrite Hsec. reflexivity.
  - intros Hne. rewrite icloud_password_eq, Hid. simpl. rewrite Hsec.
    unfold Spec.read_property. simpl.
    destruct (String.eqb_spec secret ""); [contradiction | reflexivity].
  - exact Hdel.
  - intros Hon. rewrite icloud_password_eq, Hid2.
    unfold Spec.read_property. rewrite Hon. reflexivity.
  - intros Hoff. rewrite icloud_password_eq, Hid2.
    unfold Spec.read_property. rewrite Hoff. simpl.
    rewrite !andb_false_r. rewrite Hempty. reflexivity.
Qed.

Lemma credential_round_trip_and_revocation_witness :
  exists w1 w2 : World,
    Config.icloud_store_credentials (Samples.cfg false) "alice" "s3cret" Samples.w0
    = (inr true, w1)
    /\ Config.icloud_password (Samples.cfg false) w1 = (inr "s3cret", w1)
    /\ in_keyring (keyring.delete_password Config.ICLOUD_KEYRING_SERVICE_NAME "username") w1
       = (inr tt, w2)
    /\ Config.icloud_password (Samples.cfg false) w2 = (inr "", w2).
Proof.
  destruct (credential_round_trip_and_revocation (Samples.cfg false) Samples.w0 "s3cret"
              eq_refl)
    as (w1 & w2 & Hstore & _ & _ & Hpw & Hdel & _ & Hoff).
  exists w1, w2. repeat split.
  - exact Hstore.
  - apply Hpw. discriminate.
  - exact Hdel.
  - exact (Hoff eq_refl).
Defined.

(** ** The file system *)

Section FileSystem.

Import os.

Lemma mkdir_inv (p : Path) (fs0 fs1 : FS) (r : exn + unit) :
  mkdir p fs0 = (r, fs1) ->
  (exists k : oserror_kind, r = inl (OSError k (str p)) /\ fs1 = fs0)
  \/ (r = inr tt
      /\ nodes fs0 !! resolve fs0 p = None
      /\ nodes fs0 !! removelast (resolve fs0 p) = Some (Dir true)
      /\ fs1 = with_nodes (insert (resolve fs0 p) (Dir true)) fs0).
Proof.
  unfold mkdir, create_at.
  destruct (nodes fs0 !! resolve fs0 p) as [n|] eqn:Hn.
  - intros [= <- <-]. left. eauto.
  - destruct (nodes fs0 !! removelast (resolve fs0 p)) as [[[|]|d]|] eqn:Hp;
      intros [= <- <-]; [right; auto | left; eauto ..].
Qed.

Lemma resolve_with_nodes f (fs0 : FS) (p : Path) :
  resolve (with_nodes f fs0) p = resolve fs0 p.
Proof. reflexivity. Qed.

Lemma is_dir_created (fs0 : FS) (p : Path) :
  is_dir (with_nodes (insert (resolve fs0 p) (Dir true)) fs0) p = true.
Proof.
  unfold is_dir. rewrite resolve_with_nodes. simpl.
  rewrite lookup_insert_eq. reflexivity.
Qed.

Lemma Path_mkdir_flat_inv (p : Path) (fs0 fs1 : FS) (r : exn + unit) :
  Path_mkdir_flat p true fs0 = (r, fs1) ->
  (exists k : oserror_kind, r = inl (OSError k (str p)) /\ fs1 = fs0)
  \/ (r = inr tt /\ is_dir fs1 p = true /\ cwd fs1 = cwd fs0
      /\ (is_dir fs0 p = true -> fs1 = fs0)).
Proof.
  unfold Path_mkdir_flat, try_except. destruct (mkdir p fs0) as [r0 fs'] eqn:Hm.
  apply mkdir_inv in Hm as [(k & -> & ->) | (-> & Hnone & Hpar & ->)].
  - simpl. destruct k; simpl; unfold bind, gets, raise, ret; simpl;
      try (intros [= <- <-]; left; eauto; fail);
      destruct (is_dir fs0 p) eqn:Hd; simpl; intros [= <- <-]; eauto 10.
  - intros [= <- <-]. right. repeat split.
    + apply is_dir_created.
    + unfold is_dir. rewrite Hnone. discriminate.
Qed.

Lemma Path_mkdir_rev_inv (rt : string) (rparts : list string) (fs0 fs1 : FS)
    (r : exn + unit) :
  Path_mkdir_rev rt rparts fs0 = (r, fs1) ->
  cwd fs1 = cwd fs0
  /\ ((exists (k : oserror_kind) (f : string), r = inl (OSError k f))
      \/ (r = inr tt /\ is_dir fs1 {| root := rt; parts := rev rparts |} = true)).
Proof.
  revert fs0 fs1 r. induction rparts as [|x rparent IH]; intros fs0 fs1 r.
  - simpl. unfold try_except.
    destruct (mkdir _ fs0) as [r0 fs'] eqn:Hm.
    apply mkdir_inv in Hm as [(k & -> & ->) | (-> & Hnone & Hpar & ->)].
    + simpl. destruct k; simpl; unfold bind, gets, raise, ret; simpl;
        try (intros [= <- <-]; eauto 10; fail);
        destruct (is_dir fs0 _) eqn:Hd; simpl; intros [= <- <-]; eauto 10.
    + intros [= <- <-]. split; [reflexivity|]. right. split; [reflexivity|].
      apply is_dir_created.
  - cbn [Path_mkdir_rev]. unfold try_except.
    destruct (mkdir _ fs0) as [r0 fs'] eqn:Hm.
    apply mkdir_inv in Hm as [(k & -> & ->) | (-> & Hnone & Hpar & ->)].
    + cbn [is_OSError].
      assert (Hother :
        forall q, (d <- gets (fun fs => is_dir fs q) ;;
                   if negb d then raise (OSError k (str q)) else ret tt) fs0 = (r, fs1) ->
        k <> FileNotFoundError ->
        cwd fs1 = cwd fs0
        /\ ((exists (k : oserror_kind) (f : string), r = inl (OSError k f))
            \/ (r = inr tt /\ is_dir fs1 q = true))).
      { intros q. unfold bind, gets, raise, ret.
        destruct (is_dir fs0 q) eqn:Hd; simpl; intros [= <- <-] _; eauto 10. }
      destruct k; cbn [is_FileNotFoundError]; try (intros H; apply Hother in H; [exact H | discriminate]).
      unfold bind at 1.
      destruct (Path_mkdir_rev rt rparent fs0) as [r1 fs2] eqn:Hrec.
      apply IH in Hrec as [Hcwd Hrec].
      destruct r1 as [e|[]].
      * intros [= <- <-]. split; [exact Hcwd|]. left.
        destruct Hrec as [(k & f & ->) | [Habs _]]; [eauto | discriminate].
      * intros Hflat. apply Path_mkdir_flat_inv in Hflat
          as [(k & -> & ->) | (-> & Hd & Hc & _)].
        -- split; [exact Hcwd | eauto].
        -- split; [congruence | right; auto].
    + intros [= <- <-]. split; [reflexivity|]. right. split; [reflexivity|].
      apply is_dir_created.
Qed.

Lemma Path_eta (p : Path) : {| root := root p; parts := parts p |} = p.
Proof. destruct p; reflexivity. Qed.

(** [mkdir(parents=True, exist_ok=True)] raises nothing but [OSError], and
    when it returns the directory exists. *)
Lemma Path_mkdir_parents_inv (p : Path) (fs0 fs1 : FS) (r : exn + unit) :
  Path_mkdir_parents p fs0 = (r, fs1) ->
  cwd fs1 = cwd fs0
  /\ ((exists (k : oserror_kind) (f : string), r = inl (OSError k f))
      \/ (r = inr tt /\ is_dir fs1 p = true)).
Proof.
  unfold Path_mkdir_parents. intros H. apply Path_mkdir_rev_inv in H.
  rewrite rev_involutive, Path_eta in H. exact H.
Qed.

End FileSystem.

(** ** The database path *)

Section DatabasePath.

Import os.

Lemma Path_mkdir_rev_exists (rt : string) (rparts : list string) (fs0 : FS) :
  is_dir fs0 {| root := rt; parts := rev rparts |} = true ->
  Path_mkdir_rev rt rparts fs0 = (inr tt, fs0).
Proof.
  intros Hd.
  assert (Hm : mkdir {| root := rt; parts := rev rparts |} fs0
               = (inl (OSError FileExistsError (str {| root := rt; parts := rev rparts |})), fs0)).
  { unfold mkdir. unfold is_dir in Hd.
    destruct (nodes fs0 !! resolve fs0 _); [reflexivity | discriminate]. }
  destruct rparts; cbn [Path_mkdir_rev]; unfold try_except; rewrite Hm;
    cbn [is_OSError is_FileNotFoundError]; unfold bind, gets, ret; rewrite Hd; reflexivity.
Qed.

Lemma Path_mkdir_rev_create (rt : string) (rparts : list string) (fs0 : FS) :
  let self := {| root := rt; parts := rev rparts |} in
  nodes fs0 !! resolve fs0 self = None ->
  nodes fs0 !! removelast (resolve fs0 self) = Some (Dir true) ->
  Path_mkdir_rev rt rparts fs0
  = (inr tt, with_nodes (insert (resolve fs0 self) (Dir true)) fs0).
Proof.
  intros self Hnone Hpar.
  assert (Hm : mkdir self fs0
               = (inr tt, with_nodes (insert (resolve fs0 self) (Dir true)) fs0)).
  { unfold mkdir, create_at. rewrite Hnone, Hpar. reflexivity. }
  destruct rparts; cbn [Path_mkdir_rev]; unfold try_except; fold self; rewrite Hm; reflexivity.
Qed.













End DatabasePath.



(** ** Validation *)

Section Validate.

Import Config Spec.

Variable self : BaseConfig.

Lemma read_property_raises (required : bool) (attr : string) (v : option string) (e : exn) :
  read_property required attr v = inl e -> is_ValueError e = true.
Proof.
  unfold read_property. destruct (negb _ && _); [|discriminate].
  intros [= <-]. reflexivity.
Qed.

(** A credential check appends its message when the property raises
    [ValueError] or reads as empty. *)
Lemma credential_step (prop : M World string) (r : exn + string)
    (errors : list string) (msg : string) (w : World) :
  prop w = (r, w) ->
  (forall e, r = inl e -> is_ValueError e = true) ->
  try_except
    (x <- prop ;; ret (if String.eqb x "" then errors ++ [msg] else errors))
    is_ValueError (fun _ => ret (errors ++ [msg])) w
  = (inr (errors ++ (if credential_missing r then [msg] else [])), w).
Proof.
  intros Hrun Hval. unfold try_except, bind. rewrite Hrun.
  destruct r as [e|x]; simpl.
  - rewrite (Hval e eq_refl). reflexivity.
  - unfold ret. destruct (String.eqb x ""); [reflexivity|].
    rewrite app_nil_r. reflexivity.
Qed.

Lemma append_if (b : bool) (errors : list string) (msg : string) :
  (if b then errors ++ [msg] else errors) = errors ++ (if b then [msg] else []).
Proof. destruct b; [reflexivity | rewrite app_nil_r; reflexivity]. Qed.

(** [database_path] raises nothing but [OSError], whatever the platform. *)
Lemma database_path_raises (w w' : World) (e : exn) :
  database_path self w = (inl e, w') -> is_OSError e = true.
Proof.
  unfold database_path. unfold bind at 1. unfold gets. cbv zeta.
  set (dir := if negb (os.is_absolute _) then _ else _).
  unfold bind, in_fs, zoom, ret.
  destruct (os.Path_mkdir_parents dir (fs w)) as [r f] eqn:Hm.
  apply Path_mkdir_parents_inv in Hm as [_ [(k & f0 & ->) | [-> _]]].
  - intros [= <- _]. reflexivity.
  - discriminate.
Qed.

Lemma in_fs_mkdir_raises (p : os.Path) (w w' : World) (e : exn) :
  in_fs (os.Path_mkdir_parents p) w = (inl e, w') -> is_OSError e = true.
Proof.
  unfold in_fs, zoom.
  destruct (os.Path_mkdir_parents p (fs w)) as [r f] eqn:Hm.
  apply Path_mkdir_parents_inv in Hm as [_ [(k & f0 & ->) | [-> _]]].
  - intros [= <- _]. reflexivity.
  - discriminate.
Qed.

(** The database check appends the message of [database_check]. *)
Lemma database_step (errors : list string) (w : World) :
  try_except
    (database_path <- database_path self ;;
     in_fs (os.Path_mkdir_parents (os.parent database_path)) ;;
     w_ok <- gets (fun w => os.access_W_OK (fs w) (os.parent database_path)) ;;
     ret (if negb w_ok
          then errors ++ ["Database directory is not writable: "
                          +:+ os.str (os.parent database_path)]
          else errors))
    (fun e => is_OSError e || is_ValueError e)
    (fun e => ret (errors ++ ["Invalid database path configuration: " +:+ str_exn e])) w
  = (inr (errors ++ match fst (database_check self w) with
                    | Some m => [m]
                    | None => []
                    end),
     snd (database_check self w)).
Proof.
  unfold database_check, try_except. unfold bind at 1.
  destruct (database_path self w) as [[e|p] w1] eqn:Hpath.
  - rewrite (database_path_raises _ _ _ Hpath). reflexivity.
  - unfold bind at 1.
    destruct (in_fs (os.Path_mkdir_parents (os.parent p)) w1) as [[e|[]] w2] eqn:Hm.
    + rewrite (in_fs_mkdir_raises _ _ _ _ Hm). reflexivity.
    + unfold bind, gets, ret.
      destruct (os.access_W_OK (fs w2) (os.parent p)); simpl; [|reflexivity].
      rewrite app_nil_r. reflexivity.
Qed.

Lemma pushover_step (errors : list string) (w : World) :
  (if enable_pushover self then
     errors <-
       try_except
         (api_token <- pushover_api_token self ;;
          ret (if String.eqb api_token ""
               then errors ++ ["PUSHOVER_API_TOKEN is required when ENABLE_PUSHOVER=true"]
               else errors))
         is_ValueError
         (fun _ => ret (errors ++ ["PUSHOVER_API_TOKEN is required when ENABLE_PUSHOVER=true"])) ;;
     try_except
       (user_key <- pushover_user_key self ;;
        ret (if String.eqb user_key ""
             then errors ++ ["PUSHOVER_USER_KEY is required when ENABLE_PUSHOVER=true"]
             else errors))
       is_ValueError
       (fun _ => ret (errors ++ ["PUSHOVER_USER_KEY is required when ENABLE_PUSHOVER=true"]))
   else ret errors) w
  = (inr ((errors
           ++ (if enable_pushover self && credential_missing (fst (pushover_api_token self w))
               then ["PUSHOVER_API_TOKEN is required when ENABLE_PUSHOVER=true"] else []))
          ++ (if enable_pushover self && credential_missing (fst (pushover_user_key self w))
              then ["PUSHOVER_USER_KEY is required when ENABLE_PUSHOVER=true"] else [])), w).
Proof.
  destruct (enable_pushover self) eqn:Hen; cbn [andb].
  - unfold bind at 1.
    rewrite (credential_step _ _ _ _ _ (pushover_api_token_eq self w) (read_property_raises _ _ _)).
    rewrite (credential_step _ _ _ _ _ (pushover_user_key_eq self w) (read_property_raises _ _ _)).
    rewrite pushover_api_token_eq, pushover_user_key_eq. reflexivity.
  - rewrite !app_nil_r. reflexivity.
Qed.

Lemma filter_report (chk : check) (l : list check) :
  List.map message (List.filter failing (chk :: l))
  = (if failing chk then [message chk] else []) ++ List.map message (List.filter failing l).
Proof. simpl. destruct (failing chk); reflexivity. Qed.

Lemma validate_collect_eq (w : World) :
  validate_collect self w = (inr (failing_messages self w), snd (database_check self w)).
Proof.
  unfold validate_collect. cbv zeta.
  unfold bind at 1.
  rewrite (credential_step _ _ _ _ _ (icloud_username_eq self w) (read_property_raises _ _ _)).
  unfold bind at 1.
  rewrite (credential_step _ _ _ _ _ (icloud_password_eq self w) (read_property_raises _ _ _)).
  rewrite !append_if.
  unfold bind at 1.
  rewrite pushover_step.
  rewrite !append_if.
  rewrite database_step.
  f_equal. f_equal.
  unfold failing_messages, checks.
  rewrite !filter_report. cbn [failing message List.filter List.map].
  rewrite icloud_username_eq, icloud_password_eq. cbn [fst].
  destruct (fst (database_check self w)); rewrite <- ?app_assoc; reflexivity.
Qed.
End Validate.

Lemma append_assoc (a b c : string) : (a +:+ b) +:+ c = a +:+ (b +:+ c).
Proof.
  induction a as [|x a IH]; [reflexivity|].
  change (String x ((a +:+ b) +:+ c) = String x (a +:+ (b +:+ c))).
  rewrite IH. reflexivity.
Qed.

Lemma append_empty_r (a : string) : a +:+ "" = a.
Proof.
  induction a as [|x a IH]; [reflexivity|].
  change (String x (a +:+ "") = String x a). rewrite IH. reflexivity.
Qed.

(** Each element of a joined list occurs in the result. *)
Lemma join_occurs (sep m : string) (l : list string) :
  In m l -> Spec.occurs_in m (Str.join sep l).
Proof.
  unfold Spec.occurs_in, Str.join.
  induction l as [|x [|y xs] IH]; intros Hin.
  - destruct Hin.
  - destruct Hin as [<-|[]]. exists "", "".
    change (x = x +:+ ""). rewrite append_empty_r. reflexivity.
  - destruct Hin as [<-|Hin].
    + exists "", (sep +:+ String.concat sep (y :: xs)). reflexivity.
    + destruct (IH Hin) as (pre & post & Heq).
      exists (x +:+ sep +:+ pre), post.
      change (String.concat sep (x :: y :: xs))
        with (x +:+ sep +:+ String.concat sep (y :: xs)).
      rewrite Heq, !append_assoc. reflexivity.
Qed.

Lemma occurs_after_prefix (pre m s : string) :
  Spec.occurs_in m s -> Spec.occurs_in m (pre +:+ s).
Proof.
  intros (a & b & ->). exists (pre +:+ a), b. rewrite append_assoc. reflexivity.
Qed.

(** A failing check is among the reported messages. *)
Lemma failing_check_reported (c : Config.BaseConfig) (w : World) (chk : Spec.check) :
  In chk (Spec.checks c w) -> Spec.failing chk = true ->
  In (Spec.message chk) (Spec.failing_messages c w).
Proof.
  intros Hin Hf. unfold Spec.failing_messages.
  apply in_map, filter_In. split; assumption.
Qed.

(** C2.  One call of [validate] goes through all the checks and reports the
    messages of all those that fail, in one [ValueError] whose text is
    ["Configuration errors: "] followed by the messages joined with [", "];
    it returns normally only when no check fails.  So the message of every
    failing check occurs in the text of the error; in particular, with an
    invalid log level and an invalid execution mode, both messages occur in
    the error of the one call. *)
Theorem validate_reports_every_failing_check (c : Config.BaseConfig) (w : World) :
  let errs := Spec.failing_messages c w in
  (exists w' : World,
     Config.validate_collect c w = (inr errs, w')
     /\ Config.validate c w
        = (match errs with
           | [] => inr tt
           | _ => inl (ValueError ("Configuration errors: " +:+ Str.join ", " errs))
           end, w'))
  /\ (forall chk : Spec.check,
        In chk (Spec.checks c w) -> Spec.failing chk = true ->
        exists (w' : World) (text : string),
          Config.validate c w = (inl (ValueError text), w')
          /\ text = "Configuration errors: " +:+ Str.join ", " errs
          /\ In (Spec.message chk) errs
          /\ Spec.occurs_in (Spec.message chk) text)
  /\ (Config.not_in (Config.log_level c) ["DEBUG"; "INFO"; "WARNING"; "ERROR"] = true ->
      Config.not_in (Config.execution_mode c) ["single"; "continuous"] = true ->
      exists (w' : World) (text : string),
        Config.validate c w = (inl (ValueError text), w')
        /\ Spec.occurs_in ("Invalid LOG_LEVEL: " +:+ Config.log_level c) text
        /\ Spec.occurs_in ("Invalid EXECUTION_MODE: " +:+ Config.execution_mode c
                           +:+ ". Must be 'single' or 'continuous'") text).
Proof.
  intros errs.
  assert (Hrun : Config.validate c w
                 = (match errs with
                    | [] => inr tt
                    | _ => inl (ValueError ("Configuration errors: " +:+ Str.join ", " errs))
                    end, snd (Spec.database_check c w))).
  { unfold Config.validate, bind. rewrite validate_collect_eq. fold errs.
    destruct errs; reflexivity. }
  assert (Hchk : forall chk : Spec.check,
            In chk (Spec.checks c w) -> Spec.failing chk = true ->
            exists (w' : World) (text : string),
              Config.validate c w = (inl (ValueError text), w')
              /\ text = "Configuration errors: " +:+ Str.join ", " errs
              /\ In (Spec.message chk) errs
              /\ Spec.occurs_in (Spec.message chk) text).
  { intros chk Hin Hf.
    pose proof (failing_check_reported c w chk Hin Hf) as Hmem. fold errs in Hmem.
    exists (snd (Spec.database_check c w)),
           ("Configuration errors: " +:+ Str.join ", " errs).
    repeat split.
    - rewrite Hrun. destruct errs; [destruct Hmem | reflexivity].
    - exact Hmem.
    - apply occurs_after_prefix, join_occurs, Hmem. }
  repeat apply conj.
  - exists (snd (Spec.database_check c w)). split; [apply validate_collect_eq | exact Hrun].
  - exact Hchk.
  - intros Hlevel Hmode.
    destruct (Hchk {| Spec.failing := Config.not_in (Config.log_level c)
                                        ["DEBUG"; "INFO"; "WARNING"; "ERROR"];
                      Spec.message := "Invalid LOG_LEVEL: " +:+ Config.log_level c |})
      as (w1 & text1 & Hrun1 & Htext1 & _ & Hocc1);
      [unfold Spec.checks; simpl; tauto | exact Hlevel |].
    destruct (Hchk {| Spec.failing := Config.not_in (Config.execution_mode c)
                                        ["single"; "continuous"];
                      Spec.message := "Invalid EXECUTION_MODE: " +:+ Config.execution_mode c
                                      +:+ ". Must be 'single' or 'continuous'" |})
      as (w2 & text2 & Hrun2 & Htext2 & _ & Hocc2);
      [unfold Spec.checks; simpl; tauto | exact Hmode |].
    exists w1, text1. repeat split; [exact Hrun1 | exact Hocc1 |].
    rewrite Htext1, <- Htext2. exact Hocc2.
Qed.

Lemma validate_reports_every_failing_check_witness :
  exists (w' : World) (text : string),
    Config.validate (Samples.cfg_with true "VERBOSE" "daemon" ".data") Samples.w0
    = (inl (ValueError text), w')
    /\ Spec.occurs_in "Invalid LOG_LEVEL: VERBOSE" text
    /\ Spec.occurs_in "Invalid EXECUTION_MODE: daemon. Must be 'single' or 'continuous'" text.
Proof.
  exact (proj2 (proj2 (validate_reports_every_failing_check
                         (Samples.cfg_with true "VERBOSE" "daemon" ".data") Samples.w0))
               eq_refl eq_refl).
Defined.

(** ** The client: second factor and authentication *)

Section Client.

Import ICloudClient.

Variable self : iCloudClient.

Lemma logger_run (lvl : level) (template : string) (args : list value) (s : State) :
  logger lvl template args s
  = (inr tt, {| _api := _api s; world := world s;
                trace := trace s ++ [Log lvl template args] |}).
Proof. reflexivity. Qed.

Lemma remote_run {A} (call : string) (args : list string) (answer : exn + A) (s : State) :
  remote call args answer s
  = (answer, {| _api := _api s; world := world s;
                trace := trace s ++ [Remote call args] |}).
Proof. unfold remote, emit, bind, modify, ret, raise. destruct answer; reflexivity. Qed.

(** What [handle_2fa] does with a session [a]: one request, one log record,
    and the verdict of the remote, [False] when the request raises. *)
Lemma handle_2fa_session (code : string) (s : State) (a : pyicloud.PyiCloudService) :
  _api s = Some a ->
  handle_2fa self code s
  = (inr match pyicloud.validate_2fa_code a code with
         | inr b => b
         | inl _ => false
         end,
     {| _api := _api s; world := world s;
        trace := trace s ++
          [Remote "validate_2fa_code" [code];
           match pyicloud.validate_2fa_code a code with
           | inr true => Log INFO "2FA verification successful" []
           | inr false => Log ERROR "2FA verification failed" []
           | inl e => Log ERROR "Error during 2FA verification: {}" [VStr (str_exn e)]
           end] |}).
Proof.
  destruct s as [api w tr]. cbn [_api world trace]. intros ->.
  unfold handle_2fa. unfold bind at 1. unfold gets. cbn [_api].
  unfold try_except. unfold bind at 1. rewrite remote_run.
  destruct (pyicloud.validate_2fa_code a code) as [e|[|]]; cbn [any_Exception];
    unfold bind; rewrite logger_run; cbn [_api world trace]; unfold ret;
    rewrite <- app_assoc; reflexivity.
Qed.

Lemma bind_inr_inv {S A B} (c : M S A) (k : A -> M S B) (s s' : S) (b : B) :
  bind c k s = (inr b, s') -> exists a s1, c s = (inr a, s1) /\ k a s1 = (inr b, s').
Proof.
  unfold bind. destruct (c s) as [[e|a] s1]; [discriminate|]. eauto.
Qed.

Lemma authenticate_handler (e : exn) (s : State) :
  (match e with
   | PyiCloudFailedLoginException _ =>
       logger ERROR "iCloud login failed: {}" [VStr (str_exn e)] ;; ret false
   | PyiCloudAPIResponseException _ =>
       logger ERROR "iCloud API error: {}" [VStr (str_exn e)] ;; ret false
   | _ =>
       logger ERROR "Unexpected error during authentication: {}" [VStr (str_exn e)] ;;
       ret false
   end) s
  = (inr false, {| _api := _api s; world := world s;
                   trace := trace s ++ [Log ERROR (Spec.authenticate_error_template e)
                                            [VStr (str_exn e)]] |}).
Proof. destruct e; reflexivity. Qed.

Lemma authenticate_true (s s' : State) :
  authenticate self s = (inr true, s') ->
  exists (u p : string) (api : pyicloud.PyiCloudService) (ph : pyicloud.PhotosService),
    login (world s') u p = inr api
    /\ pyicloud.photos api = inr (Some ph)
    /\ _api s' = Some api.
Proof.
  unfold authenticate, try_except.
  match goal with |- context [match ?body s with _ => _ end] => destruct (body s) as [[e|b] s1] eqn:Hbody end.
  - cbn [any_Exception]. rewrite authenticate_handler. discriminate.
  - intros [= Hb Hs]; subst b s1.
    apply bind_inr_inv in Hbody as (u0 & s2 & Hu0 & Hbody).
    apply bind_inr_inv in Hbody as ([|] & s3 & Hunc & Hbody).
    { apply bind_inr_inv in Hbody as (? & ? & ? & Hbody). discriminate. }
    apply bind_inr_inv in Hbody as (u1 & s4 & Hu1 & Hbody).
    apply bind_inr_inv in Hbody as ([] & s5 & Hlog & Hbody).
    apply bind_inr_inv in Hbody as (u & s6 & Hu & Hbody).
    apply bind_inr_inv in Hbody as (p & s7 & Hp & Hbody).
    apply bind_inr_inv in Hbody as (ctor & s8 & Hctor & Hbody).
    apply bind_inr_inv in Hbody as (api & s9 & Hlogin & Hbody).
    apply bind_inr_inv in Hbody as ([] & s10 & Hset & Hbody).
    apply bind_inr_inv in Hbody as (ph & s11 & Hph & Hbody).
    injection Hctor as <- <-.
    rewrite remote_run in Hlogin. injection Hlogin as Hlogin <-.
    injection Hset as <-. rewrite remote_run in Hph. injection Hph as Hph <-.
    destruct ph as [ph|].
    + apply bind_inr_inv in Hbody as ([] & s12 & Hlog2 & Hbody).
      rewrite logger_run in Hlog2. injection Hlog2 as <-. injection Hbody as <-.
      exists (or_empty u), (or_empty p), api, ph. cbn [_api world trace]. auto.
    + apply bind_inr_inv in Hbody as (? & ? & ? & Hbody). discriminate.
Qed.
Lemma truthy_Some (u : string) : u <> "" -> truthy (Some u) = true.
Proof. intros H. simpl. destruct (String.eqb_spec u ""); [contradiction | reflexivity]. Qed.

Lemma authenticate_configured (s : State) (u p : string) :
  icloud_username (config self) (world s) = (inr (Some u), world s) ->
  icloud_password (config self) (world s) = (inr (Some p), world s) ->
  u <> "" -> p <> "" ->
  authenticate self s
  = let started :=
      trace s ++ [Log INFO "Authenticating with iCloud as {}" [VStr u];
                  Remote "PyiCloudService" [u; p]] in
    match login (world s) u p with
    | inl e =>
        (inr false,
         {| _api := _api s; world := world s;
            trace := started ++ [Log ERROR (Spec.authenticate_error_template e)
                                     [VStr (str_exn e)]] |})
    | inr api =>
        (inr match pyicloud.photos api with
             | inr (Some _) => true
             | _ => false
             end,
         {| _api := Some api; world := world s;
            trace := started ++
              [Remote "photos" [];
               match pyicloud.photos api with
               | inr (Some _) => Log INFO "Successfully authenticated with iCloud" []
               | inr None => Log ERROR "Failed to access iCloud Photos" []
               | inl e => Log ERROR (Spec.authenticate_error_template e) [VStr (str_exn e)]
               end] |})
    end.
Proof.
  destruct s as [api0 w tr]. simpl.
  intros Hu Hp Hune Hpne.
  apply String.eqb_neq in Hune, Hpne.
  unfold authenticate, try_except, in_world, zoom, bind. simpl.
  rewrite Hu. simpl. rewrite Hune. simpl.
  rewrite Hp. simpl. rewrite Hpne. simpl.
  rewrite Hu. simpl. rewrite Hu. simpl. rewrite Hp. simpl.
  destruct (login w u p) as [e|api]; simpl.
  - destruct e; simpl; rewrite <- !app_assoc; reflexivity.
  - destruct (pyicloud.photos api) as [e|[ph|]]; simpl.
    + destruct e; simpl; rewrite <- !app_assoc; reflexivity.
    + rewrite <- !app_assoc; reflexivity.
    + rewrite <- !app_assoc; reflexivity.
Qed.

Lemma authenticate_unconfigured (s : State) (v : option string) :
  icloud_username (config self) (world s) = (inr v, world s) ->
  truthy v = false ->
  authenticate self s
  = (inr false,
     {| _api := _api s; world := world s;
        trace := trace s ++ [Log ERROR "iCloud username or password not configured" []] |}).
Proof.
  destruct s as [api0 w tr]. simpl.
  intros Hu Hv.
  unfold authenticate, try_except, in_world, zoom, bind. simpl.
  rewrite Hu. simpl. destruct v as [v|]; simpl in Hv |- *; [rewrite Hv|]; reflexivity.
Qed.

End Client.

(** C9.  [handle_2fa] never raises.  Without a session it returns [False] and
    leaves everything as it was: no request goes to the remote.  With a
    session it returns [False] when the remote rejects the code and when the
    validation raises, and [True] only when the remote accepts the code. *)
Theorem handle_2fa_never_raises (self : ICloudClient.iCloudClient) (code : string)
    (s : ICloudClient.State) :
  (exists (b : bool) (s' : ICloudClient.State),
     ICloudClient.handle_2fa self code s = (inr b, s'))
  /\ (ICloudClient._api s = None ->
      ICloudClient.handle_2fa self code s = (inr false, s))
  /\ (forall a : pyicloud.PyiCloudService,
        ICloudClient._api s = Some a ->
        (pyicloud.validate_2fa_code a code = inr false ->
         fst (ICloudClient.handle_2fa self code s) = inr false)
        /\ (forall e : exn,
              pyicloud.validate_2fa_code a code = inl e ->
              fst (ICloudClient.handle_2fa self code s) = inr false)
        /\ (fst (ICloudClient.handle_2fa self code s) = inr true <->
            pyicloud.validate_2fa_code a code = inr true)).
Proof.
  assert (Hnone : ICloudClient._api s = None ->
                  ICloudClient.handle_2fa self code s = (inr false, s)).
  { intros Hn. unfold ICloudClient.handle_2fa, bind, gets. rewrite Hn. reflexivity. }
  repeat apply conj.
  - destruct (ICloudClient._api s) as [a|] eqn:Ha.
    + rewrite (handle_2fa_session self code s a Ha). eauto.
    + rewrite (Hnone eq_refl). eauto.
  - exact Hnone.
  - intros a Ha. rewrite (handle_2fa_session self code s a Ha). cbn [fst].
    split; [|split].
    + intros ->. reflexivity.
    + intros e ->. reflexivity.
    + destruct (pyicloud.validate_2fa_code a code) as [e|[|]]; split;
        intros H; first [reflexivity | discriminate H].
Qed.

Lemma handle_2fa_never_raises_witness :
  ICloudClient.handle_2fa (Samples.client 0 false) "000000" Samples.s0
  = (inr false, Samples.s0)
  /\ fst (ICloudClient.handle_2fa (Samples.client 0 false) "000000" Samples.s_session)
     = inr false
  /\ fst (ICloudClient.handle_2fa (Samples.client 0 false) "123456" Samples.s_session)
     = inr true.
Proof.
  repeat apply conj.
  - exact (proj1 (proj2 (handle_2fa_never_raises (Samples.client 0 false) "000000"
                           Samples.s0)) eq_refl).
  - exact (proj1 (proj2 (proj2 (handle_2fa_never_raises (Samples.client 0 false) "000000"
                                  Samples.s_session)) Samples.api_ok eq_refl) eq_refl).
  - apply (proj2 (proj2 (proj2 (proj2 (handle_2fa_never_raises (Samples.client 0 false)
                                         "123456" Samples.s_session)) Samples.api_ok eq_refl))).
    reflexivity.
Defined.

(** C8.  [authenticate] never raises: every call returns a boolean.  It
    returns [True] only when the constructor of the session succeeded and the
    photo library of that session was reached; the session is then kept in
    [_api].  With both credentials configured, a login that raises (bad
    credentials, an error of the remote API, or anything else) gives [False]
    with the error record of its kind, and a login that succeeds gives
    [True] exactly when the photo library is reachable: a library that
    raises or is [None] gives [False].  With the username not configured the
    result is [False] and the remote is not contacted. *)
Theorem authenticate_never_raises (self : ICloudClient.iCloudClient) (s : ICloudClient.State) :
  (exists (b : bool) (s' : ICloudClient.State),
     ICloudClient.authenticate self s = (inr b, s')
     /\ (b = true ->
         exists (u p : string) (api : pyicloud.PyiCloudService)
                (ph : pyicloud.PhotosService),
           login (ICloudClient.world s') u p = inr api
           /\ pyicloud.photos api = inr (Some ph)
           /\ ICloudClient._api s' = Some api))
  /\ (forall u p : string,
        ICloudClient.icloud_username (ICloudClient.config self) (ICloudClient.world s)
        = (inr (Some u), ICloudClient.world s) ->
        ICloudClient.icloud_password (ICloudClient.config self) (ICloudClient.world s)
        = (inr (Some p), ICloudClient.world s) ->
        u <> "" -> p <> "" ->
        ICloudClient.authenticate self s
        = let started :=
            ICloudClient.trace s ++
            [ICloudClient.Log ICloudClient.INFO "Authenticating with iCloud as {}"
                              [ICloudClient.VStr u];
             ICloudClient.Remote "PyiCloudService" [u; p]] in
          match login (ICloudClient.world s) u p with
          | inl e =>
              (inr false,
               {| ICloudClient._api := ICloudClient._api s;
                  ICloudClient.world := ICloudClient.world s;
                  ICloudClient.trace := started ++
                    [ICloudClient.Log ICloudClient.ERROR
                       (Spec.authenticate_error_template e)
                       [ICloudClient.VStr (str_exn e)]] |})
          | inr api =>
              (inr match pyicloud.photos api with
                   | inr (Some _) => true
                   | _ => false
                   end,
               {| ICloudClient._api := Some api;
                  ICloudClient.world := ICloudClient.world s;
                  ICloudClient.trace := started ++
                    [ICloudClient.Remote "photos" [];
                     match pyicloud.photos api with
                     | inr (Some _) =>
                         ICloudClient.Log ICloudClient.INFO
                           "Successfully authenticated with iCloud" []
                     | inr None =>
                         ICloudClient.Log ICloudClient.ERROR
                           "Failed to access iCloud Photos" []
                     | inl e =>
                         ICloudClient.Log ICloudClient.ERROR
                           (Spec.authenticate_error_template e)
                           [ICloudClient.VStr (str_exn e)]
                     end] |})
          end)
  /\ (forall v : option string,
        ICloudClient.icloud_username (ICloudClient.config self) (ICloudClient.world s)
        = (inr v, ICloudClient.world s) ->
        truthy v = false ->
        ICloudClient.authenticate self s
        = (inr false,
           {| ICloudClient._api := ICloudClient._api s;
              ICloudClient.world := ICloudClient.world s;
              ICloudClient.trace := ICloudClient.trace s ++
                [ICloudClient.Log ICloudClient.ERROR
                   "iCloud username or password not configured" []] |})).
Proof.
  split; [|split].
  - destruct (ICloudClient.authenticate self s) as [[e|b] s'] eqn:Hrun.
    + exfalso. revert Hrun. unfold ICloudClient.authenticate, try_except.
      match goal with
      | |- context [match ?body s with _ => _ end] => destruct (body s) as [[e0|b] s1]
      end.
      * cbn [any_Exception]. rewrite authenticate_handler. discriminate.
      * discriminate.
    + exists b, s'. split; [reflexivity|].
      intros ->. exact (authenticate_true self s s' Hrun).
  - exact (authenticate_configured self s).
  - exact (authenticate_unconfigured self s).
Qed.

Lemma authenticate_never_raises_witness :
  fst (ICloudClient.authenticate (Samples.client 0 false) Samples.s0) = inr true
  /\ fst (ICloudClient.authenticate (Samples.client 0 false) Samples.s_rejected) = inr false
  /\ fst (ICloudClient.authenticate
            {| ICloudClient.config := Samples.client_cfg None 0 false |} Samples.s0)
     = inr false.
Proof.
  assert (Hu : "alice" <> "") by discriminate.
  assert (Hp : "s3cret" <> "") by discriminate.
  split; [|split].
  - rewrite (proj1 (proj2 (authenticate_never_raises (Samples.client 0 false) Samples.s0))
               "alice" "s3cret" eq_refl eq_refl Hu Hp).
    reflexivity.
  - rewrite (proj1 (proj2 (authenticate_never_raises (Samples.client 0 false)
                             Samples.s_rejected))
               "alice" "s3cret" eq_refl eq_refl Hu Hp).
    reflexivity.
  - rewrite (proj2 (proj2 (authenticate_never_raises
                             {| ICloudClient.config := Samples.client_cfg None 0 false |}
                             Samples.s0))
               None eq_refl eq_refl).
    reflexivity.
Defined.

(** ** The client: downloads *)

Section Download.
Import ICloudClient.
Variable self : iCloudClient.

Lemma over_limit_test (z limit : Z) :
  negb (Qle_bool (inject_Z z / inject_Z (1024 * 1024)) (inject_Z limit))
  = (limit * 1048576 <? z)%Z.
Proof.
  unfold Qle_bool, Qdiv, Qmult, Qinv, inject_Z. simpl.
  rewrite !Z.mul_1_r. rewrite Z.ltb_antisym. reflexivity.
Qed.

(** Up to 53 bits nothing is rounded. *)
Lemma round_53_exact (z : Z) : (Z.abs z < 2 ^ 53)%Z -> round_53 z = z.
Proof.
  intros Hz. unfold round_53.
  destruct (Z.leb_spec (Z.log2 (Z.abs z) - 52) 0) as [_|Hshift]; [reflexivity|].
  exfalso.
  destruct (Z.eq_dec (Z.abs z) 0%Z) as [H0|H0].
  - rewrite H0 in Hshift. simpl in Hshift. lia.
  - assert (Hlog : (Z.log2 (Z.abs z) < 53)%Z) by (apply Z.log2_lt_pow2; lia).
    lia.
Qed.

(** For a size below 2^53 the quotient is the exact one. *)
Lemma div_MiB_exact (z : Z) (s : State) :
  (0 <= z < 2 ^ 53)%Z ->
  div_MiB (VInt z) s = (inr (inject_Z z / inject_Z (1024 * 1024))%Q, s).
Proof.
  intros Hz. unfold div_MiB. rewrite round_53_exact by lia.
  assert (Hmax : (2 ^ 53 <= 2 ^ 1044)%Z) by (apply Z.pow_le_mono_r; lia).
  destruct (Z.leb_spec (2 ^ 1044) (Z.abs z)) as [Hbig|_]; [lia | reflexivity].
Qed.

Lemma download_photo_oversized (info : gmap string value) (path : string) (s : State) (z : Z) :
  (0 < max_file_size_mb (config self))%Z ->
  info !! "size" = Some (VInt z) ->
  (max_file_size_mb (config self) * 1048576 < z)%Z ->
  (z < 2 ^ 53)%Z ->
  exists logs : list Event,
    download_photo self info path s
    = (inr false, {| _api := _api s; world := world s; trace := trace s ++ logs |})
    /\ forallb (fun e => negb (is_io e)) logs = true
    /\ forallb (fun e => negb (Spec.is_dry_run_record e)) logs = true
    /\ (forall photo filename : value,
          info !! "photo_obj" = Some photo -> info !! "filename" = Some filename ->
          logs = [Log DEBUG "Downloading {} to {}" [filename; VStr path];
                  Log INFO "Skipping {} (size: {:.1f}MB > limit: {}MB)"
                      [filename;
                       VFloat (inject_Z z / inject_Z (1024 * 1024));
                       VInt (max_file_size_mb (config self))]]).
Proof.
  intros Hpos Hsize Hover Hexact.
  assert (Hz : (0 <= z < 2 ^ 53)%Z) by lia.
  apply Z.ltb_lt in Hpos, Hover.
  unfold download_photo, try_except, getitem, get.
  destruct (info !! "photo_obj") as [photo|] eqn:Hphoto.
  - destruct (info !! "filename") as [filename|] eqn:Hname.
    + unfold bind at 1. unfold ret at 1. unfold bind at 1. unfold ret at 1.
      unfold bind at 1. rewrite logger_run.
      rewrite Hpos, Hsize. unfold bind at 1. rewrite (div_MiB_exact z _ Hz).
      rewrite over_limit_test, Hover. unfold bind. rewrite logger_run. unfold ret.
      cbn [_api world trace]. rewrite <- app_assoc.
      eexists. split; [reflexivity|]. repeat split.
      intros photo' filename' [= <-] [= <-]. reflexivity.
    + eexists. split; [reflexivity|]. repeat split. discriminate.
  - eexists. split; [reflexivity|]. repeat split. discriminate.
Qed.

Lemma size_gate_pass {A} (info : gmap string value) (limit : Z)
    (skip : Q -> M State A) (proceed : M State A) (s : State) :
  Spec.within_limit limit info ->
  (if (0 <? limit)%Z then
     size_mb <- div_MiB (get info "size" (VInt 0)) ;;
     if negb (Qle_bool size_mb (inject_Z limit)) then skip size_mb else proceed
   else proceed) s
  = proceed s.
Proof.
  intros [Hle | (z & Hz & Hexact & Hle)].
  - apply Z.ltb_ge in Hle. rewrite Hle. reflexivity.
  - destruct (0 <? limit)%Z; [|reflexivity].
    rewrite Hz. unfold bind. rewrite (div_MiB_exact z _ Hexact).
    rewrite over_limit_test.
    apply Z.ltb_ge in Hle. rewrite Hle. reflexivity.
Qed.

(** In a dry run nothing is fetched or written, whatever the dictionary. *)
Lemma download_photo_dry_run_frame (info : gmap string value) (path : string) (s : State) :
  dry_run (config self) = true ->
  exists (b : bool) (logs : list Event),
    download_photo self info path s
    = (inr b, {| _api := _api s; world := world s; trace := trace s ++ logs |})
    /\ forallb (fun e => negb (is_io e)) logs = true.
Proof.
  intros Hdry.
  unfold download_photo, try_except, getitem, get. rewrite Hdry.
  destruct (info !! "photo_obj") as [photo|];
    [|eexists _, _; split; reflexivity].
  destruct (info !! "filename") as [filename|];
    [|eexists _, _; split; reflexivity].
  unfold bind at 1. unfold ret at 1. unfold bind at 1. unfold ret at 1.
  unfold bind at 1. rewrite logger_run.
  destruct (0 <? max_file_size_mb (config self))%Z.
  - unfold div_MiB.
    destruct (info !! "size") as [[|z|q|str|ph]|];
      try match goal with
          | |- context [(?a <=? ?b)%Z] => destruct (a <=? b)%Z
          end;
      unfold bind, ret, raise; cbn [any_Exception];
      try (rewrite ?logger_run; cbn [_api world trace]; rewrite <- ?app_assoc;
           eexists _, _; split; reflexivity);
      match goal with
      | |- context [Qle_bool ?a ?b] => destruct (Qle_bool a b)
      end;
      cbn [negb]; rewrite ?logger_run; cbn [_api world trace]; rewrite <- ?app_assoc;
      eexists _, _; split; reflexivity.
  - unfold bind, ret. rewrite logger_run. cbn [_api world trace]. rewrite <- app_assoc.
    eexists _, _; split; reflexivity.
Qed.

Lemma download_photo_dry_run (info : gmap string value) (path : string) (s : State)
    (photo filename : value) :
  dry_run (config self) = true ->
  info !! "photo_obj" = Some photo ->
  info !! "filename" = Some filename ->
  Spec.within_limit (max_file_size_mb (config self)) info ->
  download_photo self info path s
  = (inr true,
     {| _api := _api s; world := world s;
        trace := trace s ++
          [Log DEBUG "Downloading {} to {}" [filename; VStr path];
           Log INFO "DRY RUN: Would download {} to {}" [filename; VStr path]] |}).
Proof.
  intros Hdry Hphoto Hname Hgate.
  unfold download_photo, try_except, getitem. rewrite Hphoto, Hname, Hdry.
  unfold bind at 1. unfold ret at 1. unfold bind at 1. unfold ret at 1.
  unfold bind at 1. rewrite logger_run.
  rewrite (size_gate_pass info _ _ _ _ Hgate).
  unfold bind, ret. rewrite logger_run. cbn [_api world trace]. rewrite <- app_assoc.
  reflexivity.
Qed.

(** A download that is neither skipped nor a dry run: the remote is asked
    for the photo, the file is opened (created or truncated), the body is
    read and written; a failure at any step is logged and gives [False]. *)
Lemma download_photo_fetch (info : gmap string value) (path : string) (s : State)
    (ph : pyicloud.PhotoAsset) (filename : value) :
  dry_run (config self) = false ->
  info !! "photo_obj" = Some (VPhoto ph) ->
  info !! "filename" = Some filename ->
  Spec.within_limit (max_file_size_mb (config self)) info ->
  download_photo self info path s
  = let started :=
      trace s ++ [Log DEBUG "Downloading {} to {}" [filename; VStr path];
                  Remote "download" [pyicloud.id ph]] in
    let failed (e : exn) :=
      Log ERROR "Error downloading photo {}: {}" [filename; VStr (str_exn e)] in
    match pyicloud.download ph with
    | inl e =>
        (inr false,
         {| _api := _api s; world := world s; trace := started ++ [failed e] |})
    | inr response =>
        match os.open_wb path (fs (world s)) with
        | (inl e, f1) =>
            (inr false,
             {| _api := _api s; world := Spec.with_fs f1 (world s);
                trace := started ++ [Open path; failed e] |})
        | (inr _, f1) =>
            match pyicloud.raw_read response with
            | inl e =>
                (inr false,
                 {| _api := _api s; world := Spec.with_fs f1 (world s);
                    trace := started ++
                      [Open path; Remote "read" [pyicloud.id ph]; failed e] |})
            | inr data =>
                (inr true,
                 {| _api := _api s;
                    world := Spec.with_fs (snd (os.write path data f1)) (world s);
                    trace := started ++
                      [Open path; Remote "read" [pyicloud.id ph];
                       Log DEBUG "Downloaded {}" [filename]] |})
            end
        end
    end.
Proof.
  intros Hdry Hphoto Hname Hgate.
  unfold download_photo, try_except, getitem, get. rewrite Hphoto, Hname, Hdry.
  unfold bind at 1. unfold ret at 1. unfold bind at 1. unfold ret at 1.
  unfold bind at 1. rewrite logger_run.
  rewrite (size_gate_pass info _ _ _ _ Hgate).
  destruct s as [api0 w tr]. cbn [_api world trace].
  unfold fetch_and_write. unfold bind at 1. unfold bind at 1. unfold bind at 1.
  rewrite remote_run. cbn [_api world trace].
  destruct (pyicloud.download ph) as [e|response].
  - cbn [any_Exception]. unfold bind. rewrite logger_run. unfold ret. cbn [_api world trace].
    rewrite <- !app_assoc. reflexivity.
  - unfold bind at 1. unfold emit, modify. cbn [_api world trace].
    unfold bind at 1. unfold in_world, in_fs, zoom. cbn [_api world trace fs].
    destruct (os.open_wb path (fs w)) as [[e|[]] f1].
    + cbn [any_Exception]. unfold bind. rewrite logger_run. unfold ret. cbn [_api world trace].
      rewrite <- !app_assoc. reflexivity.
    + unfold bind at 1. rewrite remote_run. cbn [_api world trace].
      destruct (pyicloud.raw_read response) as [e|data].
      * cbn [any_Exception]. unfold bind. rewrite logger_run. unfold ret. cbn [_api world trace].
        rewrite <- !app_assoc. reflexivity.
      * cbn [fs]. unfold os.write, modify. unfold bind. rewrite logger_run. unfold ret.
        cbn [_api world trace fs snd]. rewrite <- !app_assoc. reflexivity.
Qed.

(** Every exception of the body is caught: a call returns a boolean. *)
Lemma download_photo_returns (info : gmap string value) (path : string) (s : State) :
  exists (b : bool) (s' : State), download_photo self info path s = (inr b, s').
Proof.
  unfold download_photo, try_except.
  match goal with
  | |- context [match ?body s with _ => _ end] => destruct (body s) as [[e|b] s1]
  end.
  - cbn [any_Exception]. unfold bind. rewrite logger_run. unfold ret. eauto.
  - eauto.
Qed.

End Download.

(** C3.  When a positive limit is configured and the size of the asset is
    above it (an integer number of bytes above [limit] times 1024 * 1024,
    and below 2^53, so that the float of the size check holds it exactly),
    [download_photo] returns [False] and does nothing but log: the world,
    file system included, is unchanged, nothing is requested from the remote
    and no file is opened.  For a dictionary with its photo and its file name
    the log is the debug record followed by the record of the skip. *)
Theorem download_skips_oversized (self : ICloudClient.iCloudClient)
    (info : gmap string ICloudClient.value) (path : string) (s : ICloudClient.State)
    (z : Z) :
  (0 < ICloudClient.max_file_size_mb (ICloudClient.config self))%Z ->
  info !! "size" = Some (ICloudClient.VInt z) ->
  (ICloudClient.max_file_size_mb (ICloudClient.config self) * 1048576 < z)%Z ->
  (z < 2 ^ 53)%Z ->
  exists s' : ICloudClient.State,
    ICloudClient.download_photo self info path s = (inr false, s')
    /\ Spec.only_logged s s'
    /\ fs (ICloudClient.world s') = fs (ICloudClient.world s)
    /\ (forall photo filename : ICloudClient.value,
          info !! "photo_obj" = Some photo -> info !! "filename" = Some filename ->
          ICloudClient.trace s'
          = ICloudClient.trace s ++
            [ICloudClient.Log ICloudClient.DEBUG "Downloading {} to {}"
               [filename; ICloudClient.VStr path];
             ICloudClient.Log ICloudClient.INFO
               "Skipping {} (size: {:.1f}MB > limit: {}MB)"
               [filename;
                ICloudClient.VFloat (inject_Z z / inject_Z (1024 * 1024));
                ICloudClient.VInt (ICloudClient.max_file_size_mb
                                     (ICloudClient.config self))]]).
Proof.
  intros Hpos Hsize Hover Hexact.
  destruct (download_photo_oversized self info path s z Hpos Hsize Hover Hexact)
    as (logs & Hrun & Hio & _ & Hlogs).
  eexists. split; [exact Hrun|]. repeat split.
  - exists logs. split; [reflexivity | exact Hio].
  - intros photo filename Hphoto Hname. cbn [ICloudClient.trace].
    rewrite (Hlogs photo filename Hphoto Hname). reflexivity.
Qed.

Lemma download_skips_oversized_witness :
  exists s' : ICloudClient.State,
    ICloudClient.download_photo (Samples.client 10 false)
      (ICloudClient.photo_info Samples.photo_15MB) Samples.dest Samples.s0
    = (inr false, s')
    /\ fs (ICloudClient.world s') = fs (ICloudClient.world Samples.s0).
Proof.
  destruct (download_skips_oversized (Samples.client 10 false)
              (ICloudClient.photo_info Samples.photo_15MB) Samples.dest Samples.s0
              (15 * 1024 * 1024))
    as (s' & Hrun & _ & Hfs & _).
  - reflexivity.
  - vm_compute. reflexivity.
  - reflexivity.
  - reflexivity.
  - exists s'. split; [exact Hrun | exact Hfs].
Defined.

(** C5.  The size check comes before the dry-run check: with [dry_run] set,
    a positive limit and a size above it (a number of bytes below 2^53, so
    that the float of the size check holds it exactly), [download_photo]
    returns [False], the result of a skip, not the [True] of a dry run; it
    logs the skip and no dry-run record, and nothing is fetched or
    written. *)
Theorem size_check_precedes_dry_run (self : ICloudClient.iCloudClient)
    (info : gmap string ICloudClient.value) (path : string) (s : ICloudClient.State)
    (z : Z) :
  ICloudClient.dry_run (ICloudClient.config self) = true ->
  (0 < ICloudClient.max_file_size_mb (ICloudClient.config self))%Z ->
  info !! "size" = Some (ICloudClient.VInt z) ->
  (ICloudClient.max_file_size_mb (ICloudClient.config self) * 1048576 < z)%Z ->
  (z < 2 ^ 53)%Z ->
  exists logs : list ICloudClient.Event,
    ICloudClient.download_photo self info path s
    = (inr false,
       {| ICloudClient._api := ICloudClient._api s;
          ICloudClient.world := ICloudClient.world s;
          ICloudClient.trace := ICloudClient.trace s ++ logs |})
    /\ fst (ICloudClient.download_photo self info path s) <> inr true
    /\ forallb (fun e => negb (ICloudClient.is_io e)) logs = true
    /\ forallb (fun e => negb (Spec.is_dry_run_record e)) logs = true
    /\ (forall photo filename : ICloudClient.value,
          info !! "photo_obj" = Some photo -> info !! "filename" = Some filename ->
          logs = [ICloudClient.Log ICloudClient.DEBUG "Downloading {} to {}"
                    [filename; ICloudClient.VStr path];
                  ICloudClient.Log ICloudClient.INFO
                    "Skipping {} (size: {:.1f}MB > limit: {}MB)"
                    [filename;
                     ICloudClient.VFloat (inject_Z z / inject_Z (1024 * 1024));
                     ICloudClient.VInt (ICloudClient.max_file_size_mb
                                          (ICloudClient.config self))]]).
Proof.
  intros _ Hpos Hsize Hover Hexact.
  destruct (download_photo_oversized self info path s z Hpos Hsize Hover Hexact)
    as (logs & Hrun & Hio & Hdry & Hlogs).
  exists logs. repeat split; try assumption.
  rewrite Hrun. discriminate.
Qed.

Lemma size_check_precedes_dry_run_witness :
  exists logs : list ICloudClient.Event,
    ICloudClient.download_photo (Samples.client 10 true)
      (ICloudClient.photo_info Samples.photo_15MB) Samples.dest Samples.s0
    = (inr false,
       {| ICloudClient._api := None; ICloudClient.world := Samples.w_remote;
          ICloudClient.trace := logs |})
    /\ forallb (fun e => negb (Spec.is_dry_run_record e)) logs = true.
Proof.
  destruct (size_check_precedes_dry_run (Samples.client 10 true)
              (ICloudClient.photo_info Samples.photo_15MB) Samples.dest Samples.s0
              (15 * 1024 * 1024))
    as (logs & Hrun & _ & _ & Hdry & _).
  - reflexivity.
  - reflexivity.
  - vm_compute. reflexivity.
  - reflexivity.
  - reflexivity.
  - exists logs. split; [exact Hrun | exact Hdry].
Defined.

(** Why the sizes are taken below 2^53: the size check compares the float
    of the quotient, not the quotient.  A photo of 2^53 + 1 bytes is above a
    limit of 2^33 MB by one byte; its quotient rounds to 2^33, so it is not
    skipped. *)
Example size_check_rounds_large_sizes :
  let photo := {| pyicloud.id := "A9"; pyicloud.filename := "IMG_0009.JPG";
                  pyicloud.size := 2 ^ 53 + 1;
                  pyicloud.download := inl (OtherException "unused") |} in
  Spec.oversized (2 ^ 33) photo = true
  /\ fst (ICloudClient.download_photo (Samples.client (2 ^ 33) true)
            (ICloudClient.photo_info photo) Samples.dest Samples.s0) = inr true.
Proof. split; vm_compute; reflexivity. Qed.

(** C4, as the code has it.  With [dry_run] set, [download_photo] never
    raises and does nothing but log, for every dictionary: the world, file
    system included, is unchanged, nothing is requested from the remote and
    no file is opened.  It returns [True], after the dry-run record, for
    every dictionary with its photo and its file name that the size check
    lets through: no positive limit is configured, or the size is a number
    of bytes below 2^53 that is not above the limit, itself below 2^53. *)
Theorem dry_run_never_fetches (self : ICloudClient.iCloudClient)
    (info : gmap string ICloudClient.value) (path : string) (s : ICloudClient.State) :
  ICloudClient.dry_run (ICloudClient.config self) = true ->
  (exists (b : bool) (s' : ICloudClient.State),
     ICloudClient.download_photo self info path s = (inr b, s')
     /\ Spec.only_logged s s'
     /\ fs (ICloudClient.world s') = fs (ICloudClient.world s))
  /\ (forall photo filename : ICloudClient.value,
        info !! "photo_obj" = Some photo ->
        info !! "filename" = Some filename ->
        Spec.within_limit (ICloudClient.max_file_size_mb (ICloudClient.config self)) info ->
        (ICloudClient.max_file_size_mb (ICloudClient.config self) < 2 ^ 53)%Z ->
        ICloudClient.download_photo self info path s
        = (inr true,
           {| ICloudClient._api := ICloudClient._api s;
              ICloudClient.world := ICloudClient.world s;
              ICloudClient.trace := ICloudClient.trace s ++
                [ICloudClient.Log ICloudClient.DEBUG "Downloading {} to {}"
                   [filename; ICloudClient.VStr path];
                 ICloudClient.Log ICloudClient.INFO "DRY RUN: Would download {} to {}"
                   [filename; ICloudClient.VStr path]] |})).
Proof.
  intros Hdry. split.
  - destruct (download_photo_dry_run_frame self info path s Hdry)
      as (b & logs & Hrun & Hio).
    eexists b, _. split; [exact Hrun|]. repeat split.
    exists logs. split; [reflexivity | exact Hio].
  - intros photo filename Hphoto Hname Hgate _.
    exact (download_photo_dry_run self info path s photo filename Hdry Hphoto Hname Hgate).
Qed.

Lemma dry_run_never_fetches_witness :
  (exists (b : bool) (s' : ICloudClient.State),
     ICloudClient.download_photo (Samples.client 20 true)
       (ICloudClient.photo_info Samples.photo_15MB) Samples.dest Samples.s0 = (inr b, s')
     /\ fs (ICloudClient.world s') = fs (ICloudClient.world Samples.s0))
  /\ fst (ICloudClient.download_photo (Samples.client 20 true)
            (ICloudClient.photo_info Samples.photo_15MB) Samples.dest Samples.s0)
     = inr true.
Proof.
  destruct (dry_run_never_fetches (Samples.client 20 true)
              (ICloudClient.photo_info Samples.photo_15MB) Samples.dest Samples.s0
              eq_refl)
    as [(b & s' & Hrun & _ & Hfs) Htrue].
  split.
  - exists b, s'. split; [exact Hrun | exact Hfs].
  - rewrite (Htrue (ICloudClient.VPhoto Samples.photo_15MB) (ICloudClient.VStr "IMG_0001.JPG")).
    + reflexivity.
    + vm_compute. reflexivity.
    + vm_compute. reflexivity.
    + right. exists (15 * 1024 * 1024)%Z. split; [vm_compute; reflexivity|].
      split; [split; [discriminate | reflexivity] | discriminate].
    + reflexivity.
Defined.

(** C4 as stated fails: in a dry run with the limit 10 MB, the photo of
    15 MB gets [False], the result of a skip, with the record of the skip and
    no dry-run record; so a dry run does not return the dry-run result for
    every asset. *)
Lemma dry_run_oversized_is_skipped :
  ICloudClient.dry_run (ICloudClient.config (Samples.client 10 true)) = true
  /\ ICloudClient.download_photo (Samples.client 10 true)
       (ICloudClient.photo_info Samples.photo_15MB) Samples.dest Samples.s0
     = (inr false,
        {| ICloudClient._api := None; ICloudClient.world := Samples.w_remote;
           ICloudClient.trace :=
             [ICloudClient.Log ICloudClient.DEBUG "Downloading {} to {}"
                [ICloudClient.VStr "IMG_0001.JPG"; ICloudClient.VStr Samples.dest];
              ICloudClient.Log ICloudClient.INFO
                "Skipping {} (size: {:.1f}MB > limit: {}MB)"
                [ICloudClient.VStr "IMG_0001.JPG";
                 ICloudClient.VFloat (inject_Z (15 * 1024 * 1024) / inject_Z (1024 * 1024));
                 ICloudClient.VInt 10]] |})
  /\ ~ (forall (self : ICloudClient.iCloudClient) (info : gmap string ICloudClient.value)
               (path : string) (s : ICloudClient.State),
          ICloudClient.dry_run (ICloudClient.config self) = true ->
          fst (ICloudClient.download_photo self info path s) = inr true).
Proof.
  assert (Hrun : fst (ICloudClient.download_photo (Samples.client 10 true)
                        (ICloudClient.photo_info Samples.photo_15MB) Samples.dest Samples.s0)
                 = inr false) by (vm_compute; reflexivity).
  split; [reflexivity|]. split.
  - vm_compute. reflexivity.
  - intros Hall.
    specialize (Hall (Samples.client 10 true) (ICloudClient.photo_info Samples.photo_15MB)
                     Samples.dest Samples.s0 eq_refl).
    rewrite Hrun in Hall. discriminate Hall.
Qed.

(** C10.  The result of [download_photo] is one boolean, and it does not
    tell the outcomes apart: a call always returns [False] or [True]; the
    skip of an asset above the size limit gives [False], and so does a
    download that fails (the remote raises, the file cannot be opened, or
    the body cannot be read); a dry run gives [True], and so does a download
    that completes.  Sizes are numbers of bytes below 2^53, which the float
    of the size check holds exactly, and so is the limit where an asset is
    let through. *)
Theorem download_result_is_one_boolean (self : ICloudClient.iCloudClient)
    (info : gmap string ICloudClient.value) (path : string) (s : ICloudClient.State) :
  (exists (b : bool) (s' : ICloudClient.State),
     ICloudClient.download_photo self info path s = (inr b, s'))
  /\ (forall z : Z,
        (0 < ICloudClient.max_file_size_mb (ICloudClient.config self))%Z ->
        info !! "size" = Some (ICloudClient.VInt z) ->
        (ICloudClient.max_file_size_mb (ICloudClient.config self) * 1048576 < z)%Z ->
        (z < 2 ^ 53)%Z ->
        fst (ICloudClient.download_photo self info path s) = inr false)
  /\ (forall (ph : pyicloud.PhotoAsset) (filename : ICloudClient.value),
        ICloudClient.dry_run (ICloudClient.config self) = false ->
        info !! "photo_obj" = Some (ICloudClient.VPhoto ph) ->
        info !! "filename" = Some filename ->
        Spec.within_limit (ICloudClient.max_file_size_mb (ICloudClient.config self)) info ->
        (ICloudClient.max_file_size_mb (ICloudClient.config self) < 2 ^ 53)%Z ->
        (forall e : exn,
           pyicloud.download ph = inl e ->
           fst (ICloudClient.download_photo self info path s) = inr false)
        /\ (forall (response : pyicloud.Response) (e : exn),
              pyicloud.download ph = inr response ->
              fst (os.open_wb path (fs (ICloudClient.world s))) = inl e ->
              fst (ICloudClient.download_photo self info path s) = inr false)
        /\ (forall (response : pyicloud.Response) (e : exn),
              pyicloud.download ph = inr response ->
              pyicloud.raw_read response = inl e ->
              fst (ICloudClient.download_photo self info path s) = inr false)
        /\ (forall (response : pyicloud.Response) (data : list Byte.byte),
              pyicloud.download ph = inr response ->
              fst (os.open_wb path (fs (ICloudClient.world s))) = inr tt ->
              pyicloud.raw_read response = inr data ->
              fst (ICloudClient.download_photo self info path s) = inr true))
  /\ (forall photo filename : ICloudClient.value,
        ICloudClient.dry_run (ICloudClient.config self) = true ->
        info !! "photo_obj" = Some photo ->
        info !! "filename" = Some filename ->
        Spec.within_limit (ICloudClient.max_file_size_mb (ICloudClient.config self)) info ->
        (ICloudClient.max_file_size_mb (ICloudClient.config self) < 2 ^ 53)%Z ->
        fst (ICloudClient.download_photo self info path s) = inr true).
Proof.
  split; [|split; [|split]].
  - apply download_photo_returns.
  - intros z Hpos Hsize Hover Hexact.
    destruct (download_photo_oversized self info path s z Hpos Hsize Hover Hexact)
      as (logs & Hrun & _).
    rewrite Hrun. reflexivity.
  - intros ph filename Hdry Hphoto Hname Hgate _.
    rewrite (download_photo_fetch self info path s ph filename Hdry Hphoto Hname Hgate).
    cbv zeta. repeat apply conj.
    + intros e ->. reflexivity.
    + intros response e -> Hopen.
      destruct (os.open_wb path (fs (ICloudClient.world s))) as [[e'|[]] f1];
        [reflexivity | discriminate Hopen].
    + intros response e -> Hread.
      destruct (os.open_wb path (fs (ICloudClient.world s))) as [[e'|[]] f1];
        [reflexivity | rewrite Hread; reflexivity].
    + intros response data -> Hopen Hread.
      destruct (os.open_wb path (fs (ICloudClient.world s))) as [[e'|[]] f1];
        [discriminate Hopen | rewrite Hread; reflexivity].
  - intros photo filename Hdry Hphoto Hname Hgate _.
    rewrite (download_photo_dry_run self info path s photo filename Hdry Hphoto Hname Hgate).
    reflexivity.
Qed.

Lemma download_result_is_one_boolean_witness :
  fst (ICloudClient.download_photo (Samples.client 10 false)
         (ICloudClient.photo_info Samples.photo_15MB) Samples.dest Samples.s0) = inr false
  /\ fst (ICloudClient.download_photo (Samples.client 20 false)
            (ICloudClient.photo_info Samples.photo_broken) Samples.dest Samples.s0)
     = inr false
  /\ fst (ICloudClient.download_photo (Samples.client 20 true)
            (ICloudClient.photo_info Samples.photo_15MB) Samples.dest Samples.s0) = inr true
  /\ fst (ICloudClient.download_photo (Samples.client 20 false)
            (ICloudClient.photo_info Samples.photo_15MB) Samples.dest Samples.s0) = inr true.
Proof.
  assert (Hbroken : Spec.within_limit 20 (ICloudClient.photo_info Samples.photo_broken)).
  { right. exists 1024%Z. split; [vm_compute; reflexivity|].
    split; [split; [discriminate | reflexivity] | discriminate]. }
  assert (H15 : Spec.within_limit 20 (ICloudClient.photo_info Samples.photo_15MB)).
  { right. exists (15 * 1024 * 1024)%Z. split; [vm_compute; reflexivity|].
    split; [split; [discriminate | reflexivity] | discriminate]. }
  split; [|split; [|split]].
  - refine (proj1 (proj2 (download_result_is_one_boolean (Samples.client 10 false)
                            (ICloudClient.photo_info Samples.photo_15MB) Samples.dest
                            Samples.s0))
                  (15 * 1024 * 1024)%Z _ _ _ _).
    + reflexivity.
    + vm_compute. reflexivity.
    + reflexivity.
    + reflexivity.
  - refine (proj1 (proj1 (proj2 (proj2 (download_result_is_one_boolean
                                          (Samples.client 20 false)
                                          (ICloudClient.photo_info Samples.photo_broken)
                                          Samples.dest Samples.s0)))
                         Samples.photo_broken (ICloudClient.VStr "IMG_0002.JPG") _ _ _ _ _)
                  (PyiCloudAPIResponseException "Gone (410)") _).
    + reflexivity.
    + vm_compute. reflexivity.
    + vm_compute. reflexivity.
    + exact Hbroken.
    + reflexivity.
    + reflexivity.
  - refine (proj2 (proj2 (proj2 (download_result_is_one_boolean
                                   (Samples.client 20 true)
                                   (ICloudClient.photo_info Samples.photo_15MB)
                                   Samples.dest Samples.s0)))
                  (ICloudClient.VPhoto Samples.photo_15MB)
                  (ICloudClient.VStr "IMG_0001.JPG") _ _ _ _ _).
    + reflexivity.
    + vm_compute. reflexivity.
    + vm_compute. reflexivity.
    + exact H15.
    + reflexivity.
  - refine (proj2 (proj2 (proj2 (proj1 (proj2 (proj2 (download_result_is_one_boolean
                                          (Samples.client 20 false)
                                          (ICloudClient.photo_info Samples.photo_15MB)
                                          Samples.dest Samples.s0)))
                         Samples.photo_15MB (ICloudClient.VStr "IMG_0001.JPG") _ _ _ _ _)))
                  {| pyicloud.raw_read := inr [Byte.x01; Byte.x02] |}
                  [Byte.x01; Byte.x02] _ _ _).
    + reflexivity.
    + vm_compute. reflexivity.
    + vm_compute. reflexivity.
    + exact H15.
    + reflexivity.
    + reflexivity.
    + vm_compute. reflexivity.
    + reflexivity.
Defined.

(** * Further properties of [config.py] *)

(** ** The credential store *)

Section Keyring.

Import Config Spec.

Variable self : BaseConfig.

Lemma in_keyring_get (w : World) (service key : string) :
  in_keyring (keyring.get_password service key) w
  = (if keyring.available (kr w)
     then inr (keyring.entries (kr w) !! (service, key))
     else inl (KeyringError "no keyring backend"), w).
Proof.
  destruct w as [[e a] f p l]. unfold in_keyring, zoom, keyring.get_password.
  destruct a; reflexivity.
Qed.

Lemma in_keyring_set (w : World) (service key value : string) :
  keyring.available (kr w) = true ->
  in_keyring (keyring.set_password service key value) w
  = (inr tt, with_entries (<[(service, key) := value]> (keyring.entries (kr w))) w).
Proof.
  destruct w as [[e a] f p l]. simpl. intros ->. reflexivity.
Qed.

Lemma in_keyring_delete (w : World) (service key : string) :
  keyring.available (kr w) = true ->
  in_keyring (keyring.delete_password service key) w
  = match keyring.entries (kr w) !! (service, key) with
    | Some _ => (inr tt, with_entries (delete (service, key) (keyring.entries (kr w))) w)
    | None => (inl (KeyringError "password not found"), w)
    end.
Proof.
  destruct w as [[e a] f p l]. simpl. intros ->.
  unfold in_keyring, zoom, keyring.delete_password. simpl.
  destruct (e !! (service, key)); reflexivity.
Qed.

Lemma read_property_cases (required : bool) (attr : string) (v : option string) :
  match read_property required attr v with
  | inl e => is_ValueError e = true /\ required = true
  | inr _ => True
  end.
Proof.
  unfold read_property. destruct (negb (truthy v)); simpl; [|exact I].
  destruct required; simpl; auto.
Qed.

End Keyring.

(** X1.  The four credential properties are safe to read in every world, a
    keyring whose backend fails included: a read leaves the world as it is,
    the only exception it raises is the [ValueError] of a missing credential,
    and with notifications disabled it raises nothing. *)
Theorem credential_reads_are_safe (c : Config.BaseConfig) (w : World) :
  Forall (Spec.safe_read c w)
         [Config.icloud_username; Config.icloud_password;
          Config.pushover_user_key; Config.pushover_api_token].
Proof.
  unfold Spec.safe_read. repeat constructor.
  - eexists. split; [apply icloud_username_eq | apply read_property_cases].
  - eexists. split; [apply icloud_password_eq | apply read_property_cases].
  - eexists. split; [apply pushover_user_key_eq | apply read_property_cases].
  - eexists. split; [apply pushover_api_token_eq | apply read_property_cases].
Qed.

Section StoredCredentials.

Import Config Spec.

Variable self : BaseConfig.

Lemma icloud_store_eq (w : World) (u p : string) :
  keyring.available (kr w) = true ->
  icloud_store_credentials self u p w
  = (inr true,
     with_entries (<[(ICLOUD_KEYRING_SERVICE_NAME, u) := p]>
                     (<[(ICLOUD_KEYRING_SERVICE_NAME, "username") := u]>
                        (keyring.entries (kr w)))) w).
Proof. intros Hav. rewrite (icloud_store_credentials_ok self w u p Hav). reflexivity. Qed.

Lemma pushover_store_eq (w : World) (k t : string) :
  keyring.available (kr w) = true ->
  pushover_store_credentials self k t w
  = (inr true,
     with_entries (<[(PUSHOVER_KEYRING_SERVICE_NAME, k) := t]>
                     (<[(PUSHOVER_KEYRING_SERVICE_NAME, "user_key") := k]>
                        (keyring.entries (kr w)))) w).
Proof.
  destruct w as [[e a] f pl l]. simpl. intros ->.
  unfold pushover_store_credentials, in_keyring, keyring.set_password.
  unfold_monad. reflexivity.
Qed.

Lemma icloud_has_eq (w : World) :
  keyring.available (kr w) = true ->
  icloud_has_stored_credentials self w
  = (inr (pair_stored (keyring.entries (kr w)) ICLOUD_KEYRING_SERVICE_NAME "username"), w).
Proof.
  intros Hav. unfold icloud_has_stored_credentials, pair_stored, bind.
  rewrite in_keyring_get, Hav.
  destruct (keyring.entries (kr w) !! (ICLOUD_KEYRING_SERVICE_NAME, "username")) as [u|];
    [|reflexivity].
  simpl. destruct (String.eqb u ""); [reflexivity|]. simpl.
  rewrite in_keyring_get, Hav.
  destruct (keyring.entries (kr w) !! (ICLOUD_KEYRING_SERVICE_NAME, u)); reflexivity.
Qed.

Lemma pushover_has_eq (w : World) :
  keyring.available (kr w) = true ->
  pushover_has_stored_credentials self w
  = (inr (pair_stored (keyring.entries (kr w)) PUSHOVER_KEYRING_SERVICE_NAME "user_key"), w).
Proof.
  intros Hav. unfold pushover_has_stored_credentials, pair_stored, bind.
  rewrite in_keyring_get, Hav.
  destruct (keyring.entries (kr w) !! (PUSHOVER_KEYRING_SERVICE_NAME, "user_key")) as [u|];
    [|reflexivity].
  simpl. destruct (String.eqb u ""); [reflexivity|]. simpl.
  rewrite in_keyring_get, Hav.
  destruct (keyring.entries (kr w) !! (PUSHOVER_KEYRING_SERVICE_NAME, u)); reflexivity.
Qed.

(** [icloud_delete_credentials] on a reachable keyring, case by case. *)
Lemma icloud_delete_eq (w : World) :
  keyring.available (kr w) = true ->
  let e := keyring.entries (kr w) in
  icloud_delete_credentials self w
  = match e !! (ICLOUD_KEYRING_SERVICE_NAME, "username") with
    | Some u =>
        if String.eqb u "" then (inr true, w)
        else
          match e !! (ICLOUD_KEYRING_SERVICE_NAME, u) with
          | None => (inr false, w)
          | Some _ =>
              if String.eqb u "username"
              then (inr false, with_entries (delete (ICLOUD_KEYRING_SERVICE_NAME, u) e) w)
              else (inr true,
                    with_entries (delete (ICLOUD_KEYRING_SERVICE_NAME, "username")
                                    (delete (ICLOUD_KEYRING_SERVICE_NAME, u) e)) w)
          end
    | None => (inr true, w)
    end.
Proof.
  intros Hav e. unfold icloud_delete_credentials, try_except. unfold bind at 1.
  rewrite in_keyring_get, Hav. fold e.
  destruct (e !! (ICLOUD_KEYRING_SERVICE_NAME, "username")) as [u|] eqn:Hu;
    [|reflexivity].
  simpl. destruct (String.eqb_spec u "") as [->|Hne]; [reflexivity|]. simpl.
  unfold bind at 1. unfold bind at 1.
  rewrite (in_keyring_delete w _ _ Hav). fold e.
  destruct (e !! (ICLOUD_KEYRING_SERVICE_NAME, u)) as [p|] eqn:Hp; [|reflexivity].
  rewrite in_keyring_delete by reflexivity. simpl.
  destruct (String.eqb_spec u "username") as [->|Hne'].
  - rewrite lookup_delete_eq. reflexivity.
  - rewrite lookup_delete_ne by congruence. rewrite Hu. reflexivity.
Qed.

End StoredCredentials.

(** X2.  Storing the service credentials and reading them back: on a
    reachable keyring, for an identity that is neither empty nor the fixed
    key ["username"], [icloud_store_credentials] returns [True], after which
    [icloud_has_stored_credentials] is [True], the two store lookups return
    the identity and the secret, [icloud_username] returns the identity and
    [icloud_password] returns a non-empty secret, whatever the notification
    flag. *)
Theorem icloud_store_round_trip (c : Config.BaseConfig) (w : World) (u p : string) :
  keyring.available (kr w) = true ->
  u <> "username" -> u <> "" ->
  exists w1 : World,
    Config.icloud_store_credentials c u p w = (inr true, w1)
    /\ Config.icloud_has_stored_credentials c w1 = (inr true, w1)
    /\ Config._icloud_get_username_from_store c w1 = (inr (Some u), w1)
    /\ Config._icloud_get_password_from_store c w1 = (inr (Some p), w1)
    /\ Config.icloud_username c w1 = (inr u, w1)
    /\ (p <> "" -> Config.icloud_password c w1 = (inr p, w1)).
Proof.
  intros Hav Hfix Hne.
  rewrite (icloud_store_eq c w u p Hav). eexists. split; [reflexivity|].
  set (w1 := Spec.with_entries _ w).
  assert (Hid : Spec.stored w1 Config.ICLOUD_KEYRING_SERVICE_NAME "username" = Some u).
  { unfold Spec.stored, w1. simpl.
    rewrite lookup_insert_ne by congruence. apply lookup_insert_eq. }
  assert (Hsec : Spec.stored w1 Config.ICLOUD_KEYRING_SERVICE_NAME u = Some p).
  { unfold Spec.stored, w1. simpl. apply lookup_insert_eq. }
  assert (Hu : (u =? "")%string = false) by (apply String.eqb_neq; exact Hne).
  assert (Hread : Spec.read_property (Config.enable_pushover c) "icloud_username" (Some u)
                  = inr u).
  { unfold Spec.read_property. simpl. rewrite Hu. reflexivity. }
  repeat split.
  - rewrite icloud_has_eq by reflexivity. unfold Spec.pair_stored.
    change (Spec.stored w1 Config.ICLOUD_KEYRING_SERVICE_NAME "username" = Some u)
      with (keyring.entries (kr w1) !! (Config.ICLOUD_KEYRING_SERVICE_NAME, "username")
            = Some u) in Hid.
    change (Spec.stored w1 Config.ICLOUD_KEYRING_SERVICE_NAME u = Some p)
      with (keyring.entries (kr w1) !! (Config.ICLOUD_KEYRING_SERVICE_NAME, u) = Some p)
      in Hsec.
    rewrite Hid, Hu, Hsec. reflexivity.
  - rewrite username_from_store, Hid. reflexivity.
  - unfold Config._icloud_get_password_from_store.
    rewrite (keyed_get_password _ _ _ _ (icloud_username_eq c w1)).
    rewrite Hid, Hread. simpl. rewrite Hsec. reflexivity.
  - rewrite icloud_username_eq, Hid, Hread. reflexivity.
  - intros Hp. rewrite icloud_password_eq, Hid, Hread. simpl. rewrite Hsec.
    unfold Spec.read_property. simpl.
    destruct (String.eqb_spec p ""); [contradiction | reflexivity].
Qed.

Lemma icloud_store_round_trip_witness :
  exists w1 : World,
    Config.icloud_store_credentials (Samples.cfg true) "bob@example.org" "pw" Samples.w0
    = (inr true, w1)
    /\ Config.icloud_has_stored_credentials (Samples.cfg true) w1 = (inr true, w1)
    /\ Config.icloud_password (Samples.cfg true) w1 = (inr "pw", w1).
Proof.
  destruct (icloud_store_round_trip (Samples.cfg true) Samples.w0 "bob@example.org" "pw")
    as (w1 & Hstore & Hhas & _ & _ & _ & Hpw).
  - reflexivity.
  - discriminate.
  - discriminate.
  - exists w1. repeat split; [exact Hstore | exact Hhas | apply Hpw; discriminate].
Defined.

(** X3.  The identity ["username"] collides with the fixed key under which
    the identity is stored: [icloud_store_credentials("username", p)] writes
    the secret over the identity entry, so that afterwards the identity read
    back is the secret [p], and [icloud_username] returns a non-empty [p]. *)
Theorem icloud_store_identity_collision (c : Config.BaseConfig) (w : World) (p : string) :
  keyring.available (kr w) = true ->
  exists w1 : World,
    Config.icloud_store_credentials c "username" p w = (inr true, w1)
    /\ Config._icloud_get_username_from_store c w1 = (inr (Some p), w1)
    /\ (p <> "" -> Config.icloud_username c w1 = (inr p, w1)).
Proof.
  intros Hav.
  rewrite (icloud_store_eq c w "username" p Hav). eexists. split; [reflexivity|].
  set (w1 := Spec.with_entries _ w).
  assert (Hid : Spec.stored w1 Config.ICLOUD_KEYRING_SERVICE_NAME "username" = Some p).
  { unfold Spec.stored, w1. simpl. apply lookup_insert_eq. }
  split.
  - rewrite username_from_store, Hid. reflexivity.
  - intros Hp. rewrite icloud_username_eq, Hid. unfold Spec.read_property. simpl.
    destruct (String.eqb_spec p ""); [contradiction | reflexivity].
Qed.

Lemma icloud_store_identity_collision_witness :
  exists w1 : World,
    Config.icloud_store_credentials (Samples.cfg true) "username" "s3cret" Samples.w0
    = (inr true, w1)
    /\ Config.icloud_username (Samples.cfg true) w1 = (inr "s3cret", w1).
Proof.
  destruct (icloud_store_identity_collision (Samples.cfg true) Samples.w0 "s3cret" eq_refl)
    as (w1 & Hstore & _ & Hname).
  exists w1. split; [exact Hstore | apply Hname; discriminate].
Defined.

(** X4.  Storing and then deleting the service credentials: on a reachable
    keyring, for an identity that is neither empty nor ["username"],
    [icloud_delete_credentials] after [icloud_store_credentials] returns
    [True] and removes both entries, so that
    [icloud_has_stored_credentials] is [False]; every other entry of the
    keyring is as it was before the two calls. *)
Theorem icloud_store_then_delete (c : Config.BaseConfig) (w : World) (u p : string) :
  keyring.available (kr w) = true ->
  u <> "username" -> u <> "" ->
  exists w1 w2 : World,
    Config.icloud_store_credentials c u p w = (inr true, w1)
    /\ Config.icloud_delete_credentials c w1 = (inr true, w2)
    /\ Config.icloud_has_stored_credentials c w2 = (inr false, w2)
    /\ Spec.stored w2 Config.ICLOUD_KEYRING_SERVICE_NAME "username" = None
    /\ Spec.stored w2 Config.ICLOUD_KEYRING_SERVICE_NAME u = None
    /\ (forall service key : string,
          (service, key) <> (Config.ICLOUD_KEYRING_SERVICE_NAME, "username") ->
          (service, key) <> (Config.ICLOUD_KEYRING_SERVICE_NAME, u) ->
          Spec.stored w2 service key = Spec.stored w service key)
    /\ fs w2 = fs w /\ platform w2 = platform w.
Proof.
  intros Hav Hfix Hne.
  rewrite (icloud_store_eq c w u p Hav).
  set (e1 := <[(Config.ICLOUD_KEYRING_SERVICE_NAME, u) := p]> _).
  assert (Hid : e1 !! (Config.ICLOUD_KEYRING_SERVICE_NAME, "username") = Some u).
  { unfold e1. rewrite lookup_insert_ne by congruence. apply lookup_insert_eq. }
  assert (Hsec : e1 !! (Config.ICLOUD_KEYRING_SERVICE_NAME, u) = Some p).
  { unfold e1. apply lookup_insert_eq. }
  assert (Hu : (u =? "")%string = false) by (apply String.eqb_neq; exact Hne).
  assert (Hu' : (u =? "username")%string = false) by (apply String.eqb_neq; exact Hfix).
  pose proof (icloud_delete_eq c (Spec.with_entries e1 w) eq_refl) as Hdel.
  cbv zeta in Hdel.
  change (keyring.entries (kr (Spec.with_entries e1 w))) with e1 in Hdel.
  rewrite Hid, Hu, Hsec, Hu' in Hdel.
  eexists _, _. split; [reflexivity|]. split; [exact Hdel|].
  set (e2 := delete _ (delete _ e1)).
  assert (Hid2 : e2 !! (Config.ICLOUD_KEYRING_SERVICE_NAME, "username") = None).
  { unfold e2. apply lookup_delete_eq. }
  assert (Hsec2 : e2 !! (Config.ICLOUD_KEYRING_SERVICE_NAME, u) = None).
  { unfold e2. rewrite lookup_delete_ne by congruence. apply lookup_delete_eq. }
  repeat split.
  - rewrite icloud_has_eq by reflexivity. unfold Spec.pair_stored.
    change (keyring.entries (kr (Spec.with_entries e2 (Spec.with_entries e1 w)))) with e2.
    rewrite Hid2. reflexivity.
  - exact Hid2.
  - exact Hsec2.
  - intros service key Hk1 Hk2. unfold Spec.stored. simpl. rewrite Hav.
    unfold e2, e1.
    rewrite !lookup_delete_ne by congruence.
    rewrite !lookup_insert_ne by congruence. reflexivity.
Qed.

Lemma icloud_store_then_delete_witness :
  exists w1 w2 : World,
    Config.icloud_store_credentials (Samples.cfg true) "bob@example.org" "pw" Samples.w0
    = (inr true, w1)
    /\ Config.icloud_delete_credentials (Samples.cfg true) w1 = (inr true, w2)
    /\ Config.icloud_has_stored_credentials (Samples.cfg true) w2 = (inr false, w2).
Proof.
  destruct (icloud_store_then_delete (Samples.cfg true) Samples.w0 "bob@example.org" "pw")
    as (w1 & w2 & Hstore & Hdel & Hhas & _).
  - reflexivity.
  - discriminate.
  - discriminate.
  - exists w1, w2. repeat split; assumption.
Defined.

(** X5.  [icloud_delete_credentials] on a reachable keyring that holds no
    complete pair: without an identity entry, or with an empty one, it
    returns [True] and changes nothing; with an identity whose secret is not
    stored, deleting the secret raises, so it returns [False] and the
    identity entry stays where it is. *)
Theorem icloud_delete_incomplete (c : Config.BaseConfig) (w : World) :
  keyring.available (kr w) = true ->
  (truthy (Spec.stored w Config.ICLOUD_KEYRING_SERVICE_NAME "username") = false ->
   Config.icloud_delete_credentials c w = (inr true, w))
  /\ (forall u : string,
        Spec.stored w Config.ICLOUD_KEYRING_SERVICE_NAME "username" = Some u ->
        u <> "" ->
        Spec.stored w Config.ICLOUD_KEYRING_SERVICE_NAME u = None ->
        Config.icloud_delete_credentials c w = (inr false, w)).
Proof.
  intros Hav. pose proof (icloud_delete_eq c w Hav) as Hdel. cbv zeta in Hdel.
  unfold Spec.stored. rewrite Hav. split.
  - intros Hid. rewrite Hdel.
    destruct (keyring.entries (kr w) !! (Config.ICLOUD_KEYRING_SERVICE_NAME, "username"))
      as [u|]; [|reflexivity].
    simpl in Hid. apply negb_false_iff in Hid. rewrite Hid. reflexivity.
  - intros u Hid Hne Hsec. rewrite Hdel, Hid, Hsec.
    apply String.eqb_neq in Hne. rewrite Hne. reflexivity.
Qed.

Lemma icloud_delete_incomplete_witness :
  Config.icloud_delete_credentials (Samples.cfg true) Samples.w0 = (inr true, Samples.w0)
  /\ Config.icloud_delete_credentials (Samples.cfg true) Samples.w_identity_only
     = (inr false, Samples.w_identity_only).
Proof.
  split.
  - exact (proj1 (icloud_delete_incomplete (Samples.cfg true) Samples.w0 eq_refl) eq_refl).
  - refine (proj2 (icloud_delete_incomplete (Samples.cfg true) Samples.w_identity_only
                     eq_refl) "alice" _ _ _).
    + vm_compute. reflexivity.
    + discriminate.
    + vm_compute. reflexivity.
Defined.

(** X6.  With a keyring whose backend cannot be reached, the store and
    delete operations of both credential pairs return [False] and change
    nothing, while the two [..._has_stored_credentials], which have no
    exception handler, let the error of the keyring through. *)
Theorem unreachable_keyring (c : Config.BaseConfig) (w : World) (a b : string) :
  keyring.available (kr w) = false ->
  Config.icloud_store_credentials c a b w = (inr false, w)
  /\ Config.pushover_store_credentials c a b w = (inr false, w)
  /\ Config.icloud_delete_credentials c w = (inr false, w)
  /\ Config.pushover_delete_credentials c w = (inr false, w)
  /\ Config.icloud_has_stored_credentials c w
     = (inl (KeyringError "no keyring backend"), w)
  /\ Config.pushover_has_stored_credentials c w
     = (inl (KeyringError "no keyring backend"), w).
Proof.
  destruct w as [[e av] f pl l]. simpl. intros ->.
  repeat split.
Qed.

Lemma unreachable_keyring_witness :
  let w := {| kr := {| keyring.entries := ∅; keyring.available := false |};
              fs := Samples.fs0; platform := Samples.posix; login := Samples.bad_login |} in
  Config.icloud_store_credentials (Samples.cfg true) "alice" "s3cret" w = (inr false, w)
  /\ Config.icloud_has_stored_credentials (Samples.cfg true) w
     = (inl (KeyringError "no keyring backend"), w).
Proof.
  intros w.
  destruct (unreachable_keyring (Samples.cfg true) w "alice" "s3cret" eq_refl)
    as (Hstore & _ & _ & _ & Hhas & _).
  split; [exact Hstore | exact Hhas].
Defined.

Section Pushover.

Import Config Spec.

Variable self : BaseConfig.

(** [get_pushover_config] with notifications enabled, by the user key and
    the token that the store holds. *)
Lemma get_pushover_config_enabled (w : World) :
  enable_pushover self = true ->
  get_pushover_config self w
  = (match stored w PUSHOVER_KEYRING_SERVICE_NAME "user_key" with
     | Some k =>
         if String.eqb k ""
         then inl (ValueError "pushover_api_token is required (store in keyring)")
         else
           match stored w PUSHOVER_KEYRING_SERVICE_NAME k with
           | Some t =>
               if String.eqb t ""
               then inl (ValueError "pushover_api_token is required (store in keyring)")
               else inr (Some {| api_token := t; user_key := k;
                                 device := pushover_device self |})
           | None => inl (ValueError "pushover_api_token is required (store in keyring)")
           end
     | None => inl (ValueError "pushover_api_token is required (store in keyring)")
     end, w).
Proof.
  intros Hen.
  pose proof (pushover_user_key_eq self w) as Hkey.
  pose proof (pushover_api_token_eq self w) as Htok.
  unfold read_property, second_stage in Hkey, Htok. rewrite Hen in Hkey, Htok.
  unfold get_pushover_config. rewrite Hen. cbn [negb]. unfold bind, ret.
  destruct (stored w PUSHOVER_KEYRING_SERVICE_NAME "user_key") as [k|]; simpl in *;
    [|rewrite Htok; reflexivity].
  destruct (String.eqb k "") eqn:Hk; simpl in *; [rewrite Htok; reflexivity|].
  destruct (stored w PUSHOVER_KEYRING_SERVICE_NAME k) as [t|]; simpl in *;
    [|rewrite Htok; reflexivity].
  destruct (String.eqb t "") eqn:Ht; simpl in *; [rewrite Htok; reflexivity|].
  rewrite Htok. rewrite Ht. rewrite Hkey. rewrite Hk. rewrite Htok. rewrite Hkey.
  reflexivity.
Qed.
End Pushover.

(** X7.  The two credential pairs live in separate namespaces of the
    keyring: storing the service credentials changes no entry of the
    notification service, so [pushover_user_key] and [pushover_api_token]
    read as before, and storing the notification credentials leaves
    [icloud_username] and [icloud_password] as before. *)
Theorem credential_namespaces_independent (c : Config.BaseConfig) (w : World)
    (a b : string) :
  keyring.available (kr w) = true ->
  (exists w1 : World,
     Config.icloud_store_credentials c a b w = (inr true, w1)
     /\ (forall key : string,
           Spec.stored w1 Config.PUSHOVER_KEYRING_SERVICE_NAME key
           = Spec.stored w Config.PUSHOVER_KEYRING_SERVICE_NAME key)
     /\ fst (Config.pushover_user_key c w1) = fst (Config.pushover_user_key c w)
     /\ fst (Config.pushover_api_token c w1) = fst (Config.pushover_api_token c w))
  /\ (exists w1 : World,
        Config.pushover_store_credentials c a b w = (inr true, w1)
        /\ (forall key : string,
              Spec.stored w1 Config.ICLOUD_KEYRING_SERVICE_NAME key
              = Spec.stored w Config.ICLOUD_KEYRING_SERVICE_NAME key)
        /\ fst (Config.icloud_username c w1) = fst (Config.icloud_username c w)
        /\ fst (Config.icloud_password c w1) = fst (Config.icloud_password c w)).
Proof.
  intros Hav. split.
  - rewrite (icloud_store_eq c w a b Hav). eexists. split; [reflexivity|].
    assert (Hsame : forall key : string,
              Spec.stored (Spec.with_entries
                             (<[(Config.ICLOUD_KEYRING_SERVICE_NAME, a) := b]>
                                (<[(Config.ICLOUD_KEYRING_SERVICE_NAME, "username") := a]>
                                   (keyring.entries (kr w)))) w)
                          Config.PUSHOVER_KEYRING_SERVICE_NAME key
              = Spec.stored w Config.PUSHOVER_KEYRING_SERVICE_NAME key).
    { intros key. unfold Spec.stored. simpl. rewrite Hav.
      rewrite !lookup_insert_ne by discriminate. reflexivity. }
    split; [exact Hsame|].
    rewrite !pushover_user_key_eq, !pushover_api_token_eq. cbn [fst].
    rewrite (Hsame "user_key").
    destruct (Spec.read_property _ "pushover_user_key" _) as [e|k]; simpl;
      [|rewrite Hsame]; split; reflexivity.
  - rewrite (pushover_store_eq c w a b Hav). eexists. split; [reflexivity|].
    assert (Hsame : forall key : string,
              Spec.stored (Spec.with_entries
                             (<[(Config.PUSHOVER_KEYRING_SERVICE_NAME, a) := b]>
                                (<[(Config.PUSHOVER_KEYRING_SERVICE_NAME, "user_key") := a]>
                                   (keyring.entries (kr w)))) w)
                          Config.ICLOUD_KEYRING_SERVICE_NAME key
              = Spec.stored w Config.ICLOUD_KEYRING_SERVICE_NAME key).
    { intros key. unfold Spec.stored. simpl. rewrite Hav.
      rewrite !lookup_insert_ne by discriminate. reflexivity. }
    split; [exact Hsame|].
    rewrite !icloud_username_eq, !icloud_password_eq. cbn [fst].
    rewrite (Hsame "username").
    destruct (Spec.read_property _ "icloud_username" _) as [e|k]; simpl;
      [|rewrite Hsame]; split; reflexivity.
Qed.

Lemma credential_namespaces_independent_witness :
  exists w1 : World,
    Config.pushover_store_credentials (Samples.cfg true) "ukey" "token"
      Samples.w_identity_only = (inr true, w1)
    /\ fst (Config.icloud_username (Samples.cfg true) w1) = inr "alice".
Proof.
  destruct (proj2 (credential_namespaces_independent (Samples.cfg true)
                     Samples.w_identity_only "ukey" "token" eq_refl))
    as (w1 & Hstore & _ & Hname & _).
  exists w1. split; [exact Hstore|]. rewrite Hname. reflexivity.
Defined.

(** X8.  [get_pushover_config] never gives a half-configured result: it
    leaves the world as it is; it returns [None] only when notifications are
    disabled; with notifications enabled it either raises the [ValueError] of
    a missing credential or returns the stored user key and token, both
    non-empty, with the configured device.  (The [return None] for falsy
    credentials is never taken: with notifications enabled a falsy credential
    makes the property raise.) *)
Theorem get_pushover_config_cases (c : Config.BaseConfig) (w : World) :
  exists r : exn + option Config.PushoverConfig,
    Config.get_pushover_config c w = (r, w)
    /\ match r with
       | inl e => is_ValueError e = true /\ Config.enable_pushover c = true
       | inr None => Config.enable_pushover c = false
       | inr (Some cfg) =>
           Config.enable_pushover c = true
           /\ Config.api_token cfg <> "" /\ Config.user_key cfg <> ""
           /\ Config.device cfg = Config.pushover_device c
           /\ Spec.stored w Config.PUSHOVER_KEYRING_SERVICE_NAME "user_key"
              = Some (Config.user_key cfg)
           /\ Spec.stored w Config.PUSHOVER_KEYRING_SERVICE_NAME (Config.user_key cfg)
              = Some (Config.api_token cfg)
       end.
Proof.
  destruct (Config.enable_pushover c) eqn:Hen.
  - rewrite (get_pushover_config_enabled c w Hen). eexists. split; [reflexivity|].
    destruct (Spec.stored w Config.PUSHOVER_KEYRING_SERVICE_NAME "user_key") as [k|] eqn:Hk;
      [|split; reflexivity].
    destruct (String.eqb_spec k "") as [->|Hkne]; [split; reflexivity|].
    destruct (Spec.stored w Config.PUSHOVER_KEYRING_SERVICE_NAME k) as [t|] eqn:Ht;
      [|split; reflexivity].
    destruct (String.eqb_spec t "") as [->|Htne]; [split; reflexivity|].
    simpl. auto 10.
  - unfold Config.get_pushover_config. rewrite Hen. eexists. split; reflexivity.
Qed.

(** X9.  Storing the notification credentials and getting the notification
    configuration: on a reachable keyring, for a user key that is neither
    empty nor the fixed key ["user_key"] and a non-empty token,
    [pushover_store_credentials] returns [True], after which
    [pushover_has_stored_credentials] is [True], the two properties return
    the user key and the token, and with notifications enabled
    [get_pushover_config] returns them with the configured device. *)
Theorem pushover_store_round_trip (c : Config.BaseConfig) (w : World) (k t : string) :
  keyring.available (kr w) = true ->
  k <> "user_key" -> k <> "" -> t <> "" ->
  exists w1 : World,
    Config.pushover_store_credentials c k t w = (inr true, w1)
    /\ Config.pushover_has_stored_credentials c w1 = (inr true, w1)
    /\ Config.pushover_user_key c w1 = (inr k, w1)
    /\ Config.pushover_api_token c w1 = (inr t, w1)
    /\ (Config.enable_pushover c = true ->
        Config.get_pushover_config c w1
        = (inr (Some {| Config.api_token := t; Config.user_key := k;
                        Config.device := Config.pushover_device c |}), w1)).
Proof.
  intros Hav Hfix Hk Ht.
  rewrite (pushover_store_eq c w k t Hav). eexists. split; [reflexivity|].
  set (w1 := Spec.with_entries _ w).
  assert (Hid : Spec.stored w1 Config.PUSHOVER_KEYRING_SERVICE_NAME "user_key" = Some k).
  { unfold Spec.stored, w1. simpl.
    rewrite lookup_insert_ne by congruence. apply lookup_insert_eq. }
  assert (Hsec : Spec.stored w1 Config.PUSHOVER_KEYRING_SERVICE_NAME k = Some t).
  { unfold Spec.stored, w1. simpl. apply lookup_insert_eq. }
  apply String.eqb_neq in Hk, Ht.
  repeat split.
  - rewrite pushover_has_eq by reflexivity. unfold Spec.pair_stored.
    change (Spec.stored w1 Config.PUSHOVER_KEYRING_SERVICE_NAME "user_key" = Some k)
      with (keyring.entries (kr w1) !! (Config.PUSHOVER_KEYRING_SERVICE_NAME, "user_key")
            = Some k) in Hid.
    change (Spec.stored w1 Config.PUSHOVER_KEYRING_SERVICE_NAME k = Some t)
      with (keyring.entries (kr w1) !! (Config.PUSHOVER_KEYRING_SERVICE_NAME, k) = Some t)
      in Hsec.
    rewrite Hid, Hk, Hsec. reflexivity.
  - rewrite pushover_user_key_eq, Hid. unfold Spec.read_property. simpl. rewrite Hk.
    reflexivity.
  - rewrite pushover_api_token_eq, Hid. unfold Spec.read_property at 2. simpl. rewrite Hk.
    simpl. rewrite Hsec. unfold Spec.read_property. simpl. rewrite Ht. reflexivity.
  - intros Hen. rewrite (get_pushover_config_enabled c w1 Hen), Hid, Hk, Hsec, Ht.
    reflexivity.
Qed.

Lemma pushover_store_round_trip_witness :
  exists w1 : World,
    Config.pushover_store_credentials (Samples.cfg true) "ukey" "token" Samples.w0
    = (inr true, w1)
    /\ Config.get_pushover_config (Samples.cfg true) w1
       = (inr (Some {| Config.api_token := "token"; Config.user_key := "ukey";
                       Config.device := "" |}), w1).
Proof.
  destruct (pushover_store_round_trip (Samples.cfg true) Samples.w0 "ukey" "token")
    as (w1 & Hstore & _ & _ & _ & Hcfg).
  - reflexivity.
  - discriminate.
  - discriminate.
  - discriminate.
  - exists w1. split; [exact Hstore | exact (Hcfg eq_refl)].
Defined.

(** ** Directories *)

Section Directories.

Import Config Spec.

Variable self : BaseConfig.

Lemma with_fs_same (w : World) : with_fs (fs w) w = w.
Proof. destruct w; reflexivity. Qed.

Lemma Path_mkdir_parents_exists (p : os.Path) (f : os.FS) :
  os.is_dir f p = true -> os.Path_mkdir_parents p f = (inr tt, f).
Proof.
  intros Hd. unfold os.Path_mkdir_parents.
  apply Path_mkdir_rev_exists. rewrite rev_involutive, Path_eta. exact Hd.
Qed.

(** [database_path] on any platform: the directory is made, then the file
    name is appended. *)
Lemma database_path_unfold (w : World) :
  database_path self w
  = (let '(r, f) := os.Path_mkdir_parents (Config.database_dir self (platform w)) (fs w) in
     (match r with
      | inl e => inl e
      | inr _ => inr (os.truediv (Config.database_dir self (platform w))
                                 (os.Path_of "deletion_tracker.db"))
      end, with_fs f w)).
Proof.
  unfold database_path, Config.database_dir. unfold bind at 1. unfold gets. cbv zeta.
  set (dir := if negb (os.is_absolute _) then _ else _).
  unfold bind, in_fs, zoom, ret.
  destruct (os.Path_mkdir_parents dir (fs w)) as [[e|[]] f]; reflexivity.
Qed.

Lemma parent_of_database_file (dir : os.Path) :
  os.parent (os.truediv dir (os.Path_of "deletion_tracker.db")) = dir.
Proof.
  destruct dir as [rt ps]. unfold os.parent, os.truediv. simpl.
  rewrite removelast_last. reflexivity.
Qed.

(** The database check of [validate] leaves the world that [database_path]
    leaves: making the directory a second time changes nothing. *)
Lemma database_check_world (w : World) :
  snd (database_check self w) = snd (database_path self w).
Proof.
  unfold database_check. rewrite database_path_unfold.
  destruct (os.Path_mkdir_parents (Config.database_dir self (platform w)) (fs w))
    as [[e|[]] f] eqn:Hm; [reflexivity|].
  apply Path_mkdir_parents_inv in Hm as [_ [(k & f0 & Habs) | [_ Hd]]]; [discriminate|].
  rewrite parent_of_database_file.
  unfold in_fs, zoom. cbn [fs with_fs].
  rewrite (Path_mkdir_parents_exists _ _ Hd).
  cbn [fs]. destruct (os.access_W_OK _ _); destruct w; reflexivity.
Qed.

End Directories.

(** X10.  [ensure_sync_directory] touches nothing but the file system; it
    raises nothing but [OSError]; when it returns, the sync directory exists,
    and a second call returns again and changes nothing. *)
Theorem ensure_sync_directory_effect (c : Config.BaseConfig) (w : World) :
  exists (r : exn + unit) (w' : World),
    Config.ensure_sync_directory c w = (r, w')
    /\ kr w' = kr w /\ platform w' = platform w
    /\ os.cwd (fs w') = os.cwd (fs w)
    /\ match r with
       | inl e => is_OSError e = true
       | inr _ =>
           os.is_dir (fs w') (Config.sync_directory c) = true
           /\ Config.ensure_sync_directory c w' = (inr tt, w')
       end.
Proof.
  unfold Config.ensure_sync_directory, in_fs, zoom.
  destruct (os.Path_mkdir_parents (Config.sync_directory c) (fs w)) as [r f] eqn:Hm.
  apply Path_mkdir_parents_inv in Hm as [Hcwd [(k & f0 & ->) | [-> Hd]]];
    eexists _, _; (split; [reflexivity|]); cbn [kr fs platform]; repeat split; try exact Hcwd.
  - exact Hd.
  - rewrite (Path_mkdir_parents_exists _ _ Hd). reflexivity.
Qed.

(** X11.  [database_path] is idempotent: once it has returned a path, a
    further read returns the same path and changes nothing, on every
    platform. *)
Theorem database_path_idempotent (c : Config.BaseConfig) (w w' : World) (p : os.Path) :
  Config.database_path c w = (inr p, w') ->
  Config.database_path c w' = (inr p, w').
Proof.
  rewrite !database_path_unfold.
  destruct (os.Path_mkdir_parents (Config.database_dir c (platform w)) (fs w))
    as [[e|[]] f] eqn:Hm; [discriminate|].
  intros [= <- <-].
  apply Path_mkdir_parents_inv in Hm as [_ [(k & f0 & Habs) | [_ Hd]]]; [discriminate|].
  cbn [platform fs Spec.with_fs].
  rewrite (Path_mkdir_parents_exists _ _ Hd). reflexivity.
Qed.

Lemma database_path_idempotent_witness :
  exists (p : os.Path) (w' : World),
    Config.database_path (Samples.cfg true) Samples.w0 = (inr p, w')
    /\ Config.database_path (Samples.cfg true) w' = (inr p, w').
Proof.
  destruct (Config.database_path (Samples.cfg true) Samples.w0) as [[e|p] w'] eqn:Hrun.
  - vm_compute in Hrun. discriminate Hrun.
  - exists p, w'. split; [reflexivity|].
    exact (database_path_idempotent (Samples.cfg true) Samples.w0 w' p Hrun).
Defined.

(** X12.  What [validate] does to the world: exactly what one read of
    [database_path] does.  Whether it accepts the configuration or raises,
    it leaves the keyring, the platform and the working directory as they
    were, and the file system is the one in which the database directory has
    been made (when it could be made). *)
Theorem validate_effect (c : Config.BaseConfig) (w : World) :
  snd (Config.validate c w) = snd (Config.database_path c w)
  /\ kr (snd (Config.validate c w)) = kr w
  /\ platform (snd (Config.validate c w)) = platform w
  /\ login (snd (Config.validate c w)) = login w
  /\ os.cwd (fs (snd (Config.validate c w))) = os.cwd (fs w).
Proof.
  assert (Hw : snd (Config.validate c w) = snd (Config.database_path c w)).
  { unfold Config.validate, bind. rewrite validate_collect_eq.
    rewrite <- database_check_world.
    destruct (Spec.failing_messages c w); reflexivity. }
  rewrite Hw. rewrite database_path_unfold.
  destruct (os.Path_mkdir_parents (Config.database_dir c (platform w)) (fs w))
    as [r f] eqn:Hm.
  apply Path_mkdir_parents_inv in Hm as [Hcwd _].
  repeat split. exact Hcwd.
Qed.

Lemma validate_run (c : Config.BaseConfig) (w : World) :
  Config.validate c w
  = (match Spec.failing_messages c w with
     | [] => inr tt
     | errs => inl (ValueError ("Configuration errors: " +:+ Str.join ", " errs))
     end, snd (Spec.database_check c w)).
Proof.
  unfold Config.validate, bind. rewrite validate_collect_eq.
  destruct (Spec.failing_messages c w); reflexivity.
Qed.

(** X13.  One wrong setting, two messages: with a maintenance interval that
    is not positive and a sync interval that is, [validate] raises, and the
    text of its error says both that the maintenance interval must be bigger
    than 0 and that sixty times it must be bigger than the sync interval. *)
Theorem nonpositive_maintenance_reported_twice (c : Config.BaseConfig) (w : World) :
  (Config.maintenance_interval_hours c <= 0)%Q ->
  (0 < Config.sync_interval_minutes c)%Q ->
  exists text : string,
    fst (Config.validate c w) = inl (ValueError text)
    /\ Spec.occurs_in "MAINTENANCE_INTERVAL_HOURS must be bigger than 0 hours" text
    /\ Spec.occurs_in
         "MAINTENANCE_INTERVAL_HOURS * 60 must be bigger than SYNC_INTERVAL_MINUTES" text.
Proof.
  intros Hm Hs.
  assert (H60 : (Config.maintenance_interval_hours c * 60
                 <= Config.sync_interval_minutes c)%Q).
  { apply Qle_trans with (0 * 60)%Q.
    - apply Qmult_le_compat_r; [exact Hm | discriminate].
    - apply Qlt_le_weak. exact Hs. }
  apply Qle_bool_iff in Hm, H60.
  assert (H1 : In "MAINTENANCE_INTERVAL_HOURS must be bigger than 0 hours"
                  (Spec.failing_messages c w)).
  { apply (failing_check_reported c w
             {| Spec.failing := Qle_bool (Config.maintenance_interval_hours c) 0;
                Spec.message := "MAINTENANCE_INTERVAL_HOURS must be bigger than 0 hours" |});
      [unfold Spec.checks; simpl; tauto | exact Hm]. }
  assert (H2 : In "MAINTENANCE_INTERVAL_HOURS * 60 must be bigger than SYNC_INTERVAL_MINUTES"
                  (Spec.failing_messages c w)).
  { apply (failing_check_reported c w
             {| Spec.failing := Qle_bool (Config.maintenance_interval_hours c * 60)
                                         (Config.sync_interval_minutes c);
                Spec.message :=
                  "MAINTENANCE_INTERVAL_HOURS * 60 must be bigger than SYNC_INTERVAL_MINUTES" |});
      [unfold Spec.checks; simpl; tauto | exact H60]. }
  rewrite validate_run.
  destruct (Spec.failing_messages c w) as [|m errs] eqn:He; [destruct H1|].
  eexists. split; [reflexivity|].
  split; apply occurs_after_prefix, join_occurs; assumption.
Qed.

Lemma nonpositive_maintenance_reported_twice_witness :
  exists text : string,
    fst (Config.validate (Samples.cfg_intervals 2 0) Samples.w0) = inl (ValueError text)
    /\ Spec.occurs_in "MAINTENANCE_INTERVAL_HOURS must be bigger than 0 hours" text.
Proof.
  destruct (nonpositive_maintenance_reported_twice (Samples.cfg_intervals 2 0) Samples.w0)
    as (text & Hrun & Hocc & _).
  - unfold Qle. simpl. lia.
  - reflexivity.
  - exists text. split; [exact Hrun | exact Hocc].
Defined.

(** ** The text of a configuration *)

Section Text.

Import Config Spec.

Variable self : BaseConfig.

Lemma masked_mask (v : string) : masked v = mask (negb (String.eqb v "")).
Proof. unfold masked, mask. destruct (String.eqb v ""); reflexivity. Qed.

(** [__str__] by the results of the four property reads. *)
Lemma str_by_reads (w : World) (rk rt ru rp : exn + string) :
  pushover_user_key self w = (rk, w) ->
  pushover_api_token self w = (rt, w) ->
  icloud_username self w = (ru, w) ->
  icloud_password self w = (rp, w) ->
  (forall e, rk = inl e -> is_ValueError e = true) ->
  (forall e, rt = inl e -> is_ValueError e = true) ->
  __str__ self w
  = (match ru, rp with
     | inl e, _ => inl e
     | inr _, inl e => inl e
     | inr u, inr p =>
         inr (config_text self
                (negb (String.eqb u "")) (negb (String.eqb p ""))
                (match rk with inr k => negb (String.eqb k "") | inl _ => false end)
                (match rt with inr t => negb (String.eqb t "") | inl _ => false end))
     end, w).
Proof.
  intros Hk Ht Hu Hp Hkv Htv.
  destruct rk as [ek|k]; [pose proof (Hkv ek eq_refl) as Hek|];
    (destruct rt as [et|t]; [pose proof (Htv et eq_refl) as Het|]);
    destruct ru as [eu|u]; destruct rp as [ep|p];
    unfold __str__, try_except, bind, ret;
    rewrite Hk; cbn beta iota; rewrite ?Hek;
    rewrite Ht; cbn beta iota; rewrite ?Het;
    rewrite Hu; cbn beta iota; try reflexivity;
    rewrite Hp; cbn beta iota; rewrite ?masked_mask; reflexivity.
Qed.

End Text.

(** X14.  [str(config)] shows no secret: it leaves the world as it is, and
    when it returns, its text is determined by the configuration and by four
    bits that say which credentials are present; each credential appears as
    [***] or [None].  It raises nothing but the [ValueError] of a missing
    credential, and nothing with notifications disabled. *)
Theorem str_shows_no_secret (c : Config.BaseConfig) (w : World) :
  exists r : exn + string,
    Config.__str__ c w = (r, w)
    /\ match r with
       | inl e => is_ValueError e = true /\ Config.enable_pushover c = true
       | inr text =>
           exists username password user_key api_token : bool,
             text = Spec.config_text c username password user_key api_token
       end.
Proof.
  rewrite (str_by_reads c w _ _ _ _
             (pushover_user_key_eq c w) (pushover_api_token_eq c w)
             (icloud_username_eq c w) (icloud_password_eq c w)
             (read_property_raises _ _ _) (read_property_raises _ _ _)).
  eexists. split; [reflexivity|].
  pose proof (read_property_cases (Config.enable_pushover c) "icloud_username"
                (Spec.stored w Config.ICLOUD_KEYRING_SERVICE_NAME "username")) as Hu.
  destruct (Spec.read_property (Config.enable_pushover c) "icloud_username" _) as [e|u];
    [exact Hu|].
  pose proof (read_property_cases (Config.enable_pushover c) "icloud_password"
                (Spec.second_stage w Config.ICLOUD_KEYRING_SERVICE_NAME (inr u))) as Hp.
  destruct (Spec.read_property (Config.enable_pushover c) "icloud_password" _) as [e|p];
    [exact Hp|].
  eauto.
Qed.

(** X15.  [str(config)] can fail: the two service credentials are read
    outside any handler, so with notifications enabled and no usable service
    username in the store the call raises the [ValueError] of
    [icloud_username], although the reads of the notification credentials
    are guarded. *)
Theorem str_raises_without_username (c : Config.BaseConfig) (w : World) :
  Config.enable_pushover c = true ->
  truthy (Spec.stored w Config.ICLOUD_KEYRING_SERVICE_NAME "username") = false ->
  Config.__str__ c w
  = (inl (ValueError "icloud_username is required (store in keyring)"), w).
Proof.
  intros Hen Hid.
  rewrite (str_by_reads c w _ _ _ _
             (pushover_user_key_eq c w) (pushover_api_token_eq c w)
             (icloud_username_eq c w) (icloud_password_eq c w)
             (read_property_raises _ _ _) (read_property_raises _ _ _)).
  unfold Spec.read_property at 1. rewrite Hid, Hen. reflexivity.
Qed.

Lemma str_raises_without_username_witness :
  Config.__str__ (Samples.cfg true) Samples.w0
  = (inl (ValueError "icloud_username is required (store in keyring)"), Samples.w0).
Proof.
  exact (str_raises_without_username (Samples.cfg true) Samples.w0 eq_refl eq_refl).
Defined.

(** ** Albums *)

Section Albums.

Import Config Spec.

Context {S X : Type}.
Variable self : BaseConfig.
Variable verify_albums_exist : list string -> M S (list string * X * list string).

(** The result is decided by the reports of the two checks together. *)
Lemma validate_albums_exist_run (s s1 s2 : S)
    (available_p missing_p available_s missing_s : list string) :
  album_check verify_albums_exist (personal_album_names_to_include self) s
              available_p missing_p s1 ->
  album_check verify_albums_exist (shared_album_names_to_include self) s1
              available_s missing_s s2 ->
  validate_albums_exist self verify_albums_exist s
  = (match album_report "Personal" "personal" available_p missing_p
           ++ album_report "Shared" "shared" available_s missing_s with
     | [] => inr tt
     | missing_albums =>
         inl (ValueError ("The following specified albums do not exist: "
                          +:+ Str.join ", " missing_albums))
     end, s2).
Proof.
  unfold validate_albums_exist. cbv zeta.
  intros [(Hp & -> & ->) | (Hp & xp & Hrun1)] [(Hs & -> & ->) | (Hs & xs & Hrun2)].
  - rewrite Hp, Hs. reflexivity.
  - rewrite Hp. destruct (shared_album_names_to_include self) as [|q qs]; [contradiction|].
    unfold bind, ret. rewrite Hrun2. unfold album_report.
    destruct missing_s; reflexivity.
  - rewrite Hs. destruct (personal_album_names_to_include self) as [|p ps]; [contradiction|].
    unfold bind, ret. rewrite Hrun1. unfold album_report.
    destruct missing_p as [|mp mps]; [reflexivity|].
    cbn [app]. rewrite app_nil_r. reflexivity.
  - destruct (personal_album_names_to_include self) as [|p ps]; [contradiction|].
    destruct (shared_album_names_to_include self) as [|q qs]; [contradiction|].
    unfold bind. rewrite Hrun1. unfold ret. rewrite Hrun2. unfold album_report.
    destruct missing_p as [|mp mps]; destruct missing_s as [|ms mss]; try reflexivity.
    + cbn [app]. rewrite app_nil_r. reflexivity.
    + cbn [app]. rewrite <- !app_assoc. reflexivity.
Qed.

Lemma album_report_missing (kind kind' name : string) (available missing : list string) :
  In name missing ->
  In (kind +:+ ": " +:+ name) (album_report kind kind' available missing).
Proof.
  intros Hin. unfold album_report. destruct missing as [|m ms]; [destruct Hin|].
  apply in_or_app. left. apply in_map with (f := fun n => kind +:+ ": " +:+ n). exact Hin.
Qed.

Lemma album_report_note (kind kind' : string) (available missing : list string) :
  missing <> [] ->
  In ("(Note: existing " +:+ kind' +:+ " albums: " +:+ Str.join ", " available +:+ ")")
     (album_report kind kind' available missing).
Proof.
  intros Hne. unfold album_report. destruct missing as [|m ms]; [contradiction|].
  apply in_or_app. right. left. reflexivity.
Qed.

End Albums.

(** X16.  [validate_albums_exist] reports all missing albums together.
    A filter that is empty is not checked: with both filters empty the
    client is not called and the method returns.  When the checks that are
    made return, the method returns normally exactly when no name is
    missing; otherwise it raises one [ValueError] whose text has every
    missing personal album as [Personal: name], every missing shared album as
    [Shared: name], and for each kind with a missing name the note that
    lists the existing albums.  An exception of the client is not caught. *)
Theorem validate_albums_exist_aggregates {S X : Type} (c : Config.BaseConfig)
    (verify_albums_exist : list string -> M S (list string * X * list string)) (s : S) :
  (Config.personal_album_names_to_include c = [] ->
   Config.shared_album_names_to_include c = [] ->
   Config.validate_albums_exist c verify_albums_exist s = (inr tt, s))
  /\ (forall (s1 s2 : S) (available_p missing_p available_s missing_s : list string),
        Spec.album_check verify_albums_exist (Config.personal_album_names_to_include c) s
                         available_p missing_p s1 ->
        Spec.album_check verify_albums_exist (Config.shared_album_names_to_include c) s1
                         available_s missing_s s2 ->
        (missing_p = [] -> missing_s = [] ->
         Config.validate_albums_exist c verify_albums_exist s = (inr tt, s2))
        /\ (missing_p <> [] \/ missing_s <> [] ->
            exists text : string,
              Config.validate_albums_exist c verify_albums_exist s
              = (inl (ValueError text), s2)
              /\ (forall name, In name missing_p ->
                               Spec.occurs_in ("Personal: " +:+ name) text)
              /\ (forall name, In name missing_s ->
                               Spec.occurs_in ("Shared: " +:+ name) text)
              /\ (missing_p <> [] ->
                  Spec.occurs_in ("(Note: existing personal albums: "
                                  +:+ Str.join ", " available_p +:+ ")") text)
              /\ (missing_s <> [] ->
                  Spec.occurs_in ("(Note: existing shared albums: "
                                  +:+ Str.join ", " available_s +:+ ")") text)))
  /\ (forall (e : exn) (s1 : S),
        Config.personal_album_names_to_include c <> [] ->
        verify_albums_exist (Config.personal_album_names_to_include c) s = (inl e, s1) ->
        Config.validate_albums_exist c verify_albums_exist s = (inl e, s1)).
Proof.
  split; [|split].
  - intros Hp Hs.
    rewrite (validate_albums_exist_run c verify_albums_exist s s s [] [] [] []);
      [reflexivity | left; auto | left; auto].
  - intros s1 s2 available_p missing_p available_s missing_s Hcp Hcs.
    rewrite (validate_albums_exist_run c verify_albums_exist s s1 s2 _ _ _ _ Hcp Hcs).
    split.
    + intros -> ->. reflexivity.
    + intros Hmiss.
      set (report := Spec.album_report "Personal" "personal" available_p missing_p
                     ++ Spec.album_report "Shared" "shared" available_s missing_s).
      assert (Hne : report <> []).
      { unfold report, Spec.album_report. intros Habs.
        apply app_eq_nil in Habs as [Hp Hs].
        destruct Hmiss as [Hm|Hm].
        - destruct missing_p; [contradiction | discriminate Hp].
        - destruct missing_s; [contradiction | discriminate Hs]. }
      exists ("The following specified albums do not exist: " +:+ Str.join ", " report).
      split; [destruct report; [contradiction | reflexivity]|].
      repeat split.
      * intros name Hin. apply occurs_after_prefix, join_occurs, in_or_app. left.
        exact (album_report_missing "Personal" "personal" name available_p missing_p Hin).
      * intros name Hin. apply occurs_after_prefix, join_occurs, in_or_app. right.
        exact (album_report_missing "Shared" "shared" name available_s missing_s Hin).
      * intros Hm. apply occurs_after_prefix, join_occurs, in_or_app. left.
        exact (album_report_note "Personal" "personal" available_p missing_p Hm).
      * intros Hm. apply occurs_after_prefix, join_occurs, in_or_app. right.
        exact (album_report_note "Shared" "shared" available_s missing_s Hm).
  - intros e s1 Hp Hrun. unfold Config.validate_albums_exist. cbv zeta.
    destruct (Config.personal_album_names_to_include c) as [|p ps]; [contradiction|].
    unfold bind. rewrite Hrun. reflexivity.
Qed.

Lemma validate_albums_exist_aggregates_witness :
  Config.validate_albums_exist (Samples.cfg_albums [] []) Samples.verify_trip 0
  = (inr tt, 0)
  /\ exists text : string,
       Config.validate_albums_exist (Samples.cfg_albums ["Trip"; "Typo"] [])
         Samples.verify_trip 0
       = (inl (ValueError text), 1)
       /\ Spec.occurs_in "Personal: Typo" text
       /\ Spec.occurs_in "(Note: existing personal albums: Trip)" text.
Proof.
  split.
  - exact (proj1 (validate_albums_exist_aggregates (Samples.cfg_albums [] [])
                    Samples.verify_trip 0) eq_refl eq_refl).
  - destruct (proj1 (proj2 (validate_albums_exist_aggregates
                              (Samples.cfg_albums ["Trip"; "Typo"] [])
                              Samples.verify_trip 0))
                    1 1 ["Trip"] ["Typo"] [] [])
      as [_ Hmissing].
    + right. split; [discriminate|]. exists tt. reflexivity.
    + left. auto.
    + destruct Hmissing as (text & Hrun & Hp & _ & Hnote & _).
      * left. discriminate.
      * exists text. repeat split.
        -- exact Hrun.
        -- apply (Hp "Typo"). simpl. auto.
        -- apply Hnote. discriminate.
Defined.

(** ** The settings file *)

Section SettingsFile.

Import Config Spec.

Lemma settings_search (windows_base base : os.Path) (w : World) :
  os.name (platform w) = "posix" ->
  posix_settings_base (platform w) base ->
  get_settings_env_file_path windows_base w
  = (match first_settings_file (fs w) [os.Path_of ".env"; settings_ini base] with
     | inl e => inl e
     | inr (Some p) => inr p
     | inr None =>
         inl (OtherException
                ("Warning: No configuration file found. Options are: "
                 +:+ Str.join ", " [os.str (os.Path_of ".env"); os.str (settings_ini base)]))
     end, w).
Proof.
  intros Hname Hbase. unfold get_settings_env_file_path.
  unfold bind at 1. unfold gets at 1. rewrite Hname. cbv zeta.
  change (String.eqb "posix" "nt") with false.
  change (String.eqb "posix" "posix") with true. cbv iota.
  assert (Hb : (if truthy (os.environ (platform w) !! "XDG_CONFIG_HOME")
                then ret (os.Path_of (or_empty (os.environ (platform w) !! "XDG_CONFIG_HOME")))
                else match os.Path_home (platform w) with
                     | inr home => ret (os.truediv home (os.Path_of ".config"))
                     | inl e => raise e
                     end) w = (inr base, w)).
  { destruct Hbase as [(x & Hx & Hne & ->) | (Hx & home & Hhome & ->)].
    - rewrite Hx. simpl. apply String.eqb_neq in Hne. rewrite Hne. reflexivity.
    - rewrite Hx, Hhome. reflexivity. }
  unfold bind at 1. rewrite Hb.
  unfold bind, gets, settings_ini. cbn [app List.map].
  destruct (first_settings_file (fs w) _) as [e|[p|]]; reflexivity.
Qed.

End SettingsFile.

(** X17.  The order in which [get_settings_env_file_path] looks for the
    settings on a POSIX platform, [base] being [$XDG_CONFIG_HOME] or
    [~/.config]: a [.env] in the working directory wins when it is a file,
    whatever lies under [base]; a [.env] that is a directory is an error;
    without a [.env], [base/foto_pool/settings.ini] is taken when it is a
    file and is an error when it is a directory; when neither exists, the
    error names both candidates.  The world is never changed. *)
Theorem settings_file_discovery (windows_base base : os.Path) (w : World) :
  os.name (platform w) = "posix" ->
  Spec.posix_settings_base (platform w) base ->
  let env_file := os.Path_of ".env" in
  let ini_file := Spec.settings_ini base in
  snd (Config.get_settings_env_file_path windows_base w) = w
  /\ fst (Config.get_settings_env_file_path windows_base w)
     = if os.is_dir (fs w) env_file
       then inl (OtherException "Expected file but found directory: .env")
       else if os.exists_ (fs w) env_file then inr env_file
       else if os.is_dir (fs w) ini_file
       then inl (OtherException ("Expected file but found directory: "
                                 +:+ os.str ini_file))
       else if os.exists_ (fs w) ini_file then inr ini_file
       else inl (OtherException
                   ("Warning: No configuration file found. Options are: .env, "
                    +:+ os.str ini_file)).
Proof.
  intros Hname Hbase env_file ini_file.
  rewrite (settings_search windows_base base w Hname Hbase).
  split; [reflexivity|]. cbn [fst Config.first_settings_file].
  fold env_file. fold ini_file.
  destruct (os.is_dir (fs w) env_file); [reflexivity|].
  destruct (os.exists_ (fs w) env_file); [reflexivity|].
  destruct (os.is_dir (fs w) ini_file); [reflexivity|].
  destruct (os.exists_ (fs w) ini_file); reflexivity.
Qed.

(** X18.  The directory of the user's settings is worked out before any
    file is looked at, so [get_settings_env_file_path] can fail although a
    [.env] file is there: on a platform that is neither [nt] nor [posix] it
    raises for the unsupported platform, and on a POSIX platform without
    [$XDG_CONFIG_HOME] and without a home directory it raises the error of
    [Path.home()]; in both cases whatever the file system holds. *)
Theorem settings_file_fails_before_search (windows_base : os.Path) (w : World) :
  (os.name (platform w) <> "nt" -> os.name (platform w) <> "posix" ->
   Config.get_settings_env_file_path windows_base w
   = (inl (OtherException ("Unsupported OS: " +:+ os.name (platform w))), w))
  /\ (os.name (platform w) = "posix" ->
      truthy (os.environ (platform w) !! "XDG_CONFIG_HOME") = false ->
      os.environ (platform w) !! "HOME" = None ->
      os.pw_dir (platform w) = None ->
      Config.get_settings_env_file_path windows_base w
      = (inl (OtherException "Could not determine home directory."), w)).
Proof.
  split.
  - intros Hnt Hposix. apply String.eqb_neq in Hnt, Hposix.
    unfold Config.get_settings_env_file_path, bind, gets. rewrite Hnt, Hposix. reflexivity.
  - intros Hname Hxdg Hhome Hpw.
    unfold Config.get_settings_env_file_path, bind, gets. rewrite Hname, Hxdg.
    unfold os.Path_home, os.expanduser_tilde. rewrite Hhome, Hpw. reflexivity.
Qed.

Lemma settings_file_discovery_witness :
  Config.get_settings_env_file_path (os.Path_of "") Samples.w_dotenv
  = (inr (os.Path_of ".env"), Samples.w_dotenv)
  /\ fst (Config.get_settings_env_file_path (os.Path_of "") Samples.w0)
     = inl (OtherException
              ("Warning: No configuration file found. Options are: .env, "
               +:+ "/home/u/.config/foto_pool/settings.ini")).
Proof.
  assert (Hbase : Spec.posix_settings_base Samples.posix (os.Path_of "/home/u/.config")).
  { right. split; [reflexivity|]. exists (os.Path_of "/home/u"). split; reflexivity. }
  split.
  - destruct (settings_file_discovery (os.Path_of "") (os.Path_of "/home/u/.config")
                Samples.w_dotenv eq_refl Hbase) as [Hw Hr].
    destruct (Config.get_settings_env_file_path (os.Path_of "") Samples.w_dotenv) as [r w'].
    simpl in Hw, Hr. rewrite Hw, Hr. reflexivity.
  - destruct (settings_file_discovery (os.Path_of "") (os.Path_of "/home/u/.config")
                Samples.w0 eq_refl Hbase) as [_ Hr].
    rewrite Hr. reflexivity.
Defined.

Lemma settings_file_fails_before_search_witness :
  fst (Config.get_settings_env_file_path (os.Path_of "")
         (Samples.w_on {| os.name := "java"; os.environ := ∅; os.pw_dir := None |}))
  = inl (OtherException "Unsupported OS: java")
  /\ fst (Config.get_settings_env_file_path (os.Path_of "")
            (Samples.w_on {| os.name := "posix"; os.environ := ∅; os.pw_dir := None |}))
     = inl (OtherException "Could not determine home directory.").
Proof.
  split.
  - rewrite (proj1 (settings_file_fails_before_search (os.Path_of "")
                      (Samples.w_on {| os.name := "java"; os.environ := ∅;
                                       os.pw_dir := None |})));
      [reflexivity | discriminate | discriminate].
  - rewrite (proj2 (settings_file_fails_before_search (os.Path_of "")
                      (Samples.w_on {| os.name := "posix"; os.environ := ∅;
                                       os.pw_dir := None |})));
      reflexivity.
Defined.

(** ** Album names *)

Section AlbumNames.

Lemma contains_char (c a : ascii) (s : string) :
  Str.contains (String c EmptyString) (String a s)
  = Ascii.eqb a c || Str.contains (String c EmptyString) s.
Proof.
  cbn [Str.contains]. f_equal. simpl.
  destruct (ascii_dec c a) as [->|Hne].
  - rewrite Ascii.eqb_refl. destruct s; reflexivity.
  - symmetry. apply Ascii.eqb_neq. congruence.
Qed.

Lemma contains_char_empty (c : ascii) : Str.contains (String c EmptyString) "" = false.
Proof. reflexivity. Qed.

Lemma lstrip_space_head (s : string) :
  Str.lstrip_space s = ""
  \/ exists a r, Str.lstrip_space s = String a r /\ Str.is_space a = false.
Proof.
  induction s as [|a s IH]; [left; reflexivity|].
  cbn [Str.lstrip_space]. destruct (Str.is_space a) eqn:Ha; [exact IH|].
  right. eauto.
Qed.

Lemma rstrip_space_head (a : ascii) (s : string) :
  Str.is_space a = false ->
  exists r, Str.rstrip_space (String a s) = String a r.
Proof.
  intros Ha. cbn [Str.rstrip_space]. destruct (Str.rstrip_space s); rewrite ?Ha; eauto.
Qed.

Lemma rstrip_space_idem (s : string) :
  Str.rstrip_space (Str.rstrip_space s) = Str.rstrip_space s.
Proof.
  induction s as [|a s IH]; [reflexivity|].
  cbn [Str.rstrip_space].
  destruct (Str.rstrip_space s) as [|b r] eqn:Hr.
  - destruct (Str.is_space a) eqn:Ha; [reflexivity|].
    cbn [Str.rstrip_space]. rewrite Ha. reflexivity.
  - cbn [Str.rstrip_space]. cbn [Str.rstrip_space] in IH.
    destruct (Str.rstrip_space r) as [|b' r'] eqn:Hr'.
    + destruct (Str.is_space b); [discriminate IH|]. rewrite IH. reflexivity.
    + rewrite IH. reflexivity.
Qed.

(** A stripped string is its own strip. *)
Lemma strip_idem (s : string) : Str.strip (Str.strip s) = Str.strip s.
Proof.
  unfold Str.strip at 2 3.
  destruct (lstrip_space_head s) as [->|(a & r & -> & Ha)]; [reflexivity|].
  destruct (rstrip_space_head a r Ha) as (r' & Hr').
  unfold Str.strip. rewrite Hr'. cbn [Str.lstrip_space]. rewrite Ha.
  rewrite <- Hr'. apply rstrip_space_idem.
Qed.

Lemma lstrip_space_char (c : ascii) (s : string) :
  Str.contains (String c EmptyString) s = false ->
  Str.contains (String c EmptyString) (Str.lstrip_space s) = false.
Proof.
  induction s as [|a s IH]; [reflexivity|].
  intros H. cbn [Str.lstrip_space]. destruct (Str.is_space a); [|exact H].
  rewrite contains_char in H. apply orb_false_iff in H as [_ H]. exact (IH H).
Qed.

Lemma rstrip_space_char (c : ascii) (s : string) :
  Str.contains (String c EmptyString) s = false ->
  Str.contains (String c EmptyString) (Str.rstrip_space s) = false.
Proof.
  induction s as [|a s IH]; [reflexivity|].
  intros H. rewrite contains_char in H. apply orb_false_iff in H as [Ha H].
  specialize (IH H). cbn [Str.rstrip_space].
  destruct (Str.rstrip_space s) as [|b r].
  - destruct (Str.is_space a); [reflexivity|].
    rewrite contains_char, Ha. reflexivity.
  - rewrite contains_char, Ha. exact IH.
Qed.

Lemma strip_char (c : ascii) (s : string) :
  Str.contains (String c EmptyString) s = false ->
  Str.contains (String c EmptyString) (Str.strip s) = false.
Proof. intros H. unfold Str.strip. apply rstrip_space_char, lstrip_space_char, H. Qed.

(** The pieces of a split do not hold the separator. *)
Lemma split_pieces (c : ascii) (s piece : string) :
  In piece (Str.split c s) -> Str.contains (String c EmptyString) piece = false.
Proof.
  revert piece. induction s as [|a s IH]; intros piece Hin.
  - destruct Hin as [<-|[]]. reflexivity.
  - cbn [Str.split] in Hin. destruct (Ascii.eqb a c) eqn:Hac.
    + destruct Hin as [<-|Hin]; [reflexivity | exact (IH piece Hin)].
    + destruct (Str.split c s) as [|h t] eqn:Hs.
      * destruct Hin as [<-|[]]. rewrite contains_char, Hac. reflexivity.
      * destruct Hin as [<-|Hin].
        -- rewrite contains_char, Hac. apply IH. left. reflexivity.
        -- apply IH. right. exact Hin.
Qed.

(** A string without the separator is the one piece of its split. *)
Lemma split_none (c : ascii) (s : string) :
  Str.contains (String c EmptyString) s = false -> Str.split c s = [s].
Proof.
  induction s as [|a s IH]; [reflexivity|].
  intros H. rewrite contains_char in H. apply orb_false_iff in H as [Ha H].
  cbn [Str.split]. rewrite Ha, (IH H). reflexivity.
Qed.

Lemma split_app (c : ascii) (x rest : string) :
  Str.contains (String c EmptyString) x = false ->
  Str.split c (x +:+ String c rest) = x :: Str.split c rest.
Proof.
  induction x as [|a x IH]; intros H.
  - change ("" +:+ String c rest) with (String c rest).
    cbn [Str.split]. rewrite Ascii.eqb_refl. reflexivity.
  - rewrite contains_char in H. apply orb_false_iff in H as [Ha H].
    change (String a x +:+ String c rest) with (String a (x +:+ String c rest)).
    cbn [Str.split]. rewrite Ha, (IH H). reflexivity.
Qed.

(** Splitting what was joined gives the list back. *)
Lemma split_join (c : ascii) (names : list string) :
  names <> [] ->
  Forall (fun n => Str.contains (String c EmptyString) n = false) names ->
  Str.split c (Str.join (String c EmptyString) names) = names.
Proof.
  intros Hne Hall. induction Hall as [|x l Hx Hl IH]; [contradiction|].
  destruct l as [|y l].
  - unfold Str.join. simpl. apply split_none, Hx.
  - unfold Str.join.
    change (String.concat (String c EmptyString) (x :: y :: l))
      with (x +:+ String c EmptyString +:+ String.concat (String c EmptyString) (y :: l)).
    change (String c EmptyString +:+ String.concat (String c EmptyString) (y :: l))
      with (String c (String.concat (String c EmptyString) (y :: l))).
    rewrite (split_app c x _ Hx). f_equal. apply IH. discriminate.
Qed.

End AlbumNames.

(** X19.  Every album name that [parse_album_names] returns is a piece of
    the setting between commas with the white space at its ends removed; it
    is not empty, has no white space at either end and holds no comma. *)
Theorem parse_album_names_clean (s n : string) :
  In n (Config.parse_album_names s) ->
  Spec.clean_name n
  /\ exists raw : string, In raw (Str.split "," s) /\ n = Str.strip raw.
Proof.
  unfold Config.parse_album_names. destruct (String.eqb s ""); [intros []|].
  intros Hin. apply in_map_iff in Hin as (raw & <- & Hraw).
  apply filter_In in Hraw as [Hraw Hne]. apply negb_true_iff in Hne.
  split; [|eauto]. repeat split.
  - apply String.eqb_neq. exact Hne.
  - apply strip_idem.
  - apply (strip_char ","%char). exact (split_pieces _ _ _ Hraw).
Qed.

Lemma parse_album_names_clean_witness :
  Spec.clean_name "Family Trip"
  /\ exists raw : string,
       In raw (Str.split "," " Summer , ,  Family Trip ,") /\ "Family Trip" = Str.strip raw.
Proof.
  apply (parse_album_names_clean " Summer , ,  Family Trip ," "Family Trip").
  vm_compute. auto.
Defined.

(** X20.  Writing album names into the setting and reading them back: for
    names that are not empty, have no white space at their ends and hold no
    comma, [parse_album_names] of the names joined by commas is the list of
    names, in order and with repetitions. *)
Theorem parse_album_names_round_trip (names : list string) :
  Forall Spec.clean_name names ->
  Config.parse_album_names (Str.join "," names) = names.
Proof.
  intros Hall. destruct names as [|x l]; [reflexivity|].
  unfold Config.parse_album_names.
  assert (Hjoin : String.eqb (Str.join "," (x :: l)) "" = false).
  { apply String.eqb_neq. inversion Hall as [|? ? (Hx & _ & _) _]; subst.
    unfold Str.join. destruct x as [|a x]; [contradiction|].
    destruct l; simpl; discriminate. }
  rewrite Hjoin.
  rewrite (split_join ","%char (x :: l)).
  - clear Hjoin. induction Hall as [|n ns (Hn & Hs & _) _ IH]; [reflexivity|].
    cbn [List.filter List.map]. rewrite Hs.
    apply String.eqb_neq in Hn. rewrite Hn. cbn [negb List.map]. rewrite Hs, IH.
    reflexivity.
  - discriminate.
  - eapply Forall_impl; [exact Hall|]. intros n (_ & _ & Hc). exact Hc.
Qed.

Lemma parse_album_names_round_trip_witness :
  Config.parse_album_names (Str.join "," ["Summer"; "Family Trip"; "Summer"])
  = ["Summer"; "Family Trip"; "Summer"].
Proof.
  apply parse_album_names_round_trip.
  repeat constructor; discriminate.
Defined.

(** * Further properties of [icloud_client.py] *)

(** ** Listing photos *)

Section Listing.

Import ICloudClient Spec.

Variable self : iCloudClient.
Variable unreadable : pyicloud.PhotoAsset -> option exn.

Lemma list_photos_loop_run (total_count : Z) (photos : list pyicloud.PhotoAsset)
    (i : Z) (s : State) :
  list_photos_loop unreadable total_count i photos s
  = (inr (List.map photo_info (List.filter (readable unreadable) photos)),
     {| _api := _api s; world := world s;
        trace := trace s ++ listing_events unreadable total_count i photos |}).
Proof.
  revert i s. induction photos as [|photo rest IH]; intros i s.
  - cbn [list_photos_loop listing_events List.filter List.map]. unfold ret.
    rewrite app_nil_r. destruct s; reflexivity.
  - cbn [list_photos_loop listing_events List.filter]. unfold readable at 1.
    unfold bind at 1.
    destruct (i mod 100 =? 0)%Z; [rewrite logger_run | unfold ret at 1];
      unfold bind at 1; unfold try_except;
      destruct (unreadable photo) as [e|];
      unfold raise, ret at 1; cbn [any_Exception];
      try (unfold bind at 1; rewrite logger_run; unfold ret at 1);
      unfold bind; rewrite IH; unfold ret; cbn [_api world trace List.map app];
      rewrite <- ?app_assoc; reflexivity.
Qed.

Lemma listing_events_logs (total_count : Z) (photos : list pyicloud.PhotoAsset) (i : Z) :
  forallb (fun e => negb (is_io e)) (listing_events unreadable total_count i photos) = true.
Proof.
  revert i. induction photos as [|photo rest IH]; intros i; [reflexivity|].
  cbn [listing_events]. rewrite !forallb_app, IH.
  destruct (i mod 100 =? 0)%Z; destruct (unreadable photo); reflexivity.
Qed.

Lemma listing_events_warnings (total_count : Z) (photos : list pyicloud.PhotoAsset) (i : Z) :
  length (List.filter is_warning_record (listing_events unreadable total_count i photos))
  = length (List.filter (fun p => negb (readable unreadable p)) photos).
Proof.
  revert i. induction photos as [|photo rest IH]; intros i; [reflexivity|].
  cbn [listing_events List.filter]. rewrite !List.filter_app, !List.length_app, IH.
  change (readable unreadable photo)
    with (match unreadable photo with Some _ => false | None => true end).
  destruct (i mod 100 =? 0)%Z; destruct (unreadable photo); reflexivity.
Qed.

Lemma listing_events_progress (total_count : Z) (photos : list pyicloud.PhotoAsset) (i : Z) :
  (1 <= i)%Z ->
  Z.of_nat (length (List.filter is_progress_record
                      (listing_events unreadable total_count i photos)))
  = ((i + Z.of_nat (length photos) - 1) / 100 - (i - 1) / 100)%Z.
Proof.
  revert i. induction photos as [|photo rest IH]; intros i Hi.
  - cbn [listing_events List.filter length]. rewrite Z.add_0_r. lia.
  - cbn [listing_events List.filter]. rewrite !List.filter_app, !List.length_app.
    rewrite !Nat2Z.inj_add, IH by lia.
    replace (Z.of_nat (length (List.filter is_progress_record
               match unreadable photo with
               | Some e => [Log WARNING "Error processing photo {}: {}"
                              [VInt i; VStr (str_exn e)]]
               | None => []
               end))) with 0%Z by (destruct (unreadable photo); reflexivity).
    cbn [length]. rewrite Nat2Z.inj_succ.
    replace (i + 1 + Z.of_nat (length rest) - 1)%Z
      with (i + Z.succ (Z.of_nat (length rest)) - 1)%Z by lia.
    replace (i + 1 - 1)%Z with i by lia.
    destruct (i mod 100 =? 0)%Z eqn:Hmod.
    + apply Z.eqb_eq in Hmod. cbn [List.filter is_progress_record length].
      assert (i / 100 = (i - 1) / 100 + 1)%Z.
      { Z.to_euclidean_division_equations. lia. }
      simpl. lia.
    + apply Z.eqb_neq in Hmod. cbn [List.filter length].
      assert (i / 100 = (i - 1) / 100)%Z.
      { Z.to_euclidean_division_equations. lia. }
      simpl. lia.
Qed.

End Listing.

Section ListPhotos.

Import ICloudClient Spec.

Variable self : iCloudClient.
Variable unreadable : pyicloud.PhotoAsset -> option exn.

(** [list_photos] with a session whose photo library is reachable. *)
Lemma list_photos_run (s : State) (a : pyicloud.PyiCloudService)
    (library : pyicloud.PhotosService) :
  _api s = Some a ->
  pyicloud.photos a = inr (Some library) ->
  list_photos self unreadable s
  = (inr (List.map photo_info (List.filter (readable unreadable) (pyicloud.all library))),
     {| _api := _api s; world := world s;
        trace := trace s ++
          [Remote "photos" [];
           Log INFO "Fetching photo list from iCloud..." [];
           Remote "photos" [];
           Remote "all" [];
           Log INFO "Found {} photos in iCloud"
               [VInt (Z.of_nat (length (pyicloud.all library)))]]
          ++ listing_events unreadable (Z.of_nat (length (pyicloud.all library))) 1
                            (pyicloud.all library) |}).
Proof.
  destruct s as [api w tr]. cbn [_api world trace]. intros -> Hph.
  unfold list_photos, try_except, remote, logger, emit.
  unfold bind, gets, modify, ret, raise. simpl. rewrite Hph. simpl.
  rewrite list_photos_loop_run. simpl.
  rewrite <- !app_assoc. reflexivity.
Qed.

Lemma photo_info_keys (photo : pyicloud.PhotoAsset) :
  photo_info photo !! "photo_obj" = Some (VPhoto photo)
  /\ photo_info photo !! "filename" = Some (VStr (pyicloud.filename photo))
  /\ photo_info photo !! "size" = Some (VInt (pyicloud.size photo)).
Proof.
  unfold photo_info. repeat split.
Qed.

(** A dry run on the dictionary of a photo of less than 2^53 bytes: [False]
    for a photo above the limit, [True] otherwise; the keys are there, so the
    call never ends in its handler. *)
Lemma download_listed_dry_run (photo : pyicloud.PhotoAsset) (path : string) (s : State) :
  dry_run (config self) = true ->
  (0 <= pyicloud.size photo < 2 ^ 53)%Z ->
  fst (download_photo self (photo_info photo) path s)
  = inr (negb (oversized (max_file_size_mb (config self)) photo)).
Proof.
  intros Hdry Hexact. destruct (photo_info_keys photo) as (Hobj & Hname & Hsize).
  unfold oversized.
  destruct (0 <? max_file_size_mb (config self))%Z eqn:Hpos;
    [destruct (max_file_size_mb (config self) * 1048576 <? pyicloud.size photo)%Z eqn:Hover|].
  - apply Z.ltb_lt in Hpos, Hover.
    destruct (download_photo_oversized self (photo_info photo) path s _ Hpos Hsize Hover
                (proj2 Hexact))
      as (logs & Hrun & _).
    rewrite Hrun. reflexivity.
  - apply Z.ltb_ge in Hover.
    rewrite (download_photo_dry_run self (photo_info photo) path s _ _ Hdry Hobj Hname);
      [reflexivity|].
    right. exists (pyicloud.size photo). split; [|split; [exact Hexact | exact Hover]].
    unfold get. rewrite Hsize. reflexivity.
  - apply Z.ltb_ge in Hpos.
    rewrite (download_photo_dry_run self (photo_info photo) path s _ _ Hdry Hobj Hname);
      [reflexivity|].
    left. exact Hpos.
Qed.

End ListPhotos.

(** X21.  [list_photos] without a usable photo library: without a session
    it yields nothing, logs one error and sends no request; with a session
    whose photo library is [None] it yields nothing after the one request
    that reads the library; and when reading the library raises, the
    exception leaves the generator, since that first read is outside the
    handler. *)
Theorem list_photos_unavailable (self : ICloudClient.iCloudClient)
    (unreadable : pyicloud.PhotoAsset -> option exn) (s : ICloudClient.State) :
  (ICloudClient._api s = None ->
   ICloudClient.list_photos self unreadable s
   = (inr [],
      {| ICloudClient._api := ICloudClient._api s;
         ICloudClient.world := ICloudClient.world s;
         ICloudClient.trace := ICloudClient.trace s ++
           [ICloudClient.Log ICloudClient.ERROR
              "Not authenticated or photos service unavailable" []] |}))
  /\ (forall a : pyicloud.PyiCloudService,
        ICloudClient._api s = Some a ->
        (pyicloud.photos a = inr None ->
         ICloudClient.list_photos self unreadable s
         = (inr [],
            {| ICloudClient._api := ICloudClient._api s;
               ICloudClient.world := ICloudClient.world s;
               ICloudClient.trace := ICloudClient.trace s ++
                 [ICloudClient.Remote "photos" [];
                  ICloudClient.Log ICloudClient.ERROR
                    "Not authenticated or photos service unavailable" []] |}))
        /\ (forall e : exn,
              pyicloud.photos a = inl e ->
              ICloudClient.list_photos self unreadable s
              = (inl e,
                 {| ICloudClient._api := ICloudClient._api s;
                    ICloudClient.world := ICloudClient.world s;
                    ICloudClient.trace := ICloudClient.trace s ++
                      [ICloudClient.Remote "photos" []] |}))).
Proof.
  destruct s as [api w tr]. cbn [ICloudClient._api ICloudClient.world ICloudClient.trace].
  split.
  - intros ->. reflexivity.
  - intros a ->. split.
    + intros Hph.
      unfold ICloudClient.list_photos, ICloudClient.remote, ICloudClient.logger,
        ICloudClient.emit.
      unfold bind, gets, modify, ret, raise. simpl. rewrite Hph. simpl.
      rewrite <- app_assoc. reflexivity.
    + intros e Hph.
      unfold ICloudClient.list_photos, ICloudClient.remote, ICloudClient.logger,
        ICloudClient.emit.
      unfold bind, gets, modify, ret, raise. simpl. rewrite Hph. reflexivity.
Qed.

Lemma list_photos_unavailable_witness :
  fst (ICloudClient.list_photos (Samples.client 0 false) Samples.unreadable_A2 Samples.s0)
  = inr []
  /\ fst (ICloudClient.list_photos (Samples.client 0 false) Samples.unreadable_A2
            {| ICloudClient._api := Some Samples.api_expired;
               ICloudClient.world := Samples.w_remote; ICloudClient.trace := [] |})
     = inl (PyiCloudAPIResponseException "Authentication required").
Proof.
  split.
  - rewrite (proj1 (list_photos_unavailable (Samples.client 0 false) Samples.unreadable_A2
                      Samples.s0) eq_refl).
    reflexivity.
  - rewrite (proj2 (proj2 (list_photos_unavailable (Samples.client 0 false)
                             Samples.unreadable_A2
                             {| ICloudClient._api := Some Samples.api_expired;
                                ICloudClient.world := Samples.w_remote;
                                ICloudClient.trace := [] |})
                          Samples.api_expired eq_refl)
                   (PyiCloudAPIResponseException "Authentication required") eq_refl).
    reflexivity.
Defined.

(** X22.  [list_photos] with a reachable photo library, read to its end: it
    does not raise; it yields the dictionaries of the readable photos, in the
    order of the library; a photo that cannot be read is skipped with one
    warning and does not end the listing; one progress record is logged for
    every full hundred of photos; and the session and the world are left as
    they were. *)
Theorem list_photos_yields (self : ICloudClient.iCloudClient)
    (unreadable : pyicloud.PhotoAsset -> option exn) (s : ICloudClient.State)
    (a : pyicloud.PyiCloudService) (library : pyicloud.PhotosService) :
  ICloudClient._api s = Some a ->
  pyicloud.photos a = inr (Some library) ->
  exists events : list ICloudClient.Event,
    ICloudClient.list_photos self unreadable s
    = (inr (List.map ICloudClient.photo_info
              (List.filter (Spec.readable unreadable) (pyicloud.all library))),
       {| ICloudClient._api := ICloudClient._api s;
          ICloudClient.world := ICloudClient.world s;
          ICloudClient.trace := ICloudClient.trace s ++ events |})
    /\ Z.of_nat (length (List.filter Spec.is_progress_record events))
       = (Z.of_nat (length (pyicloud.all library)) / 100)%Z
    /\ length (List.filter Spec.is_warning_record events)
       = length (List.filter (fun p => negb (Spec.readable unreadable p))
                             (pyicloud.all library)).
Proof.
  intros Ha Hph. rewrite (list_photos_run self unreadable s a library Ha Hph).
  eexists. split; [reflexivity|]. split.
  - rewrite List.filter_app, List.length_app, Nat2Z.inj_add.
    rewrite listing_events_progress by lia. cbn [List.filter Spec.is_progress_record].
    simpl (String.eqb _ _). cbn [length].
    replace (1 + Z.of_nat (length (pyicloud.all library)) - 1)%Z
      with (Z.of_nat (length (pyicloud.all library))) by lia.
    change ((1 - 1) / 100)%Z with 0%Z. simpl Z.of_nat. lia.
  - rewrite List.filter_app, List.length_app, listing_events_warnings. reflexivity.
Qed.

Lemma list_photos_yields_witness :
  fst (ICloudClient.list_photos (Samples.client 0 false) Samples.unreadable_A2
         Samples.s_library)
  = inr [ICloudClient.photo_info Samples.photo_15MB].
Proof.
  destruct (list_photos_yields (Samples.client 0 false) Samples.unreadable_A2
              Samples.s_library Samples.api_library
              {| pyicloud.all := [Samples.photo_15MB; Samples.photo_broken] |}
              eq_refl eq_refl)
    as (events & Hrun & _).
  rewrite Hrun. reflexivity.
Defined.

(** X23.  What [list_photos] yields is what [download_photo] expects: every
    dictionary of the listing is the dictionary of a readable photo of the
    library, and a dry run of [download_photo] on it never ends in the
    handler for a missing key: for a photo of less than 2^53 bytes (which
    the float of the size check holds exactly) and a limit below 2^53 it
    returns [False] when the photo is above the size limit and [True]
    otherwise. *)
Theorem listed_photos_download (self : ICloudClient.iCloudClient)
    (unreadable : pyicloud.PhotoAsset -> option exn) (s : ICloudClient.State)
    (a : pyicloud.PyiCloudService) (library : pyicloud.PhotosService)
    (info : gmap string ICloudClient.value) :
  ICloudClient._api s = Some a ->
  pyicloud.photos a = inr (Some library) ->
  (exists listing : list (gmap string ICloudClient.value),
     fst (ICloudClient.list_photos self unreadable s) = inr listing /\ In info listing) ->
  exists photo : pyicloud.PhotoAsset,
    In photo (pyicloud.all library)
    /\ unreadable photo = None
    /\ info = ICloudClient.photo_info photo
    /\ (ICloudClient.dry_run (ICloudClient.config self) = true ->
        (0 <= pyicloud.size photo < 2 ^ 53)%Z ->
        (ICloudClient.max_file_size_mb (ICloudClient.config self) < 2 ^ 53)%Z ->
        forall (path : string) (s' : ICloudClient.State),
          fst (ICloudClient.download_photo self info path s')
          = inr (negb (Spec.oversized
                         (ICloudClient.max_file_size_mb (ICloudClient.config self))
                         photo))).
Proof.
  intros Ha Hph (listing & Hrun & Hin).
  rewrite (list_photos_run self unreadable s a library Ha Hph) in Hrun.
  injection Hrun as <-.
  apply in_map_iff in Hin as (photo & <- & Hphoto).
  apply filter_In in Hphoto as [Hphoto Hread].
  exists photo. repeat split.
  - exact Hphoto.
  - unfold Spec.readable in Hread. destruct (unreadable photo); [discriminate | reflexivity].
  - intros Hdry Hexact _ path s'. apply download_listed_dry_run; assumption.
Qed.

Lemma listed_photos_download_witness :
  exists photo : pyicloud.PhotoAsset,
    ICloudClient.photo_info Samples.photo_15MB = ICloudClient.photo_info photo
    /\ fst (ICloudClient.download_photo (Samples.client 10 true)
              (ICloudClient.photo_info Samples.photo_15MB) Samples.dest Samples.s_library)
       = inr (negb (Spec.oversized 10 photo)).
Proof.
  destruct (listed_photos_download (Samples.client 10 true) Samples.unreadable_A2
              Samples.s_library Samples.api_library
              {| pyicloud.all := [Samples.photo_15MB; Samples.photo_broken] |}
              (ICloudClient.photo_info Samples.photo_15MB) eq_refl eq_refl)
    as (photo & _ & _ & Hinfo & Hrun).
  - exists [ICloudClient.photo_info Samples.photo_15MB]. split.
    + vm_compute. reflexivity.
    + left. reflexivity.
  - exists photo. split; [exact Hinfo|].
    assert (Hphoto : photo = Samples.photo_15MB).
    { apply (f_equal (fun d => d !! "photo_obj")) in Hinfo. vm_compute in Hinfo.
      injection Hinfo as <-. reflexivity. }
    subst photo.
    refine (Hrun eq_refl _ _ Samples.dest Samples.s_library).
    + split; [discriminate | reflexivity].
    + reflexivity.
Defined.

(** * Sessions *)

Section Session.

Import ICloudClient.

Variable self : iCloudClient.

Lemma is_authenticated_run (s : State) (a : pyicloud.PyiCloudService) :
  _api s = Some a ->
  is_authenticated self s
  = (match pyicloud.photos a with
     | inl e => inl e
     | inr (Some _) => inr true
     | inr None => inr false
     end,
     {| _api := _api s; world := world s; trace := trace s ++ [Remote "photos" []] |}).
Proof.
  destruct s as [api w tr]. cbn [_api world trace]. intros ->.
  unfold is_authenticated, remote, emit. unfold bind, gets, modify, ret, raise. simpl.
  destruct (pyicloud.photos a) as [e|[ph|]]; reflexivity.
Qed.

Lemma is_authenticated_by_session (s s' : State) :
  _api s' = _api s -> fst (is_authenticated self s') = fst (is_authenticated self s).
Proof.
  destruct s as [api w tr], s' as [api' w' tr']. cbn [_api]. intros ->.
  destruct api as [a|]; [|reflexivity].
  rewrite (is_authenticated_run {| _api := Some a; world := w; trace := tr |} a eq_refl).
  rewrite (is_authenticated_run {| _api := Some a; world := w'; trace := tr' |} a eq_refl).
  reflexivity.
Qed.

End Session.

(** X24.  A call of [authenticate] that returns [True] leaves a session
    behind that the other methods accept: [is_authenticated] is [True],
    [requires_2fa] gives the flag of the session, and [list_photos] finds
    the photo library (a session answers a repeated read of its library as it
    answered the first). *)
Theorem authenticate_establishes_session (self : ICloudClient.iCloudClient)
    (s s' : ICloudClient.State) :
  ICloudClient.authenticate self s = (inr true, s') ->
  exists (a : pyicloud.PyiCloudService) (library : pyicloud.PhotosService),
    ICloudClient._api s' = Some a
    /\ fst (ICloudClient.is_authenticated self s') = inr true
    /\ fst (ICloudClient.requires_2fa self s') = inr (pyicloud.requires_2fa a)
    /\ forall unreadable : pyicloud.PhotoAsset -> option exn,
         fst (ICloudClient.list_photos self unreadable s')
         = inr (List.map ICloudClient.photo_info
                  (List.filter (Spec.readable unreadable) (pyicloud.all library))).
Proof.
  intros Hrun.
  destruct (authenticate_true self s s' Hrun) as (u & p & a & library & _ & Hph & Ha).
  exists a, library. split; [exact Ha|]. split; [|split].
  - rewrite (is_authenticated_run self s' a Ha), Hph. reflexivity.
  - unfold ICloudClient.requires_2fa, bind, gets, ret. rewrite Ha. reflexivity.
  - intros unreadable. rewrite (list_photos_run self unreadable s' a library Ha Hph).
    reflexivity.
Qed.

Lemma authenticate_establishes_session_witness :
  exists (a : pyicloud.PyiCloudService) (library : pyicloud.PhotosService),
    ICloudClient._api (snd (ICloudClient.authenticate (Samples.client 0 false) Samples.s0))
    = Some a
    /\ fst (ICloudClient.is_authenticated (Samples.client 0 false)
              (snd (ICloudClient.authenticate (Samples.client 0 false) Samples.s0)))
       = inr true.
Proof.
  destruct (authenticate_establishes_session (Samples.client 0 false) Samples.s0
              (snd (ICloudClient.authenticate (Samples.client 0 false) Samples.s0)))
    as (a & library & Ha & Hauth & _).
  - vm_compute. reflexivity.
  - exists a, library. split; [exact Ha | exact Hauth].
Defined.

(** X25.  A login that the remote rejects does not end an earlier session:
    [authenticate] returns [False] with one error record, but [self._api]
    and the world are as before, so [is_authenticated] answers what it
    answered before the call, [True] included. *)
Theorem failed_login_keeps_session (self : ICloudClient.iCloudClient)
    (s : ICloudClient.State) (u p : string) (e : exn) :
  ICloudClient.icloud_username (ICloudClient.config self) (ICloudClient.world s)
  = (inr (Some u), ICloudClient.world s) ->
  ICloudClient.icloud_password (ICloudClient.config self) (ICloudClient.world s)
  = (inr (Some p), ICloudClient.world s) ->
  u <> "" -> p <> "" ->
  login (ICloudClient.world s) u p = inl e ->
  exists s' : ICloudClient.State,
    ICloudClient.authenticate self s = (inr false, s')
    /\ ICloudClient._api s' = ICloudClient._api s
    /\ ICloudClient.world s' = ICloudClient.world s
    /\ ICloudClient.trace s'
       = ICloudClient.trace s ++
         [ICloudClient.Log ICloudClient.INFO "Authenticating with iCloud as {}"
            [ICloudClient.VStr u];
          ICloudClient.Remote "PyiCloudService" [u; p];
          ICloudClient.Log ICloudClient.ERROR (Spec.authenticate_error_template e)
            [ICloudClient.VStr (str_exn e)]]
    /\ fst (ICloudClient.is_authenticated self s')
       = fst (ICloudClient.is_authenticated self s).
Proof.
  intros Hu Hp Hune Hpne Hlogin.
  rewrite (authenticate_configured self s u p Hu Hp Hune Hpne). cbv zeta. rewrite Hlogin.
  eexists. split; [reflexivity|]. cbn [ICloudClient._api ICloudClient.world ICloudClient.trace].
  split; [reflexivity|]. split; [reflexivity|]. split.
  - rewrite <- app_assoc. reflexivity.
  - apply is_authenticated_by_session. reflexivity.
Qed.

Lemma failed_login_keeps_session_witness :
  fst (ICloudClient.authenticate (Samples.client 0 false) Samples.s_stale) = inr false
  /\ fst (ICloudClient.is_authenticated (Samples.client 0 false)
            (snd (ICloudClient.authenticate (Samples.client 0 false) Samples.s_stale)))
     = inr true.
Proof.
  destruct (failed_login_keeps_session (Samples.client 0 false) Samples.s_stale
              "alice" "s3cret"
              (PyiCloudFailedLoginException "Invalid email/password combination."))
    as (s' & Hrun & _ & _ & _ & Hauth).
  - reflexivity.
  - reflexivity.
  - discriminate.
  - discriminate.
  - reflexivity.
  - rewrite Hrun. split; [reflexivity|]. cbn [snd]. rewrite Hauth. vm_compute. reflexivity.
Defined.

(** X26.  A login that succeeds replaces the session even when
    [authenticate] then returns [False] because the photo library cannot be
    reached.  If the library is [None], [is_authenticated] is [False]; if
    reading it raises, the session that is left makes [is_authenticated] and
    [list_photos] raise that exception, since neither reads the library
    inside a handler. *)
Theorem unreachable_library_after_login (self : ICloudClient.iCloudClient)
    (unreadable : pyicloud.PhotoAsset -> option exn)
    (s : ICloudClient.State) (u p : string) (api : pyicloud.PyiCloudService) :
  ICloudClient.icloud_username (ICloudClient.config self) (ICloudClient.world s)
  = (inr (Some u), ICloudClient.world s) ->
  ICloudClient.icloud_password (ICloudClient.config self) (ICloudClient.world s)
  = (inr (Some p), ICloudClient.world s) ->
  u <> "" -> p <> "" ->
  login (ICloudClient.world s) u p = inr api ->
  (forall library : pyicloud.PhotosService, pyicloud.photos api <> inr (Some library)) ->
  exists s' : ICloudClient.State,
    ICloudClient.authenticate self s = (inr false, s')
    /\ ICloudClient._api s' = Some api
    /\ (pyicloud.photos api = inr None ->
        fst (ICloudClient.is_authenticated self s') = inr false
        /\ fst (ICloudClient.list_photos self unreadable s') = inr [])
    /\ (forall e : exn,
          pyicloud.photos api = inl e ->
          fst (ICloudClient.is_authenticated self s') = inl e
          /\ fst (ICloudClient.list_photos self unreadable s') = inl e).
Proof.
  intros Hu Hp Hune Hpne Hlogin Hnone.
  rewrite (authenticate_configured self s u p Hu Hp Hune Hpne). cbv zeta. rewrite Hlogin.
  destruct (pyicloud.photos api) as [e|[library|]] eqn:Hph.
  - eexists. split; [reflexivity|]. split; [reflexivity|]. split; [discriminate|].
    intros e' [= <-]. split.
    + erewrite is_authenticated_run by reflexivity. rewrite Hph. reflexivity.
    + unfold ICloudClient.list_photos, ICloudClient.remote, ICloudClient.emit.
      unfold bind, gets, modify, ret, raise. simpl. rewrite Hph. reflexivity.
  - exfalso. exact (Hnone library eq_refl).
  - eexists. split; [reflexivity|]. split; [reflexivity|]. split; [|discriminate].
    intros _. split.
    + erewrite is_authenticated_run by reflexivity. rewrite Hph. reflexivity.
    + unfold ICloudClient.list_photos, ICloudClient.remote, ICloudClient.logger,
        ICloudClient.emit.
      unfold bind, gets, modify, ret, raise. simpl. rewrite Hph. reflexivity.
Qed.

Lemma unreachable_library_after_login_witness :
  fst (ICloudClient.authenticate (Samples.client 0 false) Samples.s_expired) = inr false
  /\ fst (ICloudClient.is_authenticated (Samples.client 0 false)
            (snd (ICloudClient.authenticate (Samples.client 0 false) Samples.s_expired)))
     = inl (PyiCloudAPIResponseException "Authentication required").
Proof.
  destruct (unreachable_library_after_login (Samples.client 0 false) Samples.unreadable_A2
              Samples.s_expired "alice" "s3cret" Samples.api_expired)
    as (s' & Hrun & _ & _ & Hraise).
  - reflexivity.
  - reflexivity.
  - discriminate.
  - discriminate.
  - reflexivity.
  - discriminate.
  - rewrite Hrun. split; [reflexivity|]. cbn [snd].
    exact (proj1 (Hraise (PyiCloudAPIResponseException "Authentication required") eq_refl)).
Defined.

(** * Downloads and the file system *)

Section DownloadFiles.

Import ICloudClient.

Lemma open_wb_nodes (path : string) (f : os.FS) :
  os.cwd (snd (os.open_wb path f)) = os.cwd f
  /\ (forall k : list string,
        k <> os.resolve f (os.Path_of path) ->
        os.nodes (snd (os.open_wb path f)) !! k = os.nodes f !! k)
  /\ (fst (os.open_wb path f) = inr tt ->
      os.nodes (snd (os.open_wb path f)) !! os.resolve f (os.Path_of path)
      = Some (os.File [])).
Proof.
  unfold os.open_wb, os.create_at.
  destruct (os.nodes f !! os.resolve f (os.Path_of path)) as [[wr|data]|] eqn:Hk.
  - repeat split; discriminate.
  - cbn [fst snd os.with_nodes os.nodes os.cwd]. repeat split.
    + intros k Hne. apply lookup_insert_ne. congruence.
    + intros _. apply lookup_insert_eq.
  - destruct (os.nodes f !! removelast (os.resolve f (os.Path_of path))) as [[[|]|data]|];
      cbn [fst snd os.with_nodes os.nodes os.cwd]; repeat split; try discriminate.
    + intros k Hne. apply lookup_insert_ne. congruence.
    + intros _. apply lookup_insert_eq.
Qed.

Lemma resolve_cwd (f f' : os.FS) (p : os.Path) :
  os.cwd f' = os.cwd f -> os.resolve f' p = os.resolve f p.
Proof. unfold os.resolve. intros ->. reflexivity. Qed.

End DownloadFiles.

(** X27.  What a download that is neither skipped nor a dry run does to the
    file system (the size check lets the photo through: no positive limit,
    or a size below 2^53 bytes that is not above the limit, itself below
    2^53).  No entry but the destination is touched.  When
    [photo.download()] raises, the world is unchanged.  Once the destination
    has been opened it holds what was read of the body: the data when the
    read returns, and nothing when the read raises, so an earlier copy at the
    destination is lost in a failed download. *)
Theorem download_photo_file_effect (self : ICloudClient.iCloudClient)
    (info : gmap string ICloudClient.value) (path : string) (s : ICloudClient.State)
    (ph : pyicloud.PhotoAsset) (filename : ICloudClient.value) :
  ICloudClient.dry_run (ICloudClient.config self) = false ->
  info !! "photo_obj" = Some (ICloudClient.VPhoto ph) ->
  info !! "filename" = Some filename ->
  Spec.within_limit (ICloudClient.max_file_size_mb (ICloudClient.config self)) info ->
  (ICloudClient.max_file_size_mb (ICloudClient.config self) < 2 ^ 53)%Z ->
  let destination := os.resolve (fs (ICloudClient.world s)) (os.Path_of path) in
  let s' := snd (ICloudClient.download_photo self info path s) in
  (forall k : list string,
     k <> destination ->
     os.nodes (fs (ICloudClient.world s')) !! k = os.nodes (fs (ICloudClient.world s)) !! k)
  /\ (forall e : exn,
        pyicloud.download ph = inl e -> ICloudClient.world s' = ICloudClient.world s)
  /\ (forall response : pyicloud.Response,
        pyicloud.download ph = inr response ->
        fst (os.open_wb path (fs (ICloudClient.world s))) = inr tt ->
        os.nodes (fs (ICloudClient.world s')) !! destination
        = Some (os.File match pyicloud.raw_read response with
                        | inr data => data
                        | inl _ => []
                        end)).
Proof.
  intros Hdry Hphoto Hname Hgate _ destination s'. subst destination s'.
  rewrite (download_photo_fetch self info path s ph filename Hdry Hphoto Hname Hgate).
  cbv zeta.
  destruct (open_wb_nodes path (fs (ICloudClient.world s))) as (Hcwd & Hother & Hdest).
  destruct (pyicloud.download ph) as [e|response].
  - cbn [snd ICloudClient.world]. split; [|split].
    + reflexivity.
    + reflexivity.
    + discriminate.
  - destruct (os.open_wb path (fs (ICloudClient.world s))) as [[e|[]] f1] eqn:Hopen;
      cbn [fst snd] in Hcwd, Hother, Hdest.
    + cbn [snd ICloudClient.world Spec.with_fs fs]. split; [|split].
      * exact Hother.
      * discriminate.
      * discriminate.
    + destruct (pyicloud.raw_read response) as [e|data] eqn:Hread;
        cbn [snd ICloudClient.world Spec.with_fs fs].
      * split; [|split].
        -- exact Hother.
        -- discriminate.
        -- intros response' [= <-] _. rewrite Hread. apply Hdest. reflexivity.
      * unfold os.write, modify. cbn [snd os.with_nodes os.nodes].
        rewrite (resolve_cwd (fs (ICloudClient.world s)) f1 _ Hcwd).
        split; [|split].
        -- intros k Hne. rewrite lookup_insert_ne by congruence. apply Hother, Hne.
        -- discriminate.
        -- intros response' [= <-] _. rewrite Hread. apply lookup_insert_eq.
Qed.

Lemma download_photo_file_effect_witness :
  os.nodes (fs (ICloudClient.world Samples.s_earlier_copy))
    !! ["home"; "u"; "photos"; "IMG_0001.JPG"] = Some (os.File [Byte.x07])
  /\ os.nodes (fs (ICloudClient.world
                     (snd (ICloudClient.download_photo (Samples.client 20 false)
                             (ICloudClient.photo_info Samples.photo_stalled) Samples.dest
                             Samples.s_earlier_copy))))
       !! ["home"; "u"; "photos"; "IMG_0001.JPG"] = Some (os.File []).
Proof.
  split; [vm_compute; reflexivity|].
  refine (proj2 (proj2 (download_photo_file_effect (Samples.client 20 false)
                          (ICloudClient.photo_info Samples.photo_stalled) Samples.dest
                          Samples.s_earlier_copy Samples.photo_stalled
                          (ICloudClient.VStr "IMG_0001.JPG") _ _ _ _ _))
                {| pyicloud.raw_read := inl (OtherException "Connection reset by peer") |}
                _ _).
  - reflexivity.
  - vm_compute. reflexivity.
  - vm_compute. reflexivity.
  - right. exists 1024%Z. split; [vm_compute; reflexivity|].
    split; [split; [discriminate | reflexivity] | discriminate].
  - reflexivity.
  - reflexivity.
  - vm_compute. reflexivity.
Defined.

(** X28.  [download_photo] on a dictionary that lacks a key.  Without
    ['photo_obj'], or without ['filename'], the call returns [False] with one
    error record that carries the missing key, before anything else is logged
    or requested; the record names the file ['unknown'] when it is the file
    name that is missing.  Without ['size'] the size counts as zero, so the
    photo is never skipped, whatever the limit: a dry run returns [True]. *)
Theorem download_photo_missing_key (self : ICloudClient.iCloudClient)
    (info : gmap string ICloudClient.value) (path : string) (s : ICloudClient.State) :
  let failed (named : ICloudClient.value) (key : string) :=
    (inr false,
     {| ICloudClient._api := ICloudClient._api s;
        ICloudClient.world := ICloudClient.world s;
        ICloudClient.trace := ICloudClient.trace s ++
          [ICloudClient.Log ICloudClient.ERROR "Error downloading photo {}: {}"
             [named; ICloudClient.VStr ("'" +:+ key +:+ "'")]] |}) in
  (info !! "photo_obj" = None ->
   ICloudClient.download_photo self info path s
   = failed (ICloudClient.get info "filename" (ICloudClient.VStr "unknown")) "photo_obj")
  /\ (forall photo : ICloudClient.value,
        info !! "photo_obj" = Some photo ->
        info !! "filename" = None ->
        ICloudClient.download_photo self info path s
        = failed (ICloudClient.VStr "unknown") "filename")
  /\ (forall photo filename : ICloudClient.value,
        info !! "photo_obj" = Some photo ->
        info !! "filename" = Some filename ->
        info !! "size" = None ->
        ICloudClient.dry_run (ICloudClient.config self) = true ->
        fst (ICloudClient.download_photo self info path s) = inr true).
Proof.
  cbv zeta. split; [|split].
  - intros Hphoto.
    unfold ICloudClient.download_photo, try_except, ICloudClient.getitem.
    rewrite Hphoto. reflexivity.
  - intros photo Hphoto Hname.
    unfold ICloudClient.download_photo, try_except, ICloudClient.getitem, ICloudClient.get.
    rewrite Hphoto, Hname. reflexivity.
  - intros photo filename Hphoto Hname Hsize Hdry.
    rewrite (download_photo_dry_run self info path s photo filename Hdry Hphoto Hname);
      [reflexivity|].
    destruct (Z_le_gt_dec (ICloudClient.max_file_size_mb (ICloudClient.config self)) 0)
      as [Hle|Hgt]; [left; exact Hle|].
    right. exists 0%Z. split.
    + unfold ICloudClient.get. rewrite Hsize. reflexivity.
    + lia.
Qed.

Lemma download_photo_missing_key_witness :
  fst (ICloudClient.download_photo (Samples.client 10 true) ∅ Samples.dest Samples.s0)
  = inr false
  /\ fst (ICloudClient.download_photo (Samples.client 10 true)
            (delete "size" (ICloudClient.photo_info Samples.photo_15MB)) Samples.dest
            Samples.s0)
     = inr true.
Proof.
  split.
  - rewrite (proj1 (download_photo_missing_key (Samples.client 10 true) ∅ Samples.dest
                      Samples.s0)).
    + reflexivity.
    + vm_compute. reflexivity.
  - refine (proj2 (proj2 (download_photo_missing_key (Samples.client 10 true)
                            (delete "size" (ICloudClient.photo_info Samples.photo_15MB))
                            Samples.dest Samples.s0))
                  (ICloudClient.VPhoto Samples.photo_15MB)
                  (ICloudClient.VStr "IMG_0001.JPG") _ _ _ _).
    + vm_compute. reflexivity.
    + vm_compute. reflexivity.
    + vm_compute. reflexivity.
    + reflexivity.
Defined.
